(** * The judge evaluation and statistical aggregation pipeline

    A shallow embedding of [vibexml_evaluation/judge.py],
    [vibexml_evaluation/providers.py],
    [vibexml_evaluation/academic_enhancements.py], the orchestration of
    [vibexml_evaluation/evaluator.py] and [vibexml_evaluation/runner.py]
    and the selection of test cases of
    [vibexml_evaluation/run_evaluation.py], and the properties of the
    pipeline proved over it.

    Conventions of the embedding.
    - A Python [str] is a [string]; every character is read as the code
      point of the same number (0 to 255).
    - The numbers of [judge.py] (Python [int] and [float]) are the exact
      rationals [Q].  The counts, the comparisons of counts and what is
      raised are those of the code; a quotient or a sum of scores is the
      exact value that the code rounds to binary64.  Where a property
      compares two values that the code computes by different
      operations, or bounds a rounded value, the rounding is made
      explicit as a function [fl] on the rationals.
      [fallback_score_binary64_agrees] and
      [fallback_winner_binary64_agrees] relate the heuristic score to its
      binary64 evaluation.
    - The numbers of [academic_enhancements.py] are numpy [float64] values,
      embedded as the binary64 primitive floats: a division by zero there
      yields [nan] or an infinity and raises nothing, as in numpy; the
      sums are numpy's pairwise sums, and a square [x ** 2] is the
      function [pow] of the C library, a parameter of the embedding.
    - A Python [dict] is an association list in insertion order with
      unique keys.
    - Effects are explicit: the process-wide generator of the [random]
      module, the number of requests sent to the judge model and the lines
      printed form the [World]; a computation returns a value or raises, and
      threads the world. *)

From Stdlib Require Import ZArith QArith Qabs Qminmax List String Ascii Bool Lia Lqa.
From Stdlib Require Import Floats.
From Stdlib Require Import DecimalString.
Import ListNotations.

Set Implicit Arguments.

(** ** Python runtime *)

Module Py.

Local Open Scope string_scope.

(** Exceptions, all of them instances of [Exception] (what an
    [except Exception] clause catches). *)
Inductive PyExc : Type :=
| Exception (msg : string)
| KeyError (key : string)
| ValueError (msg : string)
| ZeroDivisionError (msg : string).

(** [str(e)]. *)
Definition exc_str (e : PyExc) : string :=
  match e with
  | Exception msg => msg
  | KeyError key => "'" ++ key ++ "'"
  | ValueError msg => msg
  | ZeroDivisionError msg => msg
  end.

(** The outcome of a call that touches no state. *)
Inductive result (A : Type) : Type :=
| Ok (a : A)
| Raise (e : PyExc).

Arguments Ok {A} a.
Arguments Raise {A} e.

Definition rbind {A B} (r : result A) (k : A -> result B) : result B :=
  match r with
  | Ok a => k a
  | Raise e => Raise e
  end.

Declare Scope res_scope.
Delimit Scope res_scope with res.

Notation "x <- c ;; k" := (rbind c (fun x => k))
  (at level 61, c at next level, right associativity) : res_scope.

(** A list comprehension whose element expression may raise. *)
Fixpoint traverse {A B} (f : A -> result B) (xs : list A) : result (list B) :=
  match xs with
  | [] => Ok []
  | x :: xs' =>
      match f x with
      | Ok b =>
          match traverse f xs' with
          | Ok bs => Ok (b :: bs)
          | Raise e => Raise e
          end
      | Raise e => Raise e
      end
  end.

Definition nl : string := String "010"%char EmptyString.
Definition dq : string := String "034"%char EmptyString.

(** [sep.join(parts)]. *)
Fixpoint join (sep : string) (parts : list string) : string :=
  match parts with
  | [] => ""
  | [p] => p
  | p :: rest => p ++ sep ++ join sep rest
  end.

(** [c.isspace()] for a character below 256: tab, line feed, vertical
    tab, form feed, carriage return, the four separators 28..31, space,
    next line (133) and no-break space (160). *)
Definition isspace (c : ascii) : bool :=
  let n := nat_of_ascii c in
  (((9 <=? n) && (n <=? 13)) || ((28 <=? n) && (n <=? 32))
   || (n =? 133) || (n =? 160))%nat.

(** [s.split()]: the maximal runs of characters that are not white
    space, in order; [cur] is the run being read, reversed. *)
Fixpoint split_from (cur : list ascii) (s : string) : list string :=
  match s with
  | EmptyString =>
      match cur with
      | [] => []
      | _ => [string_of_list_ascii (rev cur)]
      end
  | String c s' =>
      if isspace c then
        match cur with
        | [] => split_from [] s'
        | _ => string_of_list_ascii (rev cur) :: split_from [] s'
        end
      else split_from (c :: cur) s'
  end.

Definition split (s : string) : list string := split_from [] s.

(** [len] of a list, as a Python [int]. *)
Definition len {A} (l : list A) : Z := Z.of_nat (List.length l).

(** *** Dictionaries *)

Definition dict (V : Type) : Type := list (string * V).

Fixpoint dict_find {V} (d : dict V) (k : string) : option V :=
  match d with
  | [] => None
  | (k', v) :: d' => if String.eqb k' k then Some v else dict_find d' k
  end.

(** [k in d]. *)
Definition dict_mem {V} (d : dict V) (k : string) : bool :=
  match dict_find d k with Some _ => true | None => false end.

(** [d[k]]. *)
Definition dict_getitem {V} (d : dict V) (k : string) : result V :=
  match dict_find d k with
  | Some v => Ok v
  | None => Raise (KeyError k)
  end.

(** [d.get(k, default)]. *)
Definition dict_get {V} (d : dict V) (k : string) (default : V) : V :=
  match dict_find d k with Some v => v | None => default end.

(** [d[k] = v]: the value is replaced in place, a new key goes last. *)
Fixpoint dict_setitem {V} (d : dict V) (k : string) (v : V) : dict V :=
  match d with
  | [] => [(k, v)]
  | (k', v') :: d' =>
      if String.eqb k' k then (k', v) :: d' else (k', v') :: dict_setitem d' k v
  end.

Definition dict_keys {V} (d : dict V) : list string := map fst d.

(** *** Numbers of [judge.py] *)

Local Open Scope Q_scope.

(** [min(a, b)] of two arguments: [b] when [b < a], else [a]. *)
Definition py_min (a b : Q) : Q := if Qle_bool a b then a else b.

(** [a / b], which raises on a zero divisor. *)
Definition truediv (a b : Q) : result Q :=
  if Qeq_bool b 0 then Raise (ZeroDivisionError "division by zero")
  else Ok (a / b).

(** [a < b]. *)
Definition Qltb (a b : Q) : bool := negb (Qle_bool b a).

(** The unit roundoff of binary64 arithmetic, [2^-53]. *)
Definition unit_roundoff : Q := 1 # 9007199254740992.

(** [sum(xs)]. *)
Definition qsum (xs : list Q) : Q := fold_left Qplus xs 0.

(** [sum(1 for x in xs if p x)]. *)
Definition count {A} (p : A -> bool) (xs : list A) : Z :=
  len (filter p xs).

(** *** The [random] module

    The generator is Python's own; the pipeline uses [random.seed] and
    [random.choice([True, False])] only, so these two are what an
    implementation of the module provides here. *)
Class RandomModule : Type := {
  rng_state : Type;
  (** the state in which [random.seed(a)] leaves the generator *)
  seed_state : Z -> rng_state;
  (** [random.choice([True, False])]: the element drawn and the state after *)
  choice_bool : rng_state -> bool * rng_state
}.

(** *** State and exceptions *)

Section Effects.

Context {RM : RandomModule}.

Record World : Type := mkWorld {
  random_state : rng_state;     (* the generator of the [random] module *)
  provider_calls : nat;         (* requests sent to the judge model so far *)
  stdout : list string          (* lines printed so far *)
}.

(** A computation: its outcome and the world it leaves. A raised
    exception keeps the effects made before it. *)
Definition M (A : Type) : Type := World -> result A * World.

Definition ret {A} (a : A) : M A := fun w => (Ok a, w).

Definition raise {A} (e : PyExc) : M A := fun w => (Raise e, w).

Definition bind {A B} (c : M A) (k : A -> M B) : M B :=
  fun w =>
    match c w with
    | (Ok a, w') => k a w'
    | (Raise e, w') => (Raise e, w')
    end.

(** [try: body / except Exception as e: handler e]. *)
Definition try_except {A} (body : M A) (handler : PyExc -> M A) : M A :=
  fun w =>
    match body w with
    | (Ok a, w') => (Ok a, w')
    | (Raise e, w') => handler e w'
    end.

(** A call without effects inside a computation. *)
Definition lift {A} (r : result A) : M A := fun w => (r, w).

(** [print(line)]. *)
Definition print (line : string) : M unit :=
  fun w => (Ok tt, mkWorld (random_state w) (provider_calls w) (stdout w ++ [line])).

(** [random.seed(a)]. *)
Definition random_seed (a : Z) : M unit :=
  fun w => (Ok tt, mkWorld (seed_state a) (provider_calls w) (stdout w)).

(** [random.choice([True, False])]. *)
Definition random_choice_bool : M bool :=
  fun w =>
    let (b, st) := choice_bool (random_state w) in
    (Ok b, mkWorld st (provider_calls w) (stdout w)).

End Effects.

Declare Scope py_scope.
Delimit Scope py_scope with py.

Notation "x <- c ;; k" := (bind c (fun x => k))
  (at level 61, c at next level, right associativity) : py_scope.
Notation "c ;;; k" := (bind c (fun _ => k))
  (at level 61, right associativity) : py_scope.

End Py.

(** ** The judge: [judge.py] and the structured call of [providers.py] *)

Module Judge.

Import Py.
Local Open Scope string_scope.
Local Open Scope Z_scope.

(** *** Data model *)

(** [CriteriaScores]: five integer fields, each declared with
    [Field(ge=60, le=95)]. *)
Record CriteriaScores : Type := mkCriteriaScores {
  accuracy_completeness : Z;
  structured_data_utilization : Z;
  precision_specificity : Z;
  logical_flow_organization : Z;
  contextual_understanding : Z
}.

(** [StructuredJudgment], the answer asked of the judge model. *)
Record StructuredJudgment : Type := mkStructuredJudgment {
  sj_winner : string;                    (* Literal["A", "B", "TIE"] *)
  response_a_scores : CriteriaScores;
  response_b_scores : CriteriaScores;
  response_a_overall : Z;                (* ge=60, le=95 *)
  response_b_overall : Z;                (* ge=60, le=95 *)
  sj_confidence : Z;                     (* ge=50, le=100 *)
  sj_reasoning : string;                 (* min_length=50 *)
  main_advantages : list string          (* max_items=3 *)
}.

Definition in_range (lo hi x : Z) : bool := (lo <=? x) && (x <=? hi).

(** The constraints the fields of [CriteriaScores] declare. *)
Definition CriteriaScores_valid (c : CriteriaScores) : bool :=
  in_range 60 95 (accuracy_completeness c)
  && in_range 60 95 (structured_data_utilization c)
  && in_range 60 95 (precision_specificity c)
  && in_range 60 95 (logical_flow_organization c)
  && in_range 60 95 (contextual_understanding c).

(** The constraints the fields of [StructuredJudgment] declare; the
    validation of the model class accepts exactly the data that meets them. *)
Definition StructuredJudgment_valid (s : StructuredJudgment) : bool :=
  (String.eqb (sj_winner s) "A" || String.eqb (sj_winner s) "B"
   || String.eqb (sj_winner s) "TIE")
  && CriteriaScores_valid (response_a_scores s)
  && CriteriaScores_valid (response_b_scores s)
  && in_range 60 95 (response_a_overall s)
  && in_range 60 95 (response_b_overall s)
  && in_range 50 100 (sj_confidence s)
  && (50 <=? Z.of_nat (String.length (sj_reasoning s)))
  && (len (main_advantages s) <=? 3).

(** [JudgmentResult]. *)
Record JudgmentResult : Type := mkJudgmentResult {
  test_case_name : string;
  winner : string;
  confidence : Q;
  raw_text_score : Q;
  vibexml_score : Q;
  reasoning : string;
  criteria_scores : dict (dict Q)
}.

(** *** The judge model behind [PydanticAIProvider]

    What one request to the model ends with: the data of the model's
    answer, which the agent validates against the model class, or an
    exception (the request failed, the service was unavailable).  An
    answer that cannot be read as a judgment at all is an answer that
    fails validation: any data that is not valid stands for it. *)
Inductive AgentOutcome : Type :=
| ModelAnswer (data : StructuredJudgment)
| AgentRaises (e : PyExc).

(** [PydanticAIProvider]: its model, as the outcome of each request
    (numbered from 0) made in a run on a prompt. *)
Record PydanticAIProvider : Type := mkProvider {
  model_name : string;
  agent_run : nat -> string -> AgentOutcome
}.

(** [LLMJudge]. *)
Record LLMJudge : Type := mkLLMJudge {
  judge_provider : PydanticAIProvider
}.

(** One run of the structured agent from the request numbered [n] on:
    what it ends with and the number of requests it makes.  The agent
    is built with the default of one retry: an answer that passes
    validation ends the run, and so does an exception of a request; an
    answer that fails validation is sent back to the model with the
    errors, in one more request, and the run raises when the second
    answer fails too. *)
Definition agent_requests (self : PydanticAIProvider) (n : nat)
  (prompt : string) : result StructuredJudgment * nat :=
  match agent_run self n prompt with
  | ModelAnswer data =>
      if StructuredJudgment_valid data then (Ok data, 1%nat)
      else
        match agent_run self (S n) prompt with
        | ModelAnswer retried =>
            if StructuredJudgment_valid retried then (Ok retried, 2%nat)
            else (Raise (Exception
                    "Exceeded maximum retries (1) for result validation"),
                  2%nat)
        | AgentRaises e => (Raise e, 2%nat)
        end
  | AgentRaises e => (Raise e, 1%nat)
  end.

Section WithRandom.

Context {RM : RandomModule}.

Local Open Scope py_scope.

(** [structured_agent.run(prompt)] with [result_type=StructuredJudgment]:
    the requests of the run are made, and counted. *)
Definition structured_agent_run (self : PydanticAIProvider) (prompt : string)
  : M StructuredJudgment :=
  fun w =>
    let (outcome, requests) := agent_requests self (provider_calls w) prompt in
    (outcome,
     mkWorld (random_state w) (requests + provider_calls w) (stdout w)).

(** [PydanticAIProvider.generate_structured_response]. *)
Definition generate_structured_response (self : PydanticAIProvider)
  (prompt : string) : M StructuredJudgment :=
  try_except
    (structured_agent_run self prompt)
    (fun e => raise (Exception
       ("Structured response generation failed: " ++ exc_str e))).

(** [LLMJudge.__init__]. *)
Definition LLMJudge_init (judge_provider : PydanticAIProvider)
  (random_seed : option Z) : M LLMJudge :=
  match random_seed with
  | Some a => Py.random_seed a ;;; ret (mkLLMJudge judge_provider)
  | None => ret (mkLLMJudge judge_provider)
  end.

(** The text of the prompt, given the two bodies in the order shown. *)
Definition prompt_text (test_case_name task : string)
  (expected_advantages : list string)
  (response_a_label response_a response_b_label response_b : string) : string :=
  join nl [
    "You are an expert evaluator assessing AI response quality. Compare two responses to the same task and determine which demonstrates better understanding and utilization of the provided information.";
    "";
    "EVALUATION CONTEXT: Test case " ++ dq ++ test_case_name ++ dq;
    "TASK: " ++ task;
    "";
    "KEY EVALUATION FACTORS:";
    join nl (map (fun adv => "- " ++ adv) expected_advantages);
    "";
    response_a_label ++ ":";
    response_a;
    "";
    response_b_label ++ ":";
    response_b;
    "";
    "EVALUATION CRITERIA:";
    "Score both responses on each criterion (60-95 scale):";
    "";
    "1. **Accuracy & Completeness**: How well each addresses all aspects of the task";
    "2. **Structured Data Utilization**: How well each demonstrates understanding of complex relationships";
    "3. **Precision & Specificity**: Which references specific values/parameters more effectively  ";
    "4. **Logical Flow & Organization**: Which is better organized with clearer reasoning";
    "5. **Contextual Understanding**: Which shows better awareness of interconnected contexts";
    "";
    "SCORING GUIDANCE:";
    "- Use realistic score ranges (most scores 70-90, exceptional cases can go 60-69 or 91-95)";
    "- Focus on concrete, observable differences between responses";
    "- Confidence should reflect how clear the differences are (50-100)";
    "- Provide specific examples from the responses in your reasoning";
    "";
    "Your response will be validated for proper structure and scoring ranges."
  ].

(** [LLMJudge.create_judgment_prompt]: one draw decides which response
    is shown as Response A. *)
Definition create_judgment_prompt (self : LLMJudge)
  (test_case_name task : string) (expected_advantages : list string)
  (raw_text_response vibexml_response : string) : M (string * bool) :=
  raw_text_is_a <- random_choice_bool ;;
  let '(response_a, response_b, response_a_label, response_b_label) :=
    if raw_text_is_a : bool
    then (raw_text_response, vibexml_response, "Response A", "Response B")
    else (vibexml_response, raw_text_response, "Response A", "Response B") in
  let prompt :=
    prompt_text test_case_name task expected_advantages
      response_a_label response_a response_b_label response_b in
  ret (prompt, raw_text_is_a).

(** The two tables of [judge_responses]. *)
Definition winner_map (raw_text_is_a : bool) : dict string :=
  if raw_text_is_a
  then [("A", "raw_text"); ("B", "vibexml"); ("TIE", "tie")]
  else [("A", "vibexml"); ("B", "raw_text"); ("TIE", "tie")].

(** The body of the [try] of [judge_responses] once the structured
    judgment is there: the mapping of the winner and of the scores back
    to the two formats, by the assignment that was drawn. *)
Definition map_judgment (test_case_name : string) (raw_text_is_a : bool)
  (structured_judgment : StructuredJudgment) : result JudgmentResult :=
  let '(raw_text_score, vibexml_score, raw_text_criteria, vibexml_criteria) :=
    if raw_text_is_a
    then (response_a_overall structured_judgment,
          response_b_overall structured_judgment,
          response_a_scores structured_judgment,
          response_b_scores structured_judgment)
    else (response_b_overall structured_judgment,
          response_a_overall structured_judgment,
          response_b_scores structured_judgment,
          response_a_scores structured_judgment) in
  rbind (dict_getitem (winner_map raw_text_is_a) (sj_winner structured_judgment))
    (fun winner =>
  let criteria_scores : dict (dict Q) := [
    ("accuracy_completeness",
      [("raw_text", inject_Z (accuracy_completeness raw_text_criteria));
       ("vibexml", inject_Z (accuracy_completeness vibexml_criteria))]);
    ("structured_data_utilization",
      [("raw_text", inject_Z (structured_data_utilization raw_text_criteria));
       ("vibexml", inject_Z (structured_data_utilization vibexml_criteria))]);
    ("precision_specificity",
      [("raw_text", inject_Z (precision_specificity raw_text_criteria));
       ("vibexml", inject_Z (precision_specificity vibexml_criteria))]);
    ("logical_flow_organization",
      [("raw_text", inject_Z (logical_flow_organization raw_text_criteria));
       ("vibexml", inject_Z (logical_flow_organization vibexml_criteria))]);
    ("contextual_understanding",
      [("raw_text", inject_Z (contextual_understanding raw_text_criteria));
       ("vibexml", inject_Z (contextual_understanding vibexml_criteria))])
  ] in
  Ok (mkJudgmentResult
        test_case_name
        winner
        (inject_Z (sj_confidence structured_judgment))
        (inject_Z raw_text_score)
        (inject_Z vibexml_score)
        (sj_reasoning structured_judgment)
        criteria_scores)).

(** [LLMJudge._fallback_judgment]. *)
Definition _fallback_judgment (self : LLMJudge)
  (test_case_name raw_text_response vibexml_response : string) : JudgmentResult :=
  let raw_text_score :=
    py_min (inject_Z (len (split raw_text_response)) / 10 * 5)%Q 100%Q in
  let vibexml_score :=
    py_min (inject_Z (len (split vibexml_response)) / 10 * 5)%Q 100%Q in
  let winner :=
    if Qltb (Qabs (raw_text_score - vibexml_score)) 5%Q then "tie"
    else if Qltb vibexml_score raw_text_score then "raw_text" else "vibexml" in
  mkJudgmentResult
    test_case_name
    winner
    50%Q
    raw_text_score
    vibexml_score
    "Fallback judgment due to parsing error"
    [("fallback", [("raw_text", raw_text_score); ("vibexml", vibexml_score)])].

(** [LLMJudge.judge_responses]. *)
Definition judge_responses (self : LLMJudge)
  (test_case_name task : string) (expected_advantages : list string)
  (raw_text_response vibexml_response : string) : M JudgmentResult :=
  pa <- create_judgment_prompt self test_case_name task expected_advantages
          raw_text_response vibexml_response ;;
  let '(judgment_prompt, raw_text_is_a) := pa in
  print ("    Judging responses for " ++ test_case_name ++ "...") ;;;
  try_except
    (structured_judgment <-
       generate_structured_response (judge_provider self) judgment_prompt ;;
     lift (map_judgment test_case_name raw_text_is_a structured_judgment))
    (fun e =>
       print ("    Warning: Structured judgment failed for "
              ++ test_case_name ++ ": " ++ exc_str e) ;;;
       print "    Falling back to simple heuristic..." ;;;
       ret (_fallback_judgment self test_case_name
              raw_text_response vibexml_response)).

(** One entry of the run: what [judge_responses] is called with. *)
Record Scenario : Type := mkScenario {
  sc_name : string;
  sc_task : string;
  sc_expected_advantages : list string;
  sc_raw_text_response : string;
  sc_vibexml_response : string
}.

Definition judge_scenario (self : LLMJudge) (sc : Scenario) : M JudgmentResult :=
  judge_responses self (sc_name sc) (sc_task sc) (sc_expected_advantages sc)
    (sc_raw_text_response sc) (sc_vibexml_response sc).

(** The judging loop of [LLMLEvaluator.run_evaluation]: the scenarios
    are judged one after the other, in order. *)
Fixpoint judge_all (self : LLMJudge) (scenarios : list Scenario)
  : M (list JudgmentResult) :=
  match scenarios with
  | [] => ret []
  | sc :: rest =>
      judgment <- judge_scenario self sc ;;
      judgments <- judge_all self rest ;;
      ret (judgment :: judgments)
  end.

(** The assignments of a run, observed: for each scenario in turn, the
    boolean that the [create_judgment_prompt] call of its
    [judge_responses] returns in the world the call starts in. *)
Fixpoint assignments_of_run (self : LLMJudge) (scenarios : list Scenario)
  (w : World) : list bool :=
  match scenarios with
  | [] => []
  | sc :: rest =>
      match create_judgment_prompt self (sc_name sc) (sc_task sc)
              (sc_expected_advantages sc) (sc_raw_text_response sc)
              (sc_vibexml_response sc) w with
      | (Ok (_, raw_text_is_a), _) =>
          raw_text_is_a
            :: assignments_of_run self rest (snd (judge_scenario self sc w))
      | (Raise _, _) => []
      end
  end.

(** A run from the construction of the judge on, and what it draws. *)
Definition assignments_of_seeded_run (judge_provider : PydanticAIProvider)
  (random_seed : option Z) (scenarios : list Scenario) (w : World) : list bool :=
  match LLMJudge_init judge_provider random_seed w with
  | (Ok self, w') => assignments_of_run self scenarios w'
  | (Raise _, _) => []
  end.

(** The first [n] draws of [random.choice([True, False])] from a state. *)
Fixpoint draws (n : nat) (st : rng_state) : list bool :=
  match n with
  | O => []
  | S n' => let (b, st') := choice_bool st in b :: draws n' st'
  end.

End WithRandom.

(** The reverse reading of a table of [judge_responses]: from the label
    of a format back to the label the judge saw. *)
Definition dict_invert (d : dict string) : dict string :=
  map (fun kv => (snd kv, fst kv)) d.

Definition rerandomize (raw_text_is_a : bool) (label : string) : result string :=
  dict_getitem (dict_invert (winner_map raw_text_is_a)) label.

(** The five criteria, each with the field that holds it. *)
Definition criteria_fields : list (string * (CriteriaScores -> Z)) :=
  [("accuracy_completeness", accuracy_completeness);
   ("structured_data_utilization", structured_data_utilization);
   ("precision_specificity", precision_specificity);
   ("logical_flow_organization", logical_flow_organization);
   ("contextual_understanding", contextual_understanding)].

(** What the documentation of [JudgmentResult] promises of a result: its
    winner is one of the three labels, and every criterion holds a score
    for each format. *)
Definition well_formed (j : JudgmentResult) : Prop :=
  In (winner j) ["raw_text"; "vibexml"; "tie"]
  /\ Forall (fun kv => dict_mem (snd kv) "raw_text" = true
                      /\ dict_mem (snd kv) "vibexml" = true)
       (criteria_scores j).

(** *** [JudgmentAnalyzer] *)

(** [StructuredTestCase] of [test_cases.py], without its [data] field
    (a nested dictionary that the analysis never reads). *)
Record StructuredTestCase : Type := mkStructuredTestCase {
  name : string;
  description : string;
  task : string;
  category : string;
  why_structure_helps : string;
  expected_advantages : list string
}.

Record Summary : Type := mkSummary {
  total_tests : Z;
  vibexml_wins : Z;
  raw_text_wins : Z;
  ties : Z;
  vibexml_win_rate : Q;
  raw_text_win_rate : Q
}.

Record AverageScores : Type := mkAverageScores {
  avg_raw_text : Q;
  avg_vibexml : Q;
  avg_vibexml_advantage : Q;
  average_confidence : Q
}.

Record CriterionAnalysis : Type := mkCriterionAnalysis {
  raw_text_avg : Q;
  vibexml_avg : Q;
  crit_vibexml_advantage : Q
}.

Record CategoryAnalysis : Type := mkCategoryAnalysis {
  cat_total_tests : Z;
  cat_vibexml_wins : Z;
  cat_raw_text_wins : Z;
  cat_ties : Z;
  cat_vibexml_win_rate : Q;
  cat_raw_text_win_rate : Q;
  cat_avg_raw_text_score : Q;
  cat_avg_vibexml_score : Q;
  cat_vibexml_advantage : Q;
  cat_test_cases : list string
}.

Record DetailedResult : Type := mkDetailedResult {
  dr_test_case : string;
  dr_winner : string;
  dr_confidence : Q;
  score_difference : Q;
  dr_reasoning : string
}.

Record Analysis : Type := mkAnalysis {
  summary : Summary;
  average_scores : AverageScores;
  criteria_analysis : dict CriterionAnalysis;
  category_analysis : dict CategoryAnalysis;
  detailed_results : list DetailedResult
}.

Section Analyzer.

Local Open Scope res_scope.
Local Open Scope Q_scope.

Definition wins_of (label : string) (judgments : list JudgmentResult) : Z :=
  count (fun j => String.eqb (winner j) label) judgments.

(** [[j.criteria_scores[criterion][side] for j in judgments
      if criterion in j.criteria_scores]]. *)
Definition criterion_scores (criterion side : string)
  (judgments : list JudgmentResult) : result (list Q) :=
  traverse
    (fun j => d <- dict_getitem (criteria_scores j) criterion ;;
              dict_getitem d side)
    (filter (fun j => dict_mem (criteria_scores j) criterion) judgments).

(** One turn of the loop over the criteria of the first judgment. *)
Definition analyze_criterion (judgments : list JudgmentResult)
  (acc : result (dict CriterionAnalysis)) (criterion : string)
  : result (dict CriterionAnalysis) :=
  criteria_analysis <- acc ;;
  raw_scores <- criterion_scores criterion "raw_text" judgments ;;
  vibexml_scores <- criterion_scores criterion "vibexml" judgments ;;
  match raw_scores, vibexml_scores with
  | _ :: _, _ :: _ =>
      raw_text_avg <- truediv (qsum raw_scores) (inject_Z (len raw_scores)) ;;
      vibexml_avg <- truediv (qsum vibexml_scores) (inject_Z (len vibexml_scores)) ;;
      Ok (dict_setitem criteria_analysis criterion
            (mkCriterionAnalysis raw_text_avg vibexml_avg
               (vibexml_avg - raw_text_avg)))
  | _, _ => Ok criteria_analysis
  end.

Definition analyze_criteria (judgments : list JudgmentResult)
  : result (dict CriterionAnalysis) :=
  match judgments with
  | first :: _ =>
      fold_left (analyze_criterion judgments)
        (dict_keys (criteria_scores first)) (Ok [])
  | [] => Ok []
  end.

(** The grouping of the judgments by the category of their test case. *)
Definition group_by_category (case_categories : dict string)
  (judgments : list JudgmentResult) : dict (list JudgmentResult) :=
  fold_left
    (fun categories judgment =>
       let category :=
         dict_get case_categories (test_case_name judgment) "unknown"%string in
       let categories :=
         if dict_mem categories category then categories
         else dict_setitem categories category [] in
       dict_setitem categories category
         (dict_get categories category [] ++ [judgment])%list)
    judgments [].

(** One turn of the loop over the categories. *)
Definition analyze_category (acc : result (dict CategoryAnalysis))
  (item : string * list JudgmentResult) : result (dict CategoryAnalysis) :=
  category_analysis <- acc ;;
  let '(category, cat_judgments) := item in
  match cat_judgments with
  | [] => Ok category_analysis
  | _ :: _ =>
      let cat_total := len cat_judgments in
      let cat_vibexml_wins := wins_of "vibexml" cat_judgments in
      let cat_raw_text_wins := wins_of "raw_text" cat_judgments in
      let cat_ties := wins_of "tie" cat_judgments in
      cat_avg_raw <-
        truediv (qsum (map raw_text_score cat_judgments)) (inject_Z cat_total) ;;
      cat_avg_vibexml <-
        truediv (qsum (map vibexml_score cat_judgments)) (inject_Z cat_total) ;;
      vibexml_rate <- truediv (inject_Z cat_vibexml_wins) (inject_Z cat_total) ;;
      raw_text_rate <- truediv (inject_Z cat_raw_text_wins) (inject_Z cat_total) ;;
      Ok (dict_setitem category_analysis category
            (mkCategoryAnalysis cat_total cat_vibexml_wins cat_raw_text_wins
               cat_ties (vibexml_rate * 100) (raw_text_rate * 100)
               cat_avg_raw cat_avg_vibexml (cat_avg_vibexml - cat_avg_raw)
               (map test_case_name cat_judgments)))
  end.

Definition analyze_categories (judgments : list JudgmentResult)
  (test_cases : option (list StructuredTestCase)) : result (dict CategoryAnalysis) :=
  match test_cases with
  | None | Some [] => Ok []
  | Some tcs =>
      let case_categories :=
        fold_left (fun d tc => dict_setitem d (name tc) (category tc)) tcs [] in
      fold_left analyze_category
        (group_by_category case_categories judgments) (Ok [])
  end.

(** [JudgmentAnalyzer.analyze_judgments]. *)
Definition analyze_judgments (judgments : list JudgmentResult)
  (test_cases : option (list StructuredTestCase)) : result Analysis :=
  let total_tests := len judgments in
  let vibexml_wins := wins_of "vibexml" judgments in
  let raw_text_wins := wins_of "raw_text" judgments in
  let ties := wins_of "tie" judgments in
  avg_raw_text_score <-
    truediv (qsum (map raw_text_score judgments)) (inject_Z total_tests) ;;
  avg_vibexml_score <-
    truediv (qsum (map vibexml_score judgments)) (inject_Z total_tests) ;;
  avg_confidence <-
    truediv (qsum (map confidence judgments)) (inject_Z total_tests) ;;
  criteria_analysis <- analyze_criteria judgments ;;
  category_analysis <- analyze_categories judgments test_cases ;;
  vibexml_rate <- truediv (inject_Z vibexml_wins) (inject_Z total_tests) ;;
  raw_text_rate <- truediv (inject_Z raw_text_wins) (inject_Z total_tests) ;;
  Ok (mkAnalysis
        (mkSummary total_tests vibexml_wins raw_text_wins ties
           (vibexml_rate * 100) (raw_text_rate * 100))
        (mkAverageScores avg_raw_text_score avg_vibexml_score
           (avg_vibexml_score - avg_raw_text_score) avg_confidence)
        criteria_analysis
        category_analysis
        (map (fun j => mkDetailedResult (test_case_name j) (winner j)
                         (confidence j) (vibexml_score j - raw_text_score j)
                         (reasoning j))
             judgments)).

(** The tie line of [print_analysis]: [summary['ties'] /
    summary['total_tests'] * 100]. *)
Definition printed_tie_rate (s : Summary) : result Q :=
  r <- truediv (inject_Z (ties s)) (inject_Z (total_tests s)) ;;
  Ok (r * 100).

End Analyzer.

End Judge.

(** ** Statistics: [academic_enhancements.py] *)

Module Academic.

Import Py.
Local Open Scope string_scope.

(** *** numpy on [float64] *)

Local Open Scope float_scope.
#[local] Set Warnings "-inexact-float".

(** The conversion of a Python [int] to [float64]. *)
Definition of_int (z : Z) : float :=
  if (z <? 0)%Z then - PrimFloat.of_uint63 (Uint63.of_Z (- z))
  else PrimFloat.of_uint63 (Uint63.of_Z z).

(** numpy sums an array of floats pairwise (the function
    [pairwise_sum] of its [add] loop).  Below eight elements it adds
    them from the left.  Up to 128 elements it keeps eight running sums
    [r[0]] to [r[7]], the sum number [j] holding the elements at the
    places [j], [8 + j], [16 + j] and so on of the full blocks of eight,
    adds them up as [((r0 + r1) + (r2 + r3)) + ((r4 + r5) + (r6 + r7))],
    and then adds the elements of the last, incomplete block from the
    left.  A longer array is cut in two at a multiple of eight near its
    middle, and the sums of the two parts are added. *)

(** One more block of eight added to the eight running sums. *)
Definition add_block (r block : list float) : list float :=
  map (fun p => fst p + snd p) (combine r block).

(** [blocks] more blocks of eight: the running sums and what is left. *)
Fixpoint add_blocks (blocks : nat) (r a : list float)
  : list float * list float :=
  match blocks with
  | O => (r, a)
  | S blocks' => add_blocks blocks' (add_block r (firstn 8 a)) (skipn 8 a)
  end.

(** The sum of 8 to 128 elements. *)
Definition sum_unrolled (a : list float) : float :=
  let n := List.length a in
  let '(r, rest) := add_blocks (n / 8 - 1) (firstn 8 a) (skipn 8 a) in
  let res :=
    ((nth 0 r 0 + nth 1 r 0) + (nth 2 r 0 + nth 3 r 0))
    + ((nth 4 r 0 + nth 5 r 0) + (nth 6 r 0 + nth 7 r 0)) in
  fold_left PrimFloat.add rest res.

(** [pairwise_sum]; the recursion halves the array, so that its length
    is more fuel than it needs ([pairwise_sum_fuel]). *)
Fixpoint pairwise_sum_rec (fuel : nat) (a : list float) : float :=
  let n := List.length a in
  if (n <? 8)%nat then fold_left PrimFloat.add a 0
  else if (n <=? 128)%nat then sum_unrolled a
  else
    match fuel with
    | O => 0
    | S fuel' =>
        let n2 := (n / 2 - (n / 2) mod 8)%nat in
        pairwise_sum_rec fuel' (firstn n2 a)
        + pairwise_sum_rec fuel' (skipn n2 a)
    end.

Definition pairwise_sum (a : list float) : float :=
  pairwise_sum_rec (List.length a) a.

(** [np.add.reduce] of a one-dimensional array of floats: the pairwise
    sum, added to the identity 0 of the reduction.  (Only the sign of a
    zero sum depends on the zero that the reduction and the first loop
    of [pairwise_sum] start with, which has changed between versions of
    numpy; no property below depends on it.) *)
Definition np_sum (arr : list float) : float := 0 + pairwise_sum arr.

(** [np.mean(arr)]: of an empty list it is [0 / 0], a [nan]. *)
Definition np_mean (arr : list float) : float :=
  np_sum arr / of_int (len arr).

(** [np.std(arr, ddof=1)]: the squared deviations from the mean are
    summed and divided by [max(n - ddof, 0)]; with one element that is
    [0 / 0]. *)
Definition np_std (arr : list float) (ddof : Z) : float :=
  let arrmean := np_sum arr / of_int (len arr) in
  let x := map (fun a => a - arrmean) arr in
  let x := map (fun d => d * d) x in
  let rcount := Z.max (len arr - ddof) 0 in
  PrimFloat.sqrt (np_sum x / of_int rcount).

(** The heuristic score of [judge._fallback_judgment] for a text of
    [word_count] words, as Python evaluates it on binary64 numbers. *)
Definition fallback_score_binary64 (word_count : Z) : float :=
  let x := of_int word_count / 10 * 5 in
  if 100 <? x then 100 else x.

(** The winner of [judge._fallback_judgment] for two texts of [n1] and
    [n2] words, as Python decides it on binary64 numbers. *)
Definition fallback_winner_binary64 (n1 n2 : Z) : string :=
  let raw_text_score := fallback_score_binary64 n1 in
  let vibexml_score := fallback_score_binary64 n2 in
  if PrimFloat.abs (raw_text_score - vibexml_score) <? 5 then "tie"
  else if vibexml_score <? raw_text_score then "raw_text" else "vibexml".

(** The binary64 number nearest to a rational whose numerator and
    denominator are below [2^53]. *)
Definition float_of_Q (q : Q) : float :=
  of_int (Qnum q) / of_int (Zpos (Qden q)).

(** [np.isnan]. *)
Definition np_isnan (x : float) : bool := PrimFloat.is_nan x.

(** *** [StatisticalAnalyzer] *)

Record EffectSize : Type := mkEffectSize {
  cohens_d : float;
  effect_size_interpretation : string;
  mean_difference : float;
  pooled_std : float
}.

(** [StatisticalAnalyzer._interpret_effect_size]. *)
Definition _interpret_effect_size (d : float) : string :=
  let abs_d := PrimFloat.abs d in
  if abs_d <? 0.2 then "negligible"
  else if abs_d <? 0.5 then "small"
  else if abs_d <? 0.8 then "medium"
  else "large".

(** The divisor of the pooled variance, [len(group1) + len(group2) - 2]. *)
Definition pooled_divisor (group1 group2 : list float) : Z :=
  len group1 + len group2 - 2.

(** What the C standard (Annex F) fixes of [pow(x, 2)], the function
    by which numpy raises a [float64] to the power 2: the square of a
    zero is the positive zero, that of an infinity the positive
    infinity, and that of a [nan] a [nan].  For other arguments the
    result is that of the C library in use, close to the square but not
    always its rounding. *)
Definition C_pow (pow : float -> float -> float) : Prop :=
  pow 0 2 = 0
  /\ pow (-0) 2 = 0
  /\ pow infinity 2 = infinity
  /\ pow neg_infinity 2 = infinity
  /\ pow nan 2 = nan.


Section EffectSize.

(** [x ** y] of two [float64]: the function [pow] of the C library. *)
Variable pow : float -> float -> float.

(** [StatisticalAnalyzer.calculate_effect_size]. *)
Definition calculate_effect_size (group1 group2 : list float) : EffectSize :=
  let mean1 := np_mean group1 in
  let mean2 := np_mean group2 in
  let std1 := np_std group1 1 in
  let std2 := np_std group2 1 in
  let pooled_std :=
    PrimFloat.sqrt
      ((of_int (len group1 - 1) * pow std1 2
        + of_int (len group2 - 1) * pow std2 2)
       / of_int (pooled_divisor group1 group2)) in
  let cohens_d :=
    if pooled_std =? 0 then 0
    else (mean2 - mean1) / pooled_std in
  mkEffectSize cohens_d (_interpret_effect_size cohens_d)
    (mean2 - mean1) pooled_std.

End EffectSize.

(** *** [MultiJudgeValidator] *)

(** A two-dimensional [np.ndarray] of scores: its shape and its rows. *)
Record ndarray2 : Type := mkNdarray2 {
  shape0 : nat;                 (* n_cases *)
  shape1 : nat;                 (* n_judges *)
  rows : list (list float)
}.

(** [m[:, i]]. *)
Definition column (m : ndarray2) (i : nat) : list float :=
  map (fun row => nth i row 0) (rows m).

Record Reliability : Type := mkReliability {
  average_pairwise_correlation : float;
  reliability_interpretation : string;
  individual_correlations : list float;
  n_judges : nat;
  n_cases : nat
}.

(** [MultiJudgeValidator._interpret_reliability]. *)
Definition _interpret_reliability (correlation : float) : string :=
  if 0.9 <=? correlation then "excellent"
  else if 0.8 <=? correlation then "good"
  else if 0.7 <=? correlation then "acceptable"
  else if 0.6 <=? correlation then "questionable"
  else "poor".

(** The pairs [(i, j)] with [i < j < n], in the order of the two loops. *)
Definition judge_pairs (n : nat) : list (nat * nat) :=
  flat_map (fun i => map (fun j => (i, j)) (seq (S i) (n - S i))) (seq 0 n).

Section Reliability.

(** [scipy.stats.pearsonr], of which the first component is kept: it
    returns a coefficient (possibly [nan]) or raises. *)
Variable pearsonr : list float -> list float -> result float.

Local Open Scope res_scope.

(** [MultiJudgeValidator.calculate_inter_rater_reliability]. *)
Definition calculate_inter_rater_reliability (judgments_matrix : ndarray2)
  : result Reliability :=
  let n_judges := shape1 judgments_matrix in
  correlations <-
    fold_left
      (fun acc ij =>
         correlations <- acc ;;
         corr <- pearsonr (column judgments_matrix (fst ij))
                          (column judgments_matrix (snd ij)) ;;
         Ok (if negb (np_isnan corr) then (correlations ++ [corr])%list
             else correlations))
      (judge_pairs n_judges) (Ok []) ;;
  let avg_correlation :=
    match correlations with
    | [] => 0
    | _ => np_mean correlations
    end in
  Ok (mkReliability avg_correlation (_interpret_reliability avg_correlation)
        correlations n_judges (shape0 judgments_matrix)).

End Reliability.

(** *** [StatisticalAnalysisReporter]: the categorical outcomes *)

Section Categorical.

Import Judge.
Local Open Scope Q_scope.
Local Open Scope res_scope.

(** The binomial coefficient. *)
Fixpoint choose (n k : nat) : nat :=
  match n, k with
  | _, O => 1%nat
  | O, S _ => 0%nat
  | S n', S k' => (choose n' k' + choose n' k)%nat
  end.

(** The probability of [i] successes in [n] trials of probability [p]. *)
Definition binom_pmf (n : nat) (p : Q) (i : nat) : Q :=
  inject_Z (Z.of_nat (choose n i)) * p ^ (Z.of_nat i)
  * (1 - p) ^ (Z.of_nat (n - i)).

(** The cumulative probability of at most [k] successes. *)
Definition binom_cdf (n : nat) (p : Q) (k : nat) : Q :=
  qsum (map (binom_pmf n p) (seq 0 (S k))).

(** [scipy.stats.binomtest(k, n, p).pvalue], two-sided as by default: the
    total probability of the outcomes that are no more likely than [k],
    up to the relative tolerance [1e-7] that scipy allows, and at most 1. *)
Definition binomtest_pvalue (k n : nat) (p : Q) : Q :=
  let d := binom_pmf n p k in
  let rerr := 1 + 1 / 10000000 in
  py_min 1
    (qsum (filter (fun x => Qle_bool x (d * rerr))
             (map (binom_pmf n p) (seq 0 (S n))))).

Record BinomialTest : Type := mkBinomialTest {
  p_value : Q;
  statistically_significant : bool;
  null_hypothesis : string
}.

Record CategoricalOutcomes : Type := mkCategoricalOutcomes {
  vibexml_wins : Z;
  raw_text_wins : Z;
  ties : Z;
  total_cases : Z;
  vibexml_win_rate : Q;
  raw_text_win_rate : Q;
  tie_rate : Q;
  binomial_test : BinomialTest
}.

(** [generate_statistical_summary], its win rate analysis: the counts
    of lines 153 to 156 and the ["categorical_outcomes"] entry of the
    summary it returns. *)
Definition categorical_outcomes (judgments : list JudgmentResult)
  : result CategoricalOutcomes :=
  let vibexml_wins := wins_of "vibexml" judgments in
  let raw_text_wins := wins_of "raw_text" judgments in
  let ties := wins_of "tie" judgments in
  let total_cases := len judgments in
  vibexml_win_rate <- truediv (inject_Z vibexml_wins) (inject_Z total_cases) ;;
  raw_text_win_rate <- truediv (inject_Z raw_text_wins) (inject_Z total_cases) ;;
  tie_rate <- truediv (inject_Z ties) (inject_Z total_cases) ;;
  let pvalue :=
    binomtest_pvalue (Z.to_nat vibexml_wins) (Z.to_nat total_cases) (1 # 2) in
  Ok (mkCategoricalOutcomes vibexml_wins raw_text_wins ties total_cases
        vibexml_win_rate raw_text_win_rate tie_rate
        (mkBinomialTest pvalue (Qltb pvalue (5 # 100))
           "Equal probability of winning (p = 0.5)")).

End Categorical.

End Academic.

(** ** Data of the examples *)

Module Examples.

Import Py Judge.
Local Open Scope string_scope.
Local Open Scope Z_scope.



(** The rounded product in the place of [pow(x, 2)], to evaluate the
    effect size on concrete samples. *)
Definition product_pow (x y : float) : float := (x * x)%float.

#[local] Set Warnings "-inexact-float".



#[local] Set Warnings "+inexact-float".

(** A linear congruential generator in the place of the [random]
    module, to run the pipeline on concrete worlds. *)
Definition lcg_next (x : Z) : Z := (1103515245 * x + 12345) mod 2147483648.

Definition lcg : RandomModule := {|
  rng_state := Z;
  seed_state := fun a => Z.abs a mod 2147483648;
  choice_bool := fun x => (negb (Z.testbit (lcg_next x) 30), lcg_next x)
|}.

Definition world0 : World (RM := lcg) := mkWorld (RM := lcg) 7 0 [].

Definition scores_a : CriteriaScores := mkCriteriaScores 72 70 75 78 71.
Definition scores_b : CriteriaScores := mkCriteriaScores 88 91 85 84 90.

(** An answer of the judge model that meets every declared constraint. *)
Definition good_answer : StructuredJudgment :=
  mkStructuredJudgment "B" scores_a scores_b 73 88 85
    "Response B cites the exact thresholds and follows the dependency order."
    ["cites exact thresholds"; "keeps the dependency order"].

(** An answer with an overall score out of range. *)
Definition bad_answer : StructuredJudgment :=
  mkStructuredJudgment "B" scores_a scores_b 73 99 85
    "Response B cites the exact thresholds and follows the dependency order."
    [].

Definition good_provider : PydanticAIProvider :=
  mkProvider "judge-model" (fun _ _ => ModelAnswer good_answer).

Definition bad_provider : PydanticAIProvider :=
  mkProvider "judge-model" (fun _ _ => ModelAnswer bad_answer).

Definition down_provider : PydanticAIProvider :=
  mkProvider "judge-model" (fun _ _ => AgentRaises (Exception "connection refused")).

Definition scenario1 : Scenario :=
  mkScenario "workflow" "Order the steps" ["keeps the dependency order"]
    "first build then test then deploy the service to the staging cluster now"
    "build test".

Definition scenario2 : Scenario :=
  mkScenario "config" "Find the port" [] "the port is 8080" "port 8080 is set".

(** A result with the given winner and overall scores, and one criterion. *)
Definition result_of (n w : string) (r v : Z) : JudgmentResult :=
  mkJudgmentResult n w 80 (inject_Z r) (inject_Z v) "as judged"
    [("accuracy_completeness", [("raw_text", inject_Z r); ("vibexml", inject_Z v)])].

(** Ten results: eight won by the structured format, one lost, one tied. *)
Definition ten_results : list JudgmentResult :=
  [result_of "t1" "vibexml" 70 85; result_of "t2" "vibexml" 72 88;
   result_of "t3" "vibexml" 75 90; result_of "t4" "vibexml" 71 80;
   result_of "t5" "vibexml" 70 82; result_of "t6" "vibexml" 74 86;
   result_of "t7" "vibexml" 73 89; result_of "t8" "vibexml" 76 91;
   result_of "t9" "raw_text" 85 70; result_of "t10" "tie" 80 80].

(** Four results: three won by the structured format, one tie. *)
Definition four_results : list JudgmentResult :=
  [result_of "s1" "vibexml" 70 85; result_of "s2" "vibexml" 72 88;
   result_of "s3" "vibexml" 75 90; result_of "s4" "tie" 80 80].

End Examples.

(** ** The orchestrator: [evaluator.py], [runner.py], the text call of
    [providers.py] and the selection of test cases of [run_evaluation.py]

    The banners that these files print hold characters above 255; they
    are written here as in the files, which makes of each such character
    the bytes of its UTF-8 encoding. *)

Module Evaluator.

Import Py Judge.
Local Open Scope string_scope.

(** *** More of the runtime *)

(** [str(z)] of an [int]. *)
Definition str_of_int (z : Z) : string := NilZero.string_of_int (Z.to_int z).

(** [len(s)] of a [str]. *)
Definition len_str (s : string) : Z := Z.of_nat (String.length s).

(** [s * n]. *)
Fixpoint str_mul (s : string) (n : nat) : string :=
  match n with
  | O => EmptyString
  | S n' => s ++ str_mul s n'
  end.

(** [s.replace(old, new)] where [old] and [new] are one character each. *)
Fixpoint replace (s : string) (old new : ascii) : string :=
  match s with
  | EmptyString => EmptyString
  | String c s' =>
      String (if Ascii.eqb c old then new else c) (replace s' old new)
  end.

(** [l[:n]]: a negative [n] counts from the end. *)
Definition slice_to {A} (l : list A) (n : Z) : list A :=
  if (n <? 0)%Z then firstn (Z.to_nat (Z.max 0 (len l + n))) l
  else firstn (Z.to_nat n) l.

(** [next(x for x in l if p(x))] inside a coroutine: the [StopIteration]
    of an exhausted generator reaches the caller as a [RuntimeError],
    which is an [Exception]. *)
Definition next_such {A} (p : A -> bool) (l : list A) : result A :=
  match find p l with
  | Some x => Ok x
  | None => Raise (Exception "coroutine raised StopIteration")
  end.

(** *** [PromptFormatter.to_raw_text]

    A value of the data of a test case, as the formatter tells values
    apart: a [dict] with its items in order, a [list] with its items, or
    anything else.  A value that is not a [dict] comes with its text,
    what [str] returns for it; the keys of a [dict] are strings. *)
#[local] Set Warnings "-register-all".

Inductive Value : Type :=
| Other (text : string)
| Dict (items : list (string * Value))
| PyList (text : string) (items : list Value).

(** [f"{item}"] for an item that is not a [dict]. *)
Definition str_of_item (item : Value) : string :=
  match item with
  | Other text => text
  | PyList text _ => text
  | Dict _ => EmptyString
  end.

(** [filter(None, result)] on strings: the empty ones are dropped. *)
Definition filter_None (result : list string) : list string :=
  filter (fun s => negb (String.eqb s EmptyString)) result.

(** [format_dict_as_text] of [to_raw_text], called on a [dict]. *)
Fixpoint format_dict_as_text (data : Value) (indent : nat) : string :=
  let spaces := str_mul "  " indent in
  match data with
  | Dict items =>
      let result :=
        flat_map
          (fun kv =>
             match kv with
             | (key, value) =>
                 match value with
                 | Dict _ =>
                     [spaces ++ key ++ ":";
                      format_dict_as_text value (indent + 1)]
                 | PyList _ list_items =>
                     (spaces ++ key ++ ":")
                     :: (fix each (i : nat) (l : list Value) : list string :=
                           match l with
                           | [] => []
                           | item :: rest =>
                               List.app
                                 match item with
                                 | Dict _ =>
                                     [spaces ++ "  "
                                      ++ str_of_int (Z.of_nat i + 1) ++ ".";
                                      format_dict_as_text item (indent + 2)]
                                 | _ => [spaces ++ "  - " ++ str_of_item item]
                                 end
                                 (each (S i) rest)
                           end) 0%nat list_items
                 | Other text => [spaces ++ key ++ ": " ++ text]
                 end
             end)
          items in
      join nl (filter_None result)
  | _ => EmptyString
  end.

(** [PromptFormatter.to_raw_text]; [data] is [test_case.data], which
    the record of a test case leaves out. *)
Definition to_raw_text (test_case : StructuredTestCase)
  (data : list (string * Value)) : string :=
  let data_section := format_dict_as_text (Dict data) 0 in
  join nl [
    "Task: " ++ task test_case;
    EmptyString;
    "Data:";
    data_section;
    EmptyString;
    "Please analyze this information and provide a detailed response."
  ].


(** *** The response model

    What one run of the text agent ends with: the text of the model's
    answer, or an exception. *)
Inductive TextOutcome : Type :=
| TextAnswer (data : string)
| TextRaises (e : PyExc).

(** A [PydanticAIProvider] with its two agents: the structured one, as
    the judge knows it, and the text agent, as the outcome of its run at
    each call (numbered from 0) on each prompt. *)
Record Provider : Type := mkFullProvider {
  structured : PydanticAIProvider;
  text_run : nat -> string -> TextOutcome
}.

(** [ABTestResult]. *)
Record ABTestResult : Type := mkABTestResult {
  ab_test_case_name : string;
  raw_text_prompt : string;
  vibexml_prompt : string;
  raw_text_response : string;
  vibexml_response : string;
  raw_text_length : Z;
  vibexml_length : Z
}.

(** [ABTestRunner]. *)
Record ABTestRunner : Type := mkABTestRunner {
  ai_provider : Provider
}.

(** [LLMLEvaluator]. *)
Record LLMLEvaluator : Type := mkLLMLEvaluator {
  response_provider : Provider;
  ev_judge_provider : Provider;
  ab_runner : ABTestRunner;
  judge : LLMJudge
}.

Record Metadata : Type := mkMetadata {
  md_response_model : string;
  md_judge_model : string;
  test_cases_evaluated : list string;
  evaluation_timestamp : string
}.

(** The dictionary that [run_evaluation] returns. *)
Record EvaluationResults : Type := mkEvaluationResults {
  ab_results : list ABTestResult;
  judgments : list JudgmentResult;
  analysis : Analysis;
  metadata : Metadata
}.

Declare Scope eval_scope.
Delimit Scope eval_scope with eval.

Section WithRandom.

Context {RM : RandomModule}.

(** The world of a whole evaluation: that of the judge, and the number
    of calls made to the text agent of the response model so far. *)
Record EvalWorld : Type := mkEvalWorld {
  judge_world : World;
  response_calls : nat
}.

Definition E (A : Type) : Type := EvalWorld -> result A * EvalWorld.

Definition eret {A} (a : A) : E A := fun w => (Ok a, w).

Definition eraise {A} (e : PyExc) : E A := fun w => (Raise e, w).

Definition ebind {A B} (c : E A) (k : A -> E B) : E B :=
  fun w =>
    match c w with
    | (Ok a, w') => k a w'
    | (Raise e, w') => (Raise e, w')
    end.

(** [try: body / except Exception as e: handler e]. *)
Definition etry {A} (body : E A) (handler : PyExc -> E A) : E A :=
  fun w =>
    match body w with
    | (Ok a, w') => (Ok a, w')
    | (Raise e, w') => handler e w'
    end.

(** A call without effects. *)
Definition elift {A} (r : result A) : E A := fun w => (r, w).

(** A computation of the judge's side. *)
Definition of_judge {A} (c : M A) : E A :=
  fun w =>
    let (r, jw) := c (judge_world w) in
    (r, mkEvalWorld jw (response_calls w)).

(** [print(line)]. *)
Definition eprint (line : string) : E unit := of_judge (print line).

Local Notation "x <- c ;; k" := (ebind c (fun x => k))
  (at level 61, c at next level, right associativity) : eval_scope.
Local Notation "c ;;; k" := (ebind c (fun _ => k))
  (at level 61, right associativity) : eval_scope.

Local Open Scope eval_scope.

(** [self.agent.run(prompt)]: one more call to the response model. *)
Definition text_agent_run (self : Provider) (prompt : string) : E string :=
  fun w =>
    let w' := mkEvalWorld (judge_world w) (S (response_calls w)) in
    match text_run self (response_calls w) prompt with
    | TextAnswer data => (Ok data, w')
    | TextRaises e => (Raise e, w')
    end.

(** [PydanticAIProvider.generate_response]. *)
Definition generate_response (self : Provider) (prompt : string) : E string :=
  etry
    (text_agent_run self prompt)
    (fun e => eraise (Exception
       ("Response generation failed: " ++ exc_str e))).

(** [LLMLEvaluator.__init__]: a provider is an object without a truth
    value of its own, so that [judge_provider or response_provider] is
    the judge provider whenever one is given. *)
Definition LLMLEvaluator_init (response_provider : Provider)
  (judge_provider : option Provider) (random_seed : option Z)
  : E LLMLEvaluator :=
  let judge_provider :=
    match judge_provider with
    | Some p => p
    | None => response_provider
    end in
  let ab_runner := mkABTestRunner response_provider in
  judge <- of_judge (LLMJudge_init (structured judge_provider) random_seed) ;;
  eret (mkLLMLEvaluator response_provider judge_provider ab_runner judge).

Section Formatters.

(** [PromptFormatter.to_raw_text] and [PromptFormatter.to_vibexml]: the
    two prompts of a test case, made from its data (the second one by
    the [llml] function of the [zenbase_llml] package). *)
Variable to_raw_text : StructuredTestCase -> string.
Variable to_vibexml : StructuredTestCase -> string.

(** [ABTestRunner.run_single_test]. *)
Definition run_single_test (self : ABTestRunner)
  (test_case : StructuredTestCase) : E ABTestResult :=
  let raw_text_prompt := to_raw_text test_case in
  let vibexml_prompt := to_vibexml test_case in
  eprint ("  Testing: " ++ name test_case) ;;;
  eprint ("    Raw text prompt: " ++ str_of_int (len_str raw_text_prompt)
          ++ " chars") ;;;
  eprint ("    VibeXML prompt: " ++ str_of_int (len_str vibexml_prompt)
          ++ " chars") ;;;
  eprint "    Generating raw text response..." ;;;
  raw_text_response <- generate_response (ai_provider self) raw_text_prompt ;;
  eprint "    Generating VibeXML response..." ;;;
  vibexml_response <- generate_response (ai_provider self) vibexml_prompt ;;
  eret (mkABTestResult (name test_case) raw_text_prompt vibexml_prompt
          raw_text_response vibexml_response
          (len_str raw_text_prompt) (len_str vibexml_prompt)).

(** The loop of [run_all_tests]. *)
Fixpoint run_tests_loop (self : ABTestRunner)
  (test_cases : list StructuredTestCase) : E (list ABTestResult) :=
  match test_cases with
  | [] => eret []
  | test_case :: rest =>
      result <- run_single_test self test_case ;;
      eprint EmptyString ;;;
      results <- run_tests_loop self rest ;;
      eret (result :: results)
  end.

(** [ABTestRunner.run_all_tests]. *)
Definition run_all_tests (self : ABTestRunner)
  (test_cases : list StructuredTestCase) : E (list ABTestResult) :=
  eprint "ğŸ”¬ Running A/B Tests: Raw Text vs VibeXML" ;;;
  eprint ("ğŸ“Š " ++ str_of_int (len test_cases) ++ " test cases") ;;;
  eprint ("ğŸ¤– Using model: "
          ++ model_name (structured (ai_provider self))) ;;;
  eprint EmptyString ;;;
  run_tests_loop self test_cases.

(** The judging loop of [run_evaluation]. *)
Fixpoint judge_loop (self : LLMLEvaluator)
  (test_cases : list StructuredTestCase) (ab_results : list ABTestResult)
  : E (list JudgmentResult) :=
  match ab_results with
  | [] => eret []
  | ab_result :: rest =>
      test_case <-
        elift (next_such
                 (fun tc => String.eqb (name tc) (ab_test_case_name ab_result))
                 test_cases) ;;
      judgment <-
        of_judge (judge_responses (judge self)
                    (ab_test_case_name ab_result)
                    (task test_case)
                    (expected_advantages test_case)
                    (raw_text_response ab_result)
                    (vibexml_response ab_result)) ;;
      judgments <- judge_loop self test_cases rest ;;
      eret (judgment :: judgments)
  end.

(** What [datetime.now().isoformat()] returns when the results are put
    together. *)
Variable now_isoformat : string.

(** [LLMLEvaluator.run_evaluation]. *)
Definition run_evaluation (self : LLMLEvaluator)
  (test_cases : list StructuredTestCase) : E EvaluationResults :=
  eprint "ðŸ”¬ LLML EVALUATION: Structured vs Unstructured Data Formatting" ;;;
  eprint (str_mul "=" 70) ;;;
  eprint ("ðŸ“Š Test cases: " ++ str_of_int (len test_cases)) ;;;
  eprint ("ðŸ¤– Response model: "
          ++ model_name (structured (response_provider self))) ;;;
  eprint ("âš–ï¸  Judge model: "
          ++ model_name (structured (ev_judge_provider self))) ;;;
  eprint EmptyString ;;;
  eprint "ðŸ“‹ STEP 1: Generating responses with both formats..." ;;;
  ab_results <- run_all_tests (ab_runner self) test_cases ;;
  eprint "âœ… Response generation complete!" ;;;
  eprint EmptyString ;;;
  eprint "âš–ï¸  STEP 2: Judging response quality..." ;;;
  judgments <- judge_loop self test_cases ab_results ;;
  eprint "âœ… Judging complete!" ;;;
  eprint EmptyString ;;;
  eprint "ðŸ“Š STEP 3: Analyzing results..." ;;;
  analysis <- elift (analyze_judgments judgments (Some test_cases)) ;;
  let results :=
    mkEvaluationResults ab_results judgments analysis
      (mkMetadata
         (model_name (structured (response_provider self)))
         (model_name (structured (ev_judge_provider self)))
         (map name test_cases)
         now_isoformat) in
  eprint "âœ… Analysis complete!" ;;;
  eret results.

End Formatters.

End WithRandom.

(** *** [save_results]: the name of the file *)

(** The name under which [save_results] writes the results and which
    it returns: the one it is given, or one made of the two model names
    and of [timestamp], what [datetime.now().strftime] returns for
    ["%Y%m%d_%H%M%S"]. *)
Definition save_results_filename (results : EvaluationResults)
  (filename : option string) (timestamp : string) : string :=
  match filename with
  | Some filename => filename
  | None =>
      let response_model := md_response_model (metadata results) in
      let judge_model := md_judge_model (metadata results) in
      let safe_response :=
        replace (replace (replace response_model "/" "_") "-" "_") ":" "_" in
      let safe_judge :=
        replace (replace (replace judge_model "/" "_") "-" "_") ":" "_" in
      if String.eqb safe_response safe_judge
      then "llml_evaluation_" ++ safe_response ++ "_" ++ timestamp ++ ".json"
      else "llml_evaluation_" ++ safe_response ++ "_judge_" ++ safe_judge
           ++ "_" ++ timestamp ++ ".json"
  end.

(** *** [print_summary]: the final verdict *)

Inductive Verdict : Type :=
| VibexmlWins      (* "VibeXML (structured) wins!" *)
| RawTextWins      (* "Raw text (unstructured) wins!" *)
| NoWinner.        (* "Tie!" *)

(** The branch that the final verdict of [print_summary] takes. *)
Definition final_verdict (analysis : Analysis) : Verdict :=
  let vibexml_wins := inject_Z (vibexml_wins (summary analysis)) in
  let total_tests := inject_Z (total_tests (summary analysis)) in
  if Qltb (total_tests / 2) vibexml_wins then VibexmlWins
  else if Qltb vibexml_wins (total_tests / 2) then RawTextWins
  else NoWinner.

(** *** [run_evaluation.py]: the test cases of a run *)

(** The selection of the test cases in [main], from the arguments
    [--single] and [--cases]: [None] when the named test case is not
    found, upon which [main] returns. *)
Definition select_test_cases (single : option string) (cases : option Z)
  (all_test_cases : list StructuredTestCase)
  : option (list StructuredTestCase) :=
  let given_single :=
    match single with
    | Some s => negb (String.eqb s EmptyString)
    | None => false
    end in
  let given_cases :=
    match cases with
    | Some n => negb (n =? 0)%Z
    | None => false
    end in
  if given_single then
    let test_cases :=
      filter (fun tc => String.eqb (name tc)
                          (match single with Some s => s | None => EmptyString end))
        all_test_cases in
    match test_cases with
    | [] => None
    | _ => Some test_cases
    end
  else if given_cases then
    Some (slice_to all_test_cases
            (match cases with Some n => n | None => 0%Z end))
  else Some all_test_cases.

End Evaluator.


(** ** Readings of the results

    Functions in which the properties of the judge and of the analysis
    are stated: they are not part of the code. *)

Module Views.

Import Py Judge.
Local Open Scope string_scope.

(** The label of the other format. *)
Definition swap_label (label : string) : string :=
  if String.eqb label "raw_text" then "vibexml"
  else if String.eqb label "vibexml" then "raw_text"
  else label.

(** The two scores of a criterion, exchanged. *)
Definition swap_sides (d : dict Q) : dict Q :=
  [("raw_text", dict_get d "vibexml" 0%Q); ("vibexml", dict_get d "raw_text" 0%Q)].

(** A result read with the two formats exchanged. *)
Definition mirror (j : JudgmentResult) : JudgmentResult :=
  mkJudgmentResult
    (test_case_name j)
    (swap_label (winner j))
    (confidence j)
    (vibexml_score j)
    (raw_text_score j)
    (reasoning j)
    (map (fun kv => (fst kv, swap_sides (snd kv))) (criteria_scores j)).

(** The number of words of a text that counts for the fallback: at most 200. *)
Definition capped_words (s : string) : Z := Z.min (len (split s)) 200.

(** The arithmetic mean. *)
Definition mean (xs : list Q) : Q := (qsum xs / inject_Z (len xs))%Q.

(** A multiple of 0.5 between two integers.  The scores of the results
    of the judge are of this kind: integers from 60 to 95 from a
    validated judgment, half the capped number of words from the
    fallback. *)
Definition half_between (lo hi : Z) (x : Q) : Prop :=
  exists z : Z, (x == inject_Z z / 2)%Q /\ (2 * lo <= z <= 2 * hi)%Z.

(** Rounding to the nearest binary64 number, by the properties that the
    averages rest on: it is monotone, it returns the multiples of 0.5
    up to [2^52] unchanged, and its relative error is at most the unit
    roundoff. *)
Definition binary64_rounding (fl : Q -> Q) : Prop :=
  (forall x y : Q, (x <= y)%Q -> (fl x <= fl y)%Q)
  /\ (forall (x : Q) (z : Z),
        (x == inject_Z z / 2)%Q -> (Z.abs z <= 2 ^ 53)%Z -> (fl x == x)%Q)
  /\ (forall x : Q, (Qabs (fl x - x) <= unit_roundoff * Qabs x)%Q).

(** The scores of one side for a criterion, over the results that hold
    the criterion. *)
Definition scores_for (criterion side : string)
  (judgments : list JudgmentResult) : list Q :=
  map (fun j => dict_get (dict_get (criteria_scores j) criterion []) side 0%Q)
    (filter (fun j => dict_mem (criteria_scores j) criterion) judgments).

(** The entry of a criterion in the analysis. *)
Definition criterion_entry (criterion : string)
  (judgments : list JudgmentResult) : CriterionAnalysis :=
  let raw := scores_for criterion "raw_text" judgments in
  let vib := scores_for criterion "vibexml" judgments in
  mkCriterionAnalysis (mean raw) (mean vib) (mean vib - mean raw)%Q.

(** The category under which a result is analysed: that of the last
    test case with its name, or "unknown". *)
Definition category_of (test_cases : list StructuredTestCase)
  (j : JudgmentResult) : string :=
  match find (fun tc => String.eqb (name tc) (test_case_name j)) (rev test_cases) with
  | Some tc => category tc
  | None => "unknown"
  end.

(** The results of a category, in order. *)
Definition in_category (test_cases : list StructuredTestCase) (c : string)
  (judgments : list JudgmentResult) : list JudgmentResult :=
  filter (fun j => String.eqb (category_of test_cases j) c) judgments.

(** The sum of a list of integers. *)
Definition zsum (xs : list Z) : Z := fold_right Z.add 0%Z xs.

(** The entry of a category in the analysis, from its results. *)
Definition category_entry (g : list JudgmentResult) : CategoryAnalysis :=
  let n := inject_Z (len g) in
  let avg_raw := (qsum (map raw_text_score g) / n)%Q in
  let avg_vibexml := (qsum (map vibexml_score g) / n)%Q in
  mkCategoryAnalysis (len g)
    (wins_of "vibexml" g) (wins_of "raw_text" g) (wins_of "tie" g)
    (inject_Z (wins_of "vibexml" g) / n * 100)%Q
    (inject_Z (wins_of "raw_text" g) / n * 100)%Q
    avg_raw avg_vibexml (avg_vibexml - avg_raw)%Q
    (map test_case_name g).

(** The test cases that are given to the analysis, if any. *)
Definition given_cases (test_cases : option (list StructuredTestCase))
  : list StructuredTestCase :=
  match test_cases with Some l => l | None => [] end.

(** The distinct elements of a list, in the order in which they first
    appear. *)
Definition first_seen (l : list string) : list string :=
  rev (nodup string_dec (rev l)).

(** The coefficient of a pair of judges. *)
Definition pair_correlation
  (pearsonr : list float -> list float -> result float)
  (m : Academic.ndarray2) (ij : nat * nat) : result float :=
  pearsonr (Academic.column m (fst ij)) (Academic.column m (snd ij)).

(** The coefficients that are kept: those that are numbers. *)
Definition kept (c : float) : bool := negb (Academic.np_isnan c).

(** Whether a character occurs in a text. *)
Definition mentions (c : ascii) (s : string) : bool :=
  existsb (Ascii.eqb c) (list_ascii_of_string s).

(** A model name made safe for a file name. *)
Definition safe_name (model : string) : string :=
  Evaluator.replace
    (Evaluator.replace (Evaluator.replace model "/" "_") "-" "_") ":" "_".

(** What the judge is asked about a pair of responses: the task and the
    expected advantages are those of the first test case that bears the
    name of the pair. *)
Definition scenario_of (test_cases : list StructuredTestCase)
  (ab : Evaluator.ABTestResult) : Scenario :=
  let found :=
    find (fun tc => String.eqb (name tc) (Evaluator.ab_test_case_name ab))
      test_cases in
  mkScenario (Evaluator.ab_test_case_name ab)
    (match found with Some tc => task tc | None => EmptyString end)
    (match found with Some tc => expected_advantages tc | None => [] end)
    (Evaluator.raw_text_response ab) (Evaluator.vibexml_response ab).

(** A world after some lines are printed and nothing else is done. *)
Definition printed {RM : RandomModule} (w : World) (lines : list string)
  : World :=
  mkWorld (random_state w) (provider_calls w) (stdout w ++ lines).

(** An exception is the failure of the last call made to the response
    model, of those numbered from [first] to [last - 1], as
    [generate_response] reports it. *)
Definition failure_of (self : Evaluator.Provider) (first last : nat)
  (e : PyExc) : Prop :=
  exists k prompt e0,
    (first <= k)%nat /\ last = S k
    /\ Evaluator.text_run self k prompt = Evaluator.TextRaises e0
    /\ e = Exception ("Response generation failed: " ++ exc_str e0).

(** What a pair of responses keeps of its test case, given the two
    formatters. *)
Definition made_from (to_raw_text to_vibexml : StructuredTestCase -> string)
  (tc : StructuredTestCase) (ab : Evaluator.ABTestResult) : Prop :=
  Evaluator.ab_test_case_name ab = name tc
  /\ Evaluator.raw_text_prompt ab = to_raw_text tc
  /\ Evaluator.vibexml_prompt ab = to_vibexml tc
  /\ Evaluator.raw_text_length ab = Evaluator.len_str (to_raw_text tc)
  /\ Evaluator.vibexml_length ab = Evaluator.len_str (to_vibexml tc).

(** A text occurs in another one. *)
Definition occurs (needle hay : string) : Prop :=
  exists before after, hay = before ++ needle ++ after.

(** The keys of the data that the raw text format is to show: those of
    a [dict], of the [dict]s under its keys and of the [dict]s that are
    items of the lists under its keys, at any depth. *)
Fixpoint keys_of (v : Evaluator.Value) : list string :=
  match v with
  | Evaluator.Dict items =>
      flat_map
        (fun kv =>
           match kv with
           | (key, value) =>
               key ::
               match value with
               | Evaluator.Dict _ => keys_of value
               | Evaluator.PyList _ l =>
                   flat_map
                     (fun item =>
                        match item with
                        | Evaluator.Dict _ => keys_of item
                        | _ => []
                        end) l
               | Evaluator.Other _ => []
               end
           end) items
  | _ => []
  end.

(** The texts of the values of the data that are no [dict]: those under
    the keys and the items of the lists, at any depth. *)
Fixpoint texts_of (v : Evaluator.Value) : list string :=
  match v with
  | Evaluator.Dict items =>
      flat_map
        (fun kv =>
           match kv with
           | (key, value) =>
               match value with
               | Evaluator.Dict _ => texts_of value
               | Evaluator.PyList _ l =>
                   flat_map
                     (fun item =>
                        match item with
                        | Evaluator.Dict _ => texts_of item
                        | _ => [Evaluator.str_of_item item]
                        end) l
               | Evaluator.Other text => [text]
               end
           end) items
  | _ => []
  end.

(** What [format_dict_as_text] shows of a [dict]: its keys, each
    followed by a colon, and the texts of its values. *)
Definition shown (v : Evaluator.Value) : Prop :=
  forall indent : nat,
    (forall k, In k (keys_of v) ->
       occurs (k ++ ":") (Evaluator.format_dict_as_text v indent))
    /\ (forall t, In t (texts_of v) ->
          occurs t (Evaluator.format_dict_as_text v indent)).

(** The note that the fallback leaves as its reasoning. *)
Definition fallback_note : string := "Fallback judgment due to parsing error".

(** The judge model never gives an answer that fails validation: each
    request ends with a valid answer or with an exception. *)
Definition never_invalid (p : PydanticAIProvider) : Prop :=
  forall (n : nat) (prompt : string) (data : StructuredJudgment),
    agent_run p n prompt = ModelAnswer data ->
    StructuredJudgment_valid data = true.

(** The results of a list that are fallback judgments, by their note. *)
Definition fallbacks (judgments : list JudgmentResult) : list JudgmentResult :=
  filter (fun j => String.eqb (reasoning j) fallback_note) judgments.

(** The state of the generator after [n] draws. *)
Fixpoint after_draws {RM : RandomModule} (n : nat) (st : rng_state) : rng_state :=
  match n with
  | O => st
  | S n' => after_draws n' (snd (choice_bool st))
  end.

End Views.


(** ** More data for the examples *)

Module Samples.

Import Py Judge.
Local Open Scope string_scope.
Local Open Scope Z_scope.

(** A world of the example generator whose next draw is [true]; the
    next draw of [Examples.world0] is [false]. *)
Definition world1 : World (RM := Examples.lcg) :=
  mkWorld (RM := Examples.lcg) 8 0 [].

(** A judge that prefers whatever is shown as Response A. *)
Definition first_answer : StructuredJudgment :=
  mkStructuredJudgment "A" Examples.scores_b Examples.scores_a 88 73 90
    "Response A cites the exact thresholds and follows the dependency order."
    ["cites exact thresholds"].

Definition first_provider : PydanticAIProvider :=
  mkProvider "judge-model" (fun _ _ => ModelAnswer first_answer).

(** A result with two criteria. *)
Definition graded (n w : string) (r v : Z) : JudgmentResult :=
  mkJudgmentResult n w 80 (inject_Z r) (inject_Z v) "as judged"
    [("accuracy_completeness",
      [("raw_text", inject_Z r); ("vibexml", inject_Z v)]);
     ("precision_specificity",
      [("raw_text", inject_Z (r - 4)); ("vibexml", inject_Z (v + 4))])].

(** Three results: the second holds the first criterion only. *)
Definition three_results : list JudgmentResult :=
  [graded "invoice" "vibexml" 70 86;
   Examples.result_of "memo" "tie" 80 80;
   graded "ledger" "raw_text" 84 72].

Definition case_of (n c : string) : StructuredTestCase :=
  mkStructuredTestCase n "a test case" "answer from the data" c
    "the data is nested" ["exact values"].

(** Test cases for two of the three results, and one for none. *)
Definition three_cases : list StructuredTestCase :=
  [case_of "invoice" "finance"; case_of "ledger" "finance";
   case_of "roster" "people"].


(** Three results: one win of the structured format and two ties. *)
Definition one_win_two_ties : list JudgmentResult :=
  [Examples.result_of "invoice" "vibexml" 70 86;
   Examples.result_of "memo" "tie" 80 80;
   Examples.result_of "ledger" "tie" 78 79].


(** A provider whose text agent answers every prompt. *)
Definition answering : Evaluator.Provider :=
  Evaluator.mkFullProvider
    (mkProvider "anthropic/claude-3.5-sonnet"
       (fun _ _ => ModelAnswer Examples.good_answer))
    (fun _ prompt => Evaluator.TextAnswer ("An answer to: " ++ prompt)).

(** A provider whose text agent fails at its fourth call. *)
Definition failing_fourth : Evaluator.Provider :=
  Evaluator.mkFullProvider Examples.good_provider
    (fun k prompt =>
       if Nat.eqb k 3 then Evaluator.TextRaises (Exception "rate limit exceeded")
       else Evaluator.TextAnswer ("An answer to: " ++ prompt)).

(** Two formatters for the examples. *)
Definition plain_prompt (tc : StructuredTestCase) : string :=
  "Task: " ++ task tc.

Definition tagged_prompt (tc : StructuredTestCase) : string :=
  "<task>" ++ task tc ++ "</task>".

(** An evaluator whose judge is the response provider. *)
Definition evaluator_of (p : Evaluator.Provider) : Evaluator.LLMLEvaluator :=
  Evaluator.mkLLMLEvaluator p p (Evaluator.mkABTestRunner p)
    (mkLLMJudge (Evaluator.structured p)).

(** The world in which the examples of a whole run start. *)
Definition eval_world0 : Evaluator.EvalWorld (RM := Examples.lcg) :=
  Evaluator.mkEvalWorld (RM := Examples.lcg) Examples.world0 0.


End Samples.


(** ** Facts about the runtime *)

Unset Implicit Arguments.

Module PyFacts.

Import Py.

Lemma Qle_bool_false_lt (a b : Q) : Qle_bool a b = false -> (b < a)%Q.
Proof.
  intro H. apply Qnot_le_lt. intro Hle.
  apply Qle_bool_iff in Hle. congruence.
Qed.

Lemma Qltb_true_iff (a b : Q) : Qltb a b = true <-> (a < b)%Q.
Proof.
  unfold Qltb. split.
  - intro H. apply negb_true_iff in H. now apply Qle_bool_false_lt.
  - intro H. apply negb_true_iff.
    destruct (Qle_bool b a) eqn:E; [|reflexivity].
    apply Qle_bool_iff in E. exfalso. now apply (Qle_not_lt b a).
Qed.

Lemma Qltb_false_iff (a b : Q) : Qltb a b = false <-> (b <= a)%Q.
Proof.
  unfold Qltb. rewrite negb_false_iff. apply Qle_bool_iff.
Qed.

(** [min(a, b)] is the smaller of the two. *)
Lemma py_min_spec (a b : Q) :
  (py_min a b == Qmin a b)%Q /\ (py_min a b <= a)%Q /\ (py_min a b <= b)%Q.
Proof.
  unfold py_min. destruct (Qle_bool a b) eqn:E.
  - apply Qle_bool_iff in E. repeat split.
    + symmetry. now apply Q.min_l.
    + apply Qle_refl.
    + exact E.
  - apply Qle_bool_false_lt in E. repeat split.
    + symmetry. apply Q.min_r. now apply Qlt_le_weak.
    + now apply Qlt_le_weak.
    + apply Qle_refl.
Qed.

Lemma len_nonneg {A} (l : list A) : (0 <= len l)%Z.
Proof. unfold len. lia. Qed.

Lemma len_cons_pos {A} (x : A) (l : list A) : (0 < len (x :: l))%Z.
Proof. unfold len. cbn [List.length]. lia. Qed.

(** A division by a positive integer returns. *)
Lemma truediv_pos (a : Q) (n : Z) :
  (0 < n)%Z -> truediv a (inject_Z n) = Ok (a / inject_Z n)%Q.
Proof.
  intro Hn. unfold truediv.
  destruct (Qeq_bool (inject_Z n) 0) eqn:E; [|reflexivity].
  apply Qeq_bool_eq in E. unfold Qeq, inject_Z in E. simpl in E. lia.
Qed.

Lemma truediv_zero (a : Q) :
  truediv a (inject_Z 0) = Raise (ZeroDivisionError "division by zero").
Proof. reflexivity. Qed.

(** *** Rates in binary64 arithmetic

    The standard model of rounding: an operation returns its exact
    result with a relative error of at most the unit roundoff. *)
Section Rounding.

Variable fl : Q -> Q.
Hypothesis fl_error :
  forall x : Q, (Qabs (fl x - x) <= unit_roundoff * Qabs x)%Q.

Lemma fl_bounds (x : Q) :
  (0 <= x)%Q ->
  (x - unit_roundoff * x <= fl x <= x + unit_roundoff * x)%Q.
Proof.
  intro Hx. pose proof (fl_error x) as H.
  rewrite (Qabs_pos x Hx) in H.
  apply Qabs_Qle_condition in H. destruct H as [H1 H2].
  unfold unit_roundoff in *. split; lra.
Qed.

(** Three rates that add up to 1 exactly, once each is rounded and they
    are added from the left with rounding, add up to 1 within four
    units of roundoff. *)
Lemma rounded_rates_sum (r1 r2 r3 : Q) :
  (0 <= r1)%Q -> (0 <= r2)%Q -> (0 <= r3)%Q -> (r1 + r2 + r3 == 1)%Q ->
  (Qabs (fl (fl (fl r1 + fl r2) + fl r3) - 1) <= 4 * unit_roundoff)%Q.
Proof.
  intros H1 H2 H3 Hsum.
  pose proof (fl_bounds _ H1) as B1.
  pose proof (fl_bounds _ H2) as B2.
  pose proof (fl_bounds _ H3) as B3.
  unfold unit_roundoff in B1, B2, B3.
  assert (HA : (0 <= fl r1 + fl r2)%Q) by lra.
  pose proof (fl_bounds _ HA) as BA. unfold unit_roundoff in BA.
  assert (HB : (0 <= fl (fl r1 + fl r2) + fl r3)%Q) by lra.
  pose proof (fl_bounds _ HB) as BB. unfold unit_roundoff in BB.
  apply Qabs_Qle_condition. unfold unit_roundoff. split; lra.
Qed.

End Rounding.


End PyFacts.

(** ** The judge *)

Module JudgeFacts.

Import Py PyFacts Judge.
Local Open Scope string_scope.

(** *** De-randomization *)

(** The three labels a valid judgment can name. *)
Lemma valid_winner (sj : StructuredJudgment) :
  StructuredJudgment_valid sj = true -> In (sj_winner sj) ["A"; "B"; "TIE"].
Proof.
  unfold StructuredJudgment_valid. intro H.
  repeat (apply andb_prop in H; destruct H as [H _]).
  apply orb_prop in H. destruct H as [H | H].
  - apply orb_prop in H. destruct H as [H | H]; apply String.eqb_eq in H;
      rewrite H; simpl; tauto.
  - apply String.eqb_eq in H. rewrite H. simpl. tauto.
Qed.

(** Each table sends the three labels of the judge onto the three
    labels of the formats, and its reverse reading brings them back. *)
Lemma winner_map_inverse (raw_text_is_a : bool) (w : string) :
  In w ["A"; "B"; "TIE"] ->
  exists label,
    dict_getitem (winner_map raw_text_is_a) w = Ok label
    /\ In label ["raw_text"; "vibexml"; "tie"]
    /\ rerandomize raw_text_is_a label = Ok w.
Proof.
  intros [H | [H | [H | []]]]; subst w; destruct raw_text_is_a;
    eexists; (split; [reflexivity | split; [simpl; tauto | reflexivity]]).
Qed.

Lemma rerandomize_inverse (raw_text_is_a : bool) (label : string) :
  In label ["raw_text"; "vibexml"; "tie"] ->
  exists w,
    rerandomize raw_text_is_a label = Ok w
    /\ In w ["A"; "B"; "TIE"]
    /\ dict_getitem (winner_map raw_text_is_a) w = Ok label.
Proof.
  intros [H | [H | [H | []]]]; subst label; destruct raw_text_is_a;
    eexists; (split; [reflexivity | split; [simpl; tauto | reflexivity]]).
Qed.

(** C1. For every structured judgment whose winner is A, B or TIE and
    every assignment, the mapping step of [judge_responses] returns the
    result read off one of two tables, chosen by the assignment: when
    the raw text was shown as Response A, A becomes raw_text, B becomes
    vibexml, TIE becomes tie, and the overall score and the five
    criterion scores of side A go to raw_text and those of side B to
    vibexml; otherwise the mirrored table is used. Reading the same
    table backwards recovers the winner the judge named, and the table
    is one-to-one from A, B, TIE onto raw_text, vibexml, tie. *)
Theorem derandomization_tables :
  forall (name : string) (raw_text_is_a : bool) (sj : StructuredJudgment),
    In (sj_winner sj) ["A"; "B"; "TIE"] ->
    exists r,
      map_judgment name raw_text_is_a sj = Ok r
      /\ (raw_text_is_a = true ->
          (sj_winner sj = "A" -> winner r = "raw_text")
          /\ (sj_winner sj = "B" -> winner r = "vibexml")
          /\ (sj_winner sj = "TIE" -> winner r = "tie")
          /\ raw_text_score r = inject_Z (response_a_overall sj)
          /\ vibexml_score r = inject_Z (response_b_overall sj)
          /\ Forall (fun kf =>
                dict_find (criteria_scores r) (fst kf) =
                Some [("raw_text", inject_Z (snd kf (response_a_scores sj)));
                      ("vibexml", inject_Z (snd kf (response_b_scores sj)))])
               criteria_fields)
      /\ (raw_text_is_a = false ->
          (sj_winner sj = "A" -> winner r = "vibexml")
          /\ (sj_winner sj = "B" -> winner r = "raw_text")
          /\ (sj_winner sj = "TIE" -> winner r = "tie")
          /\ raw_text_score r = inject_Z (response_b_overall sj)
          /\ vibexml_score r = inject_Z (response_a_overall sj)
          /\ Forall (fun kf =>
                dict_find (criteria_scores r) (fst kf) =
                Some [("raw_text", inject_Z (snd kf (response_b_scores sj)));
                      ("vibexml", inject_Z (snd kf (response_a_scores sj)))])
               criteria_fields)
      /\ dict_keys (criteria_scores r) = map fst criteria_fields
      /\ test_case_name r = name
      /\ confidence r = inject_Z (sj_confidence sj)
      /\ reasoning r = sj_reasoning sj
      /\ rerandomize raw_text_is_a (winner r) = Ok (sj_winner sj)
      /\ (forall sj' r',
            In (sj_winner sj') ["A"; "B"; "TIE"] ->
            map_judgment name raw_text_is_a sj' = Ok r' ->
            winner r' = winner r -> sj_winner sj' = sj_winner sj)
      /\ (forall label,
            In label ["raw_text"; "vibexml"; "tie"] ->
            exists w, In w ["A"; "B"; "TIE"]
                      /\ dict_getitem (winner_map raw_text_is_a) w = Ok label).
Proof.
  intros name b sj Hw.
  destruct (winner_map_inverse b _ Hw) as [label [Hget [Hlab Hback]]].
  assert (Hinj : forall sj' r',
         In (sj_winner sj') ["A"; "B"; "TIE"] ->
         map_judgment name b sj' = Ok r' -> winner r' = label ->
         sj_winner sj' = sj_winner sj).
  { intros sj' r' Hw' Hmap Heq.
    destruct (winner_map_inverse b _ Hw') as [l' [Hget' [_ Hback']]].
    unfold map_judgment in Hmap.
    destruct b; rewrite Hget' in Hmap; cbn [rbind] in Hmap;
      injection Hmap as Hr; subst r'; cbn [winner] in Heq; subst l';
      rewrite Hback in Hback'; congruence. }
  unfold map_judgment.
  destruct b; rewrite Hget; cbn [rbind]; eexists; (split; [reflexivity|]);
    cbn [winner raw_text_score vibexml_score criteria_scores test_case_name
         confidence reasoning].
  all: repeat split; try discriminate; try reflexivity; try exact Hback;
    try (intro Heq; rewrite Heq in Hget; cbv in Hget; congruence);
    try (repeat constructor; fail).
  all: try (intros sj' r' Hw' Hmap Heq; eapply Hinj; eauto; fail).
  all: intros l Hl;
    match goal with
    | |- context [winner_map ?b] =>
        destruct (rerandomize_inverse b _ Hl) as [w [_ [Hin Hg]]]
    end;
    exists w; split; assumption.
Qed.

(** The judge of the examples reads B; with the raw text shown second,
    B is the raw text. *)
Lemma derandomization_tables_witness :
  exists r,
    map_judgment "workflow" false Examples.good_answer = Ok r
    /\ winner r = "raw_text"
    /\ rerandomize false (winner r) = Ok "B".
Proof.
  destruct (@derandomization_tables "workflow" false Examples.good_answer)
    as [r [Hr [_ [Hmirror [_ [_ [_ [_ [Hback _]]]]]]]]].
  - simpl. tauto.
  - exists r. split; [exact Hr|]. split; [|exact Hback].
    destruct (Hmirror eq_refl) as [_ [HB _]]. apply HB. reflexivity.
Defined.

(** The mapping step returns on every judgment that names A, B or TIE,
    and its result is well formed. *)
Lemma map_judgment_ok (name : string) (raw_text_is_a : bool)
  (sj : StructuredJudgment) :
  In (sj_winner sj) ["A"; "B"; "TIE"] ->
  exists r, map_judgment name raw_text_is_a sj = Ok r /\ well_formed r.
Proof.
  intro Hw.
  destruct (winner_map_inverse raw_text_is_a _ Hw) as [label [Hget [Hlab _]]].
  unfold map_judgment.
  destruct raw_text_is_a; rewrite Hget; cbn [rbind]; eexists;
    (split; [reflexivity|]); (split; [exact Hlab|]);
    cbn [criteria_scores]; repeat constructor.
Qed.

Lemma fallback_well_formed (self : LLMJudge) (name raw vib : string) :
  well_formed (_fallback_judgment self name raw vib).
Proof.
  unfold well_formed, _fallback_judgment. cbn [winner criteria_scores]. split.
  - destruct (Qltb _ _); [simpl; tauto|].
    destruct (Qltb _ _); simpl; tauto.
  - repeat constructor.
Qed.

(** *** Acquisition *)

Section Acquisition.

Context {RM : RandomModule}.

(** What [create_judgment_prompt] does: one draw, and nothing else. *)
Lemma create_judgment_prompt_draw (self : LLMJudge) (name task : string)
  (adv : list string) (raw vib : string) (w : World) :
  exists prompt,
    create_judgment_prompt self name task adv raw vib w =
    (Ok (prompt, fst (choice_bool (random_state w))),
     mkWorld (snd (choice_bool (random_state w))) (provider_calls w) (stdout w)).
Proof.
  unfold create_judgment_prompt, bind, random_choice_bool, ret.
  destruct (choice_bool (random_state w)) as [b st].
  destruct b; eexists; reflexivity.
Qed.

(** A run of the structured agent ends with validated data or with an
    exception, after one or two requests. *)
Lemma agent_requests_valid (self : PydanticAIProvider) (n : nat)
  (prompt : string) (data : StructuredJudgment) (k : nat) :
  agent_requests self n prompt = (Ok data, k) ->
  StructuredJudgment_valid data = true.
Proof.
  unfold agent_requests.
  destruct (agent_run self n prompt) as [d1 | e1]; [|discriminate].
  destruct (StructuredJudgment_valid d1) eqn:E1.
  - intro H. injection H as <- _. exact E1.
  - destruct (agent_run self (S n) prompt) as [d2 | e2]; [|discriminate].
    destruct (StructuredJudgment_valid d2) eqn:E2; [|discriminate].
    intro H. injection H as <- _. exact E2.
Qed.

Lemma agent_requests_count (self : PydanticAIProvider) (n : nat)
  (prompt : string) :
  (1 <= snd (agent_requests self n prompt) <= 2)%nat.
Proof.
  unfold agent_requests.
  destruct (agent_run self n prompt) as [d1 | e1]; [|cbn; lia].
  destruct (StructuredJudgment_valid d1); [cbn; lia|].
  destruct (agent_run self (S n) prompt) as [d2 | e2]; [|cbn; lia].
  destruct (StructuredJudgment_valid d2); cbn; lia.
Qed.

(** The structured call returns validated data only. *)
Lemma generate_structured_response_valid (self : PydanticAIProvider)
  (prompt : string) (w w' : World) (sj : StructuredJudgment) :
  generate_structured_response self prompt w = (Ok sj, w') ->
  StructuredJudgment_valid sj = true.
Proof.
  unfold generate_structured_response, try_except, structured_agent_run, raise.
  destruct (agent_requests self (provider_calls w) prompt) as [[data | e] k]
    eqn:E.
  - intro H. injection H as <- _. exact (agent_requests_valid _ _ _ _ _ E).
  - intro H. discriminate H.
Qed.

(** One call of [judge_responses], in full: it returns, after one draw
    and one run of the structured agent, the mapped judgment of the
    answer that the run ends with and the fallback judgment when the
    run raises. *)
Lemma judge_responses_outcome (self : LLMJudge) (name task : string)
  (adv : list string) (raw vib : string) (w : World) :
  exists prompt r w',
    create_judgment_prompt self name task adv raw vib w =
      (Ok (prompt, fst (choice_bool (random_state w))),
       mkWorld (snd (choice_bool (random_state w))) (provider_calls w) (stdout w))
    /\ judge_responses self name task adv raw vib w = (Ok r, w')
    /\ random_state w' = snd (choice_bool (random_state w))
    /\ provider_calls w' =
       (snd (agent_requests (judge_provider self) (provider_calls w) prompt)
        + provider_calls w)%nat
    /\ well_formed r
    /\ match
         fst (agent_requests (judge_provider self) (provider_calls w) prompt)
       with
       | Ok data =>
           StructuredJudgment_valid data = true
           /\ map_judgment name (fst (choice_bool (random_state w))) data = Ok r
       | Raise e =>
           r = _fallback_judgment self name raw vib
           /\ In "    Falling back to simple heuristic..." (stdout w')
       end.
Proof.
  destruct (create_judgment_prompt_draw self name task adv raw vib w)
    as [prompt Hp].
  exists prompt. unfold judge_responses, bind at 1. rewrite Hp.
  unfold bind, print, try_except, generate_structured_response, try_except,
    structured_agent_run, raise, lift, ret.
  cbn [provider_calls random_state stdout].
  destruct (agent_requests (judge_provider self) (provider_calls w) prompt)
    as [[data | e] k] eqn:E; cbn [fst snd].
  - pose proof (agent_requests_valid _ _ _ _ _ E) as Hv.
    destruct (map_judgment_ok name (fst (choice_bool (random_state w)))
                data (valid_winner data Hv)) as [r [Hr Hwf]].
    rewrite Hr. exists r. eexists.
    split; [reflexivity|]. split; [reflexivity|]. split; [reflexivity|].
    split; [reflexivity|]. split; [apply Hwf|]. split; [exact Hv | reflexivity].
  - eexists. eexists.
    split; [reflexivity|]. split; [reflexivity|]. split; [reflexivity|].
    split; [reflexivity|]. split; [apply fallback_well_formed|].
    split; [reflexivity|].
    cbn [stdout]. apply in_or_app. right. simpl. tauto.
Qed.

(** C2. For every prompt and every behaviour of the judge model, be it
    an answer that passes validation, an answer that fails it, or an
    exception of a request, [judge_responses] returns a result and
    raises nothing: the result is the mapped judgment when the run of
    the agent ends with a valid answer, the first one or the one asked
    again after a first answer that failed validation, and the fallback
    judgment, announced on the output, in every other case.  The run
    makes one request to the model, or two. *)
Theorem judge_responses_always_returns :
  forall (self : LLMJudge) (name task : string) (adv : list string)
         (raw vib : string) (w : World),
    exists prompt raw_text_is_a w1 r w',
      create_judgment_prompt self name task adv raw vib w =
        (Ok (prompt, raw_text_is_a), w1)
      /\ judge_responses self name task adv raw vib w = (Ok r, w')
      /\ (S (provider_calls w) <= provider_calls w'
          <= S (S (provider_calls w)))%nat
      /\ match agent_run (judge_provider self) (provider_calls w) prompt with
         | ModelAnswer data =>
             if StructuredJudgment_valid data
             then map_judgment name raw_text_is_a data = Ok r
                  /\ provider_calls w' = S (provider_calls w)
             else
               provider_calls w' = S (S (provider_calls w))
               /\ match
                    agent_run (judge_provider self) (S (provider_calls w))
                      prompt
                  with
                  | ModelAnswer retried =>
                      if StructuredJudgment_valid retried
                      then map_judgment name raw_text_is_a retried = Ok r
                      else r = _fallback_judgment self name raw vib
                           /\ In "    Falling back to simple heuristic..."
                                (stdout w')
                  | AgentRaises e =>
                      r = _fallback_judgment self name raw vib
                      /\ In "    Falling back to simple heuristic..."
                           (stdout w')
                  end
         | AgentRaises e =>
             provider_calls w' = S (provider_calls w)
             /\ r = _fallback_judgment self name raw vib
             /\ In "    Falling back to simple heuristic..." (stdout w')
         end.
Proof.
  intros self name task adv raw vib w.
  destruct (judge_responses_outcome self name task adv raw vib w)
    as [prompt [r [w' [Hp [Hj [_ [Hc [_ Hcase]]]]]]]].
  pose proof (agent_requests_count (judge_provider self) (provider_calls w)
                prompt) as Hk.
  exists prompt, (fst (choice_bool (random_state w))).
  eexists. exists r, w'.
  split; [exact Hp|]. split; [exact Hj|]. split; [lia|].
  unfold agent_requests in Hc, Hcase.
  destruct (agent_run (judge_provider self) (provider_calls w) prompt)
    as [d1 | e1].
  - destruct (StructuredJudgment_valid d1).
    + cbn [fst snd] in Hc, Hcase. split; [apply Hcase | exact Hc].
    + destruct (agent_run (judge_provider self) (S (provider_calls w)) prompt)
        as [d2 | e2].
      * destruct (StructuredJudgment_valid d2); cbn [fst snd] in Hc, Hcase;
          (split; [exact Hc | apply Hcase]).
      * cbn [fst snd] in Hc, Hcase. split; [exact Hc | exact Hcase].
  - cbn [fst snd] in Hc, Hcase. split; [exact Hc | exact Hcase].
Qed.

(** When every request to the model raises, the result is the fallback
    judgment whatever the world. *)
Lemma judge_responses_fallback (self : LLMJudge) (name task : string)
  (adv : list string) (raw vib : string) (w : World) :
  (forall n prompt, exists e,
      agent_run (judge_provider self) n prompt = AgentRaises e) ->
  fst (judge_responses self name task adv raw vib w) =
  Ok (_fallback_judgment self name raw vib).
Proof.
  intro Hdown.
  destruct (judge_responses_outcome self name task adv raw vib w)
    as [prompt [r [w' [_ [Hj [_ [_ [_ Hcase]]]]]]]].
  rewrite Hj. cbn [fst].
  destruct (Hdown (provider_calls w) prompt) as [e He].
  unfold agent_requests in Hcase. rewrite He in Hcase. cbn [fst] in Hcase.
  destruct Hcase as [Hr _]. now rewrite Hr.
Qed.

(** *** The fallback judgment *)

(** The heuristic score of a text of [n] words. *)
Lemma fallback_score_bounds (n : Z) :
  (0 <= n)%Z ->
  (0 <= py_min (inject_Z n / 10 * 5) 100 <= 100)%Q.
Proof.
  intro Hn.
  assert (H0 : (0 <= inject_Z n / 10 * 5)%Q).
  { assert (0 <= inject_Z n)%Q by (unfold Qle, inject_Z; simpl; lia).
    unfold Qdiv. setoid_replace (/ 10)%Q with (1 # 10)%Q by reflexivity. lra. }
  destruct (py_min_spec (inject_Z n / 10 * 5) 100) as [_ [_ Hle]].
  split; [|exact Hle].
  unfold py_min. destruct (Qle_bool _ _); [exact H0 | lra].
Qed.

(** C3. The fallback judgment of two responses is a function of the two
    texts alone: the score of a side is the smaller of
    [word_count / 10 * 5] and [100], the words being the maximal runs
    without white space; the winner is tie exactly when the two scores
    differ by less than 5, and otherwise the side with the higher score;
    the confidence is 50, the reasoning is the fixed note, and the only
    criterion is "fallback", holding the two scores. The judge object
    and the world (the random generator, the model, the task) have no
    part in it: every call that falls back on the same name and texts
    returns the same result. *)
Theorem fallback_judgment_spec :
  forall (self : LLMJudge) (name raw vib : string),
    let j := _fallback_judgment self name raw vib in
    let score := fun s : string => (inject_Z (len (split s)) / 10 * 5)%Q in
    (raw_text_score j == Qmin (score raw) 100)%Q
    /\ (vibexml_score j == Qmin (score vib) 100)%Q
    /\ (winner j = "tie" <->
        (Qabs (raw_text_score j - vibexml_score j) < 5)%Q)
    /\ (winner j = "raw_text" <->
        (5 <= raw_text_score j - vibexml_score j)%Q)
    /\ (winner j = "vibexml" <->
        (5 <= vibexml_score j - raw_text_score j)%Q)
    /\ confidence j = 50%Q
    /\ reasoning j = "Fallback judgment due to parsing error"
    /\ criteria_scores j =
       [("fallback", [("raw_text", raw_text_score j);
                      ("vibexml", vibexml_score j)])]
    /\ test_case_name j = name
    /\ (forall self', _fallback_judgment self' name raw vib = j)
    /\ (forall (self1 self2 : LLMJudge) (task1 task2 : string)
               (adv1 adv2 : list string) (w1 w2 : World),
          (forall n prompt, exists e,
              agent_run (judge_provider self1) n prompt = AgentRaises e) ->
          (forall n prompt, exists e,
              agent_run (judge_provider self2) n prompt = AgentRaises e) ->
          fst (judge_responses self1 name task1 adv1 raw vib w1) = Ok j
          /\ fst (judge_responses self2 name task2 adv2 raw vib w2) = Ok j).
Proof.
  intros self name raw vib j score.
  assert (Hr : raw_text_score j = py_min (score raw) 100) by reflexivity.
  assert (Hv : vibexml_score j = py_min (score vib) 100) by reflexivity.
  assert (Hw : winner j =
               if Qltb (Qabs (raw_text_score j - vibexml_score j)) 5 then "tie"
               else if Qltb (vibexml_score j) (raw_text_score j)
                    then "raw_text" else "vibexml") by reflexivity.
  split; [rewrite Hr; apply py_min_spec|].
  split; [rewrite Hv; apply py_min_spec|].
  set (r := raw_text_score j) in *. set (v := vibexml_score j) in *.
  assert (Hcases :
    (winner j = "tie" /\ (Qabs (r - v) < 5)%Q)
    \/ (winner j = "raw_text" /\ (5 <= Qabs (r - v))%Q /\ (v < r)%Q)
    \/ (winner j = "vibexml" /\ (5 <= Qabs (r - v))%Q /\ (r <= v)%Q)).
  { rewrite Hw. destruct (Qltb (Qabs (r - v)) 5) eqn:E1.
    - left. split; [reflexivity|]. now apply Qltb_true_iff.
    - apply Qltb_false_iff in E1. right.
      destruct (Qltb v r) eqn:E2.
      + left. apply Qltb_true_iff in E2. tauto.
      + right. apply Qltb_false_iff in E2. tauto. }
  assert (Habs_lt : (Qabs (r - v) < 5)%Q -> (-(5) < r - v < 5)%Q)
    by (intro H; now apply Qabs_Qlt_condition).
  assert (Habs_pos : (0 <= r - v)%Q -> (Qabs (r - v) == r - v)%Q)
    by apply Qabs_pos.
  assert (Habs_neg : (r - v <= 0)%Q -> (Qabs (r - v) == - (r - v))%Q)
    by apply Qabs_neg.
  split; [|split; [|split]].
  - split.
    + intro Ht. destruct Hcases as [[_ H] | [[H _] | [H _]]];
        [exact H | congruence | congruence].
    + intro Hlt. destruct Hcases as [[H _] | [[_ [H _]] | [_ [H _]]]];
        [exact H | lra | lra].
  - split.
    + intro Ht. destruct Hcases as [[H _] | [[_ [H5 Hvr]] | [H _]]];
        [congruence | | congruence].
      rewrite Habs_pos in H5; lra.
    + intro H5. destruct Hcases as [[_ H] | [[H _] | [_ [_ H]]]];
        [apply Habs_lt in H; lra | exact H | lra].
  - split.
    + intro Ht. destruct Hcases as [[H _] | [[H _] | [_ [H5 Hrv]]]];
        [congruence | congruence | ].
      rewrite Habs_neg in H5; lra.
    + intro H5. destruct Hcases as [[_ H] | [[_ [_ H]] | [H _]]];
        [apply Habs_lt in H; lra | lra | exact H].
  - split; [reflexivity|]. split; [reflexivity|]. split; [reflexivity|].
    split; [reflexivity|]. split; [reflexivity|].
    intros self1 self2 task1 task2 adv1 adv2 w1 w2 Hdown1 Hdown2. split.
    + apply (judge_responses_fallback self1 name task1 adv1 raw vib w1 Hdown1).
    + apply (judge_responses_fallback self2 name task2 adv2 raw vib w2 Hdown2).
Qed.


(** *** Ranges of the verdicts *)

(** C8 does not hold of the fallback: the heuristic score of an empty
    response is 0, which is not between 60 and 95. *)
Lemma fallback_score_out_of_range :
  let j := _fallback_judgment (mkLLMJudge Examples.down_provider) "empty" "" "" in
  (raw_text_score j == 0)%Q /\ ~ (60 <= raw_text_score j <= 95)%Q.
Proof.
  cbv zeta. split.
  - reflexivity.
  - intros [H _]. vm_compute in H. apply H. reflexivity.
Qed.

(** C8, as the code has it. A structured judgment that the validated
    call returns has both overall scores between 60 and 95 and its
    confidence between 50 and 100 (and meets every other declared
    constraint); the fallback judgment has confidence 50 and two scores
    between 0 and 100. *)
Theorem verdict_ranges :
  forall (provider : PydanticAIProvider) (prompt : string) (w w' : World)
         (sj : StructuredJudgment) (self : LLMJudge) (name raw vib : string),
    generate_structured_response provider prompt w = (Ok sj, w') ->
    (60 <= response_a_overall sj <= 95
     /\ 60 <= response_b_overall sj <= 95
     /\ 50 <= sj_confidence sj <= 100
     /\ StructuredJudgment_valid sj = true)%Z
    /\ (let j := _fallback_judgment self name raw vib in
        confidence j == 50
        /\ 0 <= raw_text_score j <= 100
        /\ 0 <= vibexml_score j <= 100)%Q.
Proof.
  intros provider prompt w w' sj self name raw vib Hret.
  pose proof (generate_structured_response_valid provider prompt w w' sj Hret) as Hv.
  split.
  - pose proof Hv as Hv'. unfold StructuredJudgment_valid, in_range in Hv'.
    repeat match goal with
           | H : _ && _ = true |- _ => apply andb_prop in H; destruct H
           end.
    repeat match goal with
           | H : (_ <=? _)%Z = true |- _ => apply Z.leb_le in H
           end.
    repeat split; assumption.
  - cbv zeta. unfold _fallback_judgment.
    cbn [confidence raw_text_score vibexml_score].
    split; [reflexivity|].
    split; apply fallback_score_bounds; apply len_nonneg.
Qed.

(** *** The assignments of a run *)

(** The judging loop returns one well-formed result per scenario. *)
Lemma judge_all_returns (self : LLMJudge) (scenarios : list Scenario) :
  forall w : World,
    exists judgments w',
      judge_all self scenarios w = (Ok judgments, w')
      /\ List.length judgments = List.length scenarios
      /\ Forall well_formed judgments.
Proof.
  induction scenarios as [|sc rest IH]; intro w.
  - exists [], w. repeat split. constructor.
  - cbn [judge_all]. unfold bind at 1, judge_scenario.
    destruct (judge_responses_outcome self (sc_name sc) (sc_task sc)
                (sc_expected_advantages sc) (sc_raw_text_response sc)
                (sc_vibexml_response sc) w)
      as [prompt [r [w1 [_ [Hj [_ [_ [Hwf _]]]]]]]].
    rewrite Hj. unfold bind at 1.
    destruct (IH w1) as [js [w2 [Hjs [Hlen Hall]]]].
    rewrite Hjs. exists (r :: js), w2. unfold ret.
    repeat split.
    + cbn [List.length]. now rewrite Hlen.
    + now constructor.
Qed.

(** The assignments of a run are the successive draws of the generator
    from the state the run starts in: the model and its answers have no
    part in them. *)
Lemma assignments_of_run_draws (self : LLMJudge) (scenarios : list Scenario) :
  forall w : World,
    assignments_of_run self scenarios w =
    draws (List.length scenarios) (random_state w).
Proof.
  induction scenarios as [|sc rest IH]; intro w.
  - reflexivity.
  - cbn [assignments_of_run draws List.length]. unfold judge_scenario.
    destruct (judge_responses_outcome self (sc_name sc) (sc_task sc)
                (sc_expected_advantages sc) (sc_raw_text_response sc)
                (sc_vibexml_response sc) w)
      as [prompt [r [w1 [Hp [Hj [Hst _]]]]]].
    rewrite Hp, Hj. cbn [snd]. rewrite IH, Hst.
    destruct (choice_bool (random_state w)) as [b st]. reflexivity.
Qed.

Lemma draws_length (n : nat) : forall st, List.length (draws n st) = n.
Proof.
  induction n as [|n IH]; intro st; cbn [draws].
  - reflexivity.
  - destruct (choice_bool st) as [b st']. cbn [List.length]. now rewrite IH.
Qed.

(** C6. Two runs whose judge is constructed with the same seed and
    which go through the same scenarios in the same order draw the same
    sequence of assignments, one per scenario, whatever the generator
    held before the construction and whatever the judge model answers
    in either run: the sequence is that of the successive draws from
    the state the seed sets, the seeding being done once, by the
    constructor. *)
Theorem seeded_assignments_reproducible :
  forall (provider1 provider2 : PydanticAIProvider) (seed : Z)
         (scenarios : list Scenario) (w1 w2 : World),
    assignments_of_seeded_run provider1 (Some seed) scenarios w1 =
    assignments_of_seeded_run provider2 (Some seed) scenarios w2
    /\ assignments_of_seeded_run provider1 (Some seed) scenarios w1 =
       draws (List.length scenarios) (seed_state seed)
    /\ List.length (assignments_of_seeded_run provider1 (Some seed) scenarios w1) =
       List.length scenarios.
Proof.
  intros provider1 provider2 seed scenarios w1 w2.
  assert (Hrun : forall p w,
             assignments_of_seeded_run p (Some seed) scenarios w =
             draws (List.length scenarios) (seed_state seed)).
  { intros p w. unfold assignments_of_seeded_run, LLMJudge_init, bind,
      Py.random_seed, ret.
    now rewrite assignments_of_run_draws. }
  rewrite !Hrun. repeat split. apply draws_length.
Qed.


End Acquisition.

Lemma verdict_ranges_witness :
  (60 <= response_a_overall Examples.good_answer <= 95)%Z
  /\ (raw_text_score
        (_fallback_judgment (mkLLMJudge Examples.good_provider) "t" "a b" "")
      <= 100)%Q.
Proof.
  destruct (@verdict_ranges Examples.lcg Examples.good_provider "prompt"
              Examples.world0
              (snd (generate_structured_response (RM := Examples.lcg)
                      Examples.good_provider "prompt" Examples.world0))
              Examples.good_answer
              (mkLLMJudge Examples.good_provider) "t" "a b" "" eq_refl)
    as [[Ha _] [_ [[_ Hr] _]]].
  split; [exact Ha | exact Hr].
Defined.

(** The judge model is down: the call still returns, with the fallback
    judgment. *)
Lemma judge_responses_always_returns_witness :
  exists r w',
    judge_scenario (RM := Examples.lcg) (mkLLMJudge Examples.down_provider)
      Examples.scenario1 Examples.world0 = (Ok r, w')
    /\ provider_calls w' = 1%nat.
Proof.
  destruct (@judge_responses_always_returns Examples.lcg
              (mkLLMJudge Examples.down_provider) "workflow" "Order the steps"
              ["keeps the dependency order"]
              (sc_raw_text_response Examples.scenario1) "build test"
              Examples.world0)
    as [prompt [b [w1 [r [w' [_ [Hj [_ Hcase]]]]]]]].
  exists r, w'. split; [exact Hj | exact (proj1 Hcase)].
Defined.

(** Thirteen words against two: 6.5 against 1, the raw text wins. *)
Lemma fallback_judgment_spec_witness :
  winner (_fallback_judgment (mkLLMJudge Examples.down_provider) "workflow"
            (sc_raw_text_response Examples.scenario1) "build test")
  = "raw_text".
Proof.
  destruct (fallback_judgment_spec (RM := Examples.lcg)
              (mkLLMJudge Examples.down_provider) "workflow"
              (sc_raw_text_response Examples.scenario1) "build test")
    as [_ [_ [_ [[_ Hraw] _]]]].
  apply Hraw. vm_compute. discriminate.
Defined.

Lemma seeded_assignments_reproducible_witness :
  assignments_of_seeded_run (RM := Examples.lcg) Examples.good_provider
    (Some 42%Z) [Examples.scenario1; Examples.scenario2] Examples.world0
  = assignments_of_seeded_run (RM := Examples.lcg) Examples.down_provider
      (Some 42%Z) [Examples.scenario1; Examples.scenario2]
      (mkWorld (RM := Examples.lcg) 99%Z 5 ["earlier output"]).
Proof.
  exact (proj1 (@seeded_assignments_reproducible Examples.lcg
                  Examples.good_provider Examples.down_provider 42%Z
                  [Examples.scenario1; Examples.scenario2] Examples.world0
                  (mkWorld (RM := Examples.lcg) 99%Z 5 ["earlier output"]))).
Defined.


(** *** Aggregation *)

Lemma dict_find_In {V} (d : dict V) (k : string) (v : V) :
  dict_find d k = Some v -> In (k, v) d.
Proof.
  induction d as [|[k' v'] d IH]; cbn [dict_find]; [discriminate|].
  destruct (String.eqb k' k) eqn:E.
  - apply String.eqb_eq in E. intro H. inversion H. subst. now left.
  - intro H. right. now apply IH.
Qed.

Lemma traverse_returns {A B} (f : A -> result B) (xs : list A) :
  (forall x, In x xs -> exists b, f x = Ok b) ->
  exists bs, traverse f xs = Ok bs /\ List.length bs = List.length xs.
Proof.
  induction xs as [|x xs IH]; intro H.
  - exists []. split; reflexivity.
  - destruct (H x (or_introl eq_refl)) as [b Hb].
    destruct IH as [bs [Hbs Hlen]]; [intros y Hy; apply H; now right|].
    exists (b :: bs). cbn [traverse]. rewrite Hb, Hbs.
    split; [reflexivity | cbn [List.length]; now rewrite Hlen].
Qed.

Lemma fold_left_returns {A S} (step : result S -> A -> result S) (xs : list A) :
  (forall acc x, exists acc', step (Ok acc) x = Ok acc') ->
  forall acc, exists r, fold_left step xs (Ok acc) = Ok r.
Proof.
  intro Hstep. induction xs as [|x xs IH]; intro acc.
  - now exists acc.
  - cbn [fold_left]. destruct (Hstep acc x) as [acc' Hacc]. rewrite Hacc.
    apply IH.
Qed.

(** Every judgment is counted once when the winners are the three
    labels. *)
Lemma wins_partition (judgments : list JudgmentResult) :
  Forall well_formed judgments ->
  (wins_of "raw_text" judgments + wins_of "vibexml" judgments
   + wins_of "tie" judgments = len judgments)%Z.
Proof.
  unfold wins_of, count, len.
  induction 1 as [|j js [Hw _] _ IH]; [reflexivity|].
  cbn [filter List.length].
  destruct Hw as [Hw | [Hw | [Hw | []]]]; rewrite <- Hw;
    cbn [String.eqb Ascii.eqb Bool.eqb List.length]; lia.
Qed.

Lemma wins_nonneg (label : string) (judgments : list JudgmentResult) :
  (0 <= wins_of label judgments)%Z.
Proof. apply len_nonneg. Qed.

Lemma criterion_scores_returns (criterion side : string)
  (judgments : list JudgmentResult) :
  Forall well_formed judgments ->
  In side ["raw_text"; "vibexml"] ->
  exists scores, criterion_scores criterion side judgments = Ok scores.
Proof.
  intros Hwf Hside. unfold criterion_scores.
  destruct (traverse_returns
    (fun j => rbind (dict_getitem (criteria_scores j) criterion)
                (fun d => dict_getitem d side))
    (filter (fun j => dict_mem (criteria_scores j) criterion) judgments))
    as [scores [Hs _]]; [|now exists scores].
  intros j Hj. apply filter_In in Hj. destruct Hj as [Hin Hmem].
  rewrite Forall_forall in Hwf. destruct (Hwf j Hin) as [_ Hcrit].
  unfold dict_mem, dict_getitem in *.
  destruct (dict_find (criteria_scores j) criterion) as [d|] eqn:Hd;
    [|discriminate].
  cbn [rbind]. apply dict_find_In in Hd.
  rewrite Forall_forall in Hcrit. destruct (Hcrit _ Hd) as [Hraw Hvib].
  cbn [snd] in Hraw, Hvib.
  destruct Hside as [Hs | [Hs | []]]; subst side.
  - destruct (dict_find d "raw_text"); [eexists; reflexivity | discriminate].
  - destruct (dict_find d "vibexml"); [eexists; reflexivity | discriminate].
Qed.

Lemma analyze_criteria_returns (judgments : list JudgmentResult) :
  Forall well_formed judgments ->
  exists criteria, analyze_criteria judgments = Ok criteria.
Proof.
  intro Hwf. unfold analyze_criteria.
  destruct judgments as [|first rest]; [now exists []|].
  apply fold_left_returns. intros acc criterion.
  unfold analyze_criterion. cbn [rbind].
  destruct (criterion_scores_returns criterion "raw_text" _ Hwf) as [rs Hrs];
    [simpl; tauto|].
  destruct (criterion_scores_returns criterion "vibexml" _ Hwf) as [vs Hvs];
    [simpl; tauto|].
  rewrite Hrs, Hvs. cbn [rbind].
  destruct rs as [|r rs']; [eexists; reflexivity|].
  destruct vs as [|v vs']; [eexists; reflexivity|].
  rewrite !truediv_pos by apply len_cons_pos.
  cbn [rbind]. eexists. reflexivity.
Qed.

Lemma analyze_categories_returns (judgments : list JudgmentResult)
  (test_cases : option (list StructuredTestCase)) :
  exists categories, analyze_categories judgments test_cases = Ok categories.
Proof.
  unfold analyze_categories.
  destruct test_cases as [[|tc tcs]|]; try (now exists []).
  apply fold_left_returns. intros acc [category cat_judgments].
  unfold analyze_category. cbn [rbind].
  destruct cat_judgments as [|j js]; [eexists; reflexivity|].
  rewrite !truediv_pos by apply len_cons_pos.
  cbn [rbind]. eexists. reflexivity.
Qed.

(** On a list that is not empty and whose results are well formed,
    [analyze_judgments] returns, and its summary holds the three counts
    and the two rates in percent. *)
Lemma analyze_judgments_returns (judgments : list JudgmentResult)
  (test_cases : option (list StructuredTestCase)) :
  judgments <> [] ->
  Forall well_formed judgments ->
  exists a,
    analyze_judgments judgments test_cases = Ok a
    /\ summary a =
       mkSummary (len judgments)
         (wins_of "vibexml" judgments) (wins_of "raw_text" judgments)
         (wins_of "tie" judgments)
         (inject_Z (wins_of "vibexml" judgments) / inject_Z (len judgments) * 100)%Q
         (inject_Z (wins_of "raw_text" judgments) / inject_Z (len judgments) * 100)%Q.
Proof.
  intros Hne Hwf. unfold analyze_judgments.
  assert (Hpos : (0 < len judgments)%Z)
    by (destruct judgments; [congruence | apply len_cons_pos]).
  rewrite !truediv_pos by exact Hpos. cbn [rbind].
  destruct (analyze_criteria_returns _ Hwf) as [criteria Hc].
  destruct (analyze_categories_returns judgments test_cases) as [cats Hk].
  rewrite Hc, Hk. cbn [rbind]. eexists. split; reflexivity.
Qed.

(** An empty list is refused by the first division. *)
Lemma analyze_judgments_empty (test_cases : option (list StructuredTestCase)) :
  analyze_judgments [] test_cases =
  Raise (ZeroDivisionError "division by zero").
Proof. reflexivity. Qed.


(** *** The analysis of a run *)

Section Pipeline.

Context {RM : RandomModule}.

(** Whatever the judge model does, the judging loop followed by the
    analysis returns on every run with at least one scenario, and the
    three counts of its summary add up to the number of scenarios. *)
Lemma analysis_of_run (self : LLMJudge) (scenarios : list Scenario)
  (test_cases : option (list StructuredTestCase)) (w : World) :
  scenarios <> [] ->
  exists judgments w' a,
    judge_all self scenarios w = (Ok judgments, w')
    /\ analyze_judgments judgments test_cases = Ok a
    /\ (raw_text_wins (summary a) + vibexml_wins (summary a)
        + ties (summary a) = len scenarios)%Z.
Proof.
  intro Hne.
  destruct (judge_all_returns self scenarios w) as [js [w' [Hjs [Hlen Hwf]]]].
  assert (Hjs_ne : js <> []).
  { destruct js; [|discriminate].
    destruct scenarios; [congruence | discriminate]. }
  destruct (analyze_judgments_returns js test_cases Hjs_ne Hwf) as [a [Ha Hs]].
  exists js, w', a. split; [exact Hjs|]. split; [exact Ha|].
  rewrite Hs. cbn [raw_text_wins vibexml_wins ties].
  rewrite (wins_partition js Hwf). unfold len. now rewrite Hlen.
Qed.

End Pipeline.

(** The scenario of four comparisons: three wins of the structured
    format with scores (70, 85), (72, 88), (75, 90) and one tie at
    (80, 80) give a win rate of 75 percent, averages 74.25 and 85.75 and
    an advantage of 11.5. *)
Example analysis_of_four_results :
  exists a,
    analyze_judgments Examples.four_results None = Ok a
    /\ vibexml_wins (summary a) = 3%Z /\ ties (summary a) = 1%Z
    /\ raw_text_wins (summary a) = 0%Z
    /\ (vibexml_win_rate (summary a) == 75)%Q
    /\ (avg_raw_text (average_scores a) == 7425 # 100)%Q
    /\ (avg_vibexml (average_scores a) == 8575 # 100)%Q
    /\ (avg_vibexml_advantage (average_scores a) == 115 # 10)%Q.
Proof. eexists. split; [vm_compute; reflexivity|]. now vm_compute. Qed.

(** A result whose winner is none of the three labels is counted in no
    bucket: the shape of the results is needed for the counts to add up. *)
Example unlabelled_winner_is_not_counted :
  exists a,
    analyze_judgments [Examples.result_of "s1" "draw" 80 80] None = Ok a
    /\ total_tests (summary a) = 1%Z
    /\ (raw_text_wins (summary a) + vibexml_wins (summary a)
        + ties (summary a) = 0)%Z.
Proof. eexists. split; [vm_compute; reflexivity|]. split; reflexivity. Qed.


(** Two seeded runs of the example generator, from different worlds and
    with different judge models, and two unseeded ones. *)
Example seeded_runs_agree :
  assignments_of_seeded_run (RM := Examples.lcg) Examples.good_provider
    (Some 42%Z) [Examples.scenario1; Examples.scenario2; Examples.scenario1]
    Examples.world0
  = [false; false; true]
  /\ assignments_of_seeded_run (RM := Examples.lcg) Examples.down_provider
       (Some 42%Z) [Examples.scenario1; Examples.scenario2; Examples.scenario1]
       (mkWorld (RM := Examples.lcg) 99%Z 5 ["earlier output"])
     = [false; false; true].
Proof. split; vm_compute; reflexivity. Qed.

Example unseeded_runs_follow_the_generator :
  assignments_of_seeded_run (RM := Examples.lcg) Examples.good_provider
    None [Examples.scenario1; Examples.scenario2; Examples.scenario1]
    Examples.world0
  = [false; true; true]
  /\ assignments_of_seeded_run (RM := Examples.lcg) Examples.good_provider
       None [Examples.scenario1; Examples.scenario2; Examples.scenario1]
       (mkWorld (RM := Examples.lcg) 99%Z 5 ["earlier output"])
     = [false; true; false].
Proof. split; vm_compute; reflexivity. Qed.


End JudgeFacts.

(** ** The statistics *)

Module AcademicFacts.

Import Py PyFacts Judge JudgeFacts Academic.
Local Open Scope string_scope.

(** *** Inter-rater reliability *)

(** C9 does not hold: a matrix with one judge is not rejected. The
    call returns a result, here even with a [pearsonr] that would raise
    on every pair. *)
Lemma single_judge_not_rejected :
  calculate_inter_rater_reliability
    (fun _ _ => Raise (ValueError "x and y must have length at least 2."))
    (mkNdarray2 3 1 [[80%float]; [85%float]; [90%float]])
  = Ok (mkReliability 0%float "poor" [] 1 3).
Proof. reflexivity. Qed.

(** C9, as the code has it. With fewer than two judges there is no pair
    of judges to correlate: the call returns a result whose list of
    correlations is empty, whose average correlation is 0 and whose
    interpretation is "poor", with the shape of the matrix. *)
Theorem reliability_with_fewer_than_two_judges :
  forall (pearsonr : list float -> list float -> result float)
         (judgments_matrix : ndarray2),
    (shape1 judgments_matrix < 2)%nat ->
    calculate_inter_rater_reliability pearsonr judgments_matrix =
    Ok (mkReliability 0%float "poor" []
          (shape1 judgments_matrix) (shape0 judgments_matrix)).
Proof.
  intros pearsonr m Hlt. unfold calculate_inter_rater_reliability.
  assert (Hpairs : judge_pairs (shape1 m) = []).
  { destruct (shape1 m) as [|[|n]]; [reflexivity | reflexivity | lia]. }
  rewrite Hpairs. reflexivity.
Qed.

Lemma reliability_with_fewer_than_two_judges_witness :
  calculate_inter_rater_reliability
    (fun _ _ => Ok 1%float)
    (mkNdarray2 2 1 [[70%float]; [90%float]])
  = Ok (mkReliability 0%float "poor" [] 1 2).
Proof.
  apply (@reliability_with_fewer_than_two_judges
           (fun _ _ => Ok 1%float) (mkNdarray2 2 1 [[70%float]; [90%float]])).
  simpl. lia.
Defined.

(** *** Categorical outcomes *)

Lemma categorical_outcomes_returns (judgments : list JudgmentResult) :
  judgments <> [] ->
  let n := len judgments in
  let wins := wins_of "vibexml" judgments in
  let pvalue := binomtest_pvalue (Z.to_nat wins) (Z.to_nat n) (1 # 2) in
  categorical_outcomes judgments =
  Ok (mkCategoricalOutcomes wins (wins_of "raw_text" judgments)
        (wins_of "tie" judgments) n
        (inject_Z wins / inject_Z n)%Q
        (inject_Z (wins_of "raw_text" judgments) / inject_Z n)%Q
        (inject_Z (wins_of "tie" judgments) / inject_Z n)%Q
        (mkBinomialTest pvalue (Qltb pvalue (5 # 100))
           "Equal probability of winning (p = 0.5)")).
Proof.
  intros Hne n wins pvalue. unfold categorical_outcomes.
  assert (Hpos : (0 < len judgments)%Z)
    by (destruct judgments; [congruence | apply len_cons_pos]).
  rewrite !truediv_pos by exact Hpos. reflexivity.
Qed.

(** C7. The significance of the win rate is the two-sided binomial
    test of the number of wins of the structured format among all the
    comparisons, ties and losses included, against a win probability of
    one half; the summary reports its p-value and whether it is below
    0.05. With 8 wins in 10 comparisons the p-value is that of the
    binomial distribution, the probability of at most 2 or at least 8
    successes in 10 fair trials, 7/64 = 0.109375, and the result is not
    significant. *)
Theorem binomial_test_of_win_count :
  forall judgments : list JudgmentResult,
    judgments <> [] ->
    exists c,
      categorical_outcomes judgments = Ok c
      /\ vibexml_wins c = wins_of "vibexml" judgments
      /\ total_cases c = len judgments
      /\ p_value (binomial_test c) =
         binomtest_pvalue (Z.to_nat (vibexml_wins c))
           (Z.to_nat (total_cases c)) (1 # 2)
      /\ (statistically_significant (binomial_test c) = true <->
          (p_value (binomial_test c) < 5 # 100)%Q)
      /\ (total_cases c = 10%Z -> vibexml_wins c = 8%Z ->
          (p_value (binomial_test c) == 7 # 64)%Q
          /\ (p_value (binomial_test c) ==
              binom_cdf 10 (1 # 2) 2 + (1 - binom_cdf 10 (1 # 2) 7))%Q
          /\ (Qabs (p_value (binomial_test c) - (1094 # 10000)) < 1 # 10000)%Q
          /\ statistically_significant (binomial_test c) = false).
Proof.
  intros judgments Hne. eexists.
  split; [apply (categorical_outcomes_returns judgments Hne)|].
  cbn [vibexml_wins total_cases binomial_test p_value statistically_significant].
  split; [reflexivity|]. split; [reflexivity|]. split; [reflexivity|].
  split; [apply Qltb_true_iff|].
  intros Hn Hk. rewrite Hn, Hk. repeat split; vm_compute; reflexivity.
Qed.

Lemma binomial_test_of_win_count_witness :
  exists c,
    categorical_outcomes Examples.ten_results = Ok c
    /\ (p_value (binomial_test c) == 7 # 64)%Q
    /\ statistically_significant (binomial_test c) = false.
Proof.
  destruct (binomial_test_of_win_count Examples.ten_results)
    as [c [Hc [Hw [Hn [_ [_ H810]]]]]].
  - discriminate.
  - exists c. split; [exact Hc|].
    destruct H810 as [Hp [_ [_ Hs]]].
    + rewrite Hn. reflexivity.
    + rewrite Hw. reflexivity.
    + split; [exact Hp | exact Hs].
Defined.

(** *** Counts and rates *)

(** C5. For every list of results that is not empty, the results being
    well formed, both aggregation steps return, the three counts add up
    to the number of results, the three rates of the statistical summary
    add up to 1 (exactly as rationals, and within four units of roundoff
    once each is rounded to binary64 and they are added in binary64),
    and the two win rates of the analysis with the printed tie rate add
    up to 100 percent. *)
Theorem win_counts_and_rates :
  forall (judgments : list JudgmentResult)
         (test_cases : option (list StructuredTestCase)) (fl : Q -> Q),
    judgments <> [] ->
    Forall well_formed judgments ->
    (forall x : Q, (Qabs (fl x - x) <= unit_roundoff * Qabs x)%Q) ->
    exists a c tie_percent,
      analyze_judgments judgments test_cases = Ok a
      /\ categorical_outcomes judgments = Ok c
      /\ printed_tie_rate (summary a) = Ok tie_percent
      /\ total_tests (summary a) = len judgments
      /\ (Judge.raw_text_wins (summary a) + Judge.vibexml_wins (summary a)
          + Judge.ties (summary a) = len judgments)%Z
      /\ total_cases c = len judgments
      /\ (raw_text_wins c + vibexml_wins c + ties c = len judgments)%Z
      /\ (vibexml_win_rate c + raw_text_win_rate c + tie_rate c == 1)%Q
      /\ (Qabs (fl (fl (fl (vibexml_win_rate c) + fl (raw_text_win_rate c))
                    + fl (tie_rate c)) - 1) <= 4 * unit_roundoff)%Q
      /\ (Judge.vibexml_win_rate (summary a) + Judge.raw_text_win_rate (summary a)
          + tie_percent == 100)%Q.
Proof.
  intros judgments test_cases fl Hne Hwf Hfl.
  destruct (analyze_judgments_returns judgments test_cases Hne Hwf)
    as [a [Ha Hs]].
  pose proof (wins_partition judgments Hwf) as Hpart.
  pose proof (wins_nonneg "raw_text" judgments) as Hr.
  pose proof (wins_nonneg "vibexml" judgments) as Hv.
  pose proof (wins_nonneg "tie" judgments) as Ht.
  assert (Hpos : (0 < len judgments)%Z)
    by (destruct judgments; [congruence | apply len_cons_pos]).
  set (n := len judgments) in *.
  set (r := wins_of "raw_text" judgments) in *.
  set (v := wins_of "vibexml" judgments) in *.
  set (t := wins_of "tie" judgments) in *.
  assert (Hn : ~ (inject_Z n == 0)%Q)
    by (unfold Qeq, inject_Z; simpl; lia).
  assert (Hrate : forall k, (0 <= k)%Z -> (0 <= inject_Z k / inject_Z n)%Q).
  { intros k Hk. apply Qle_shift_div_l.
    - unfold Qlt, inject_Z; simpl; lia.
    - unfold Qle, inject_Z; simpl; lia. }
  assert (Hsum : (inject_Z v / inject_Z n + inject_Z r / inject_Z n
                  + inject_Z t / inject_Z n == 1)%Q).
  { setoid_replace (inject_Z v / inject_Z n + inject_Z r / inject_Z n
                    + inject_Z t / inject_Z n)%Q
      with (inject_Z (r + v + t) / inject_Z n)%Q
      by (rewrite !inject_Z_plus; field; exact Hn).
    rewrite Hpart. field. exact Hn. }
  exists a. eexists. exists (inject_Z t / inject_Z n * 100)%Q.
  split; [exact Ha|].
  split; [apply (categorical_outcomes_returns judgments Hne)|].
  rewrite Hs.
  cbn [total_tests Judge.raw_text_wins Judge.vibexml_wins Judge.ties
       Judge.vibexml_win_rate Judge.raw_text_win_rate
       total_cases raw_text_wins vibexml_wins ties
       vibexml_win_rate raw_text_win_rate tie_rate].
  fold n r v t.
  split.
  { unfold printed_tie_rate. cbn [Judge.ties total_tests].
    rewrite (truediv_pos _ _ Hpos). reflexivity. }
  split; [reflexivity|]. split; [exact Hpart|].
  split; [reflexivity|]. split; [exact Hpart|].
  split; [exact Hsum|]. split.
  - apply rounded_rates_sum;
      [exact Hfl | apply Hrate; exact Hv | apply Hrate; exact Hr
       | apply Hrate; exact Ht | exact Hsum].
  - setoid_replace (inject_Z v / inject_Z n * 100 + inject_Z r / inject_Z n * 100
                    + inject_Z t / inject_Z n * 100)%Q
      with ((inject_Z v / inject_Z n + inject_Z r / inject_Z n
             + inject_Z t / inject_Z n) * 100)%Q by ring.
    rewrite Hsum. reflexivity.
Qed.

Lemma ten_results_well_formed : Forall well_formed Examples.ten_results.
Proof.
  unfold Examples.ten_results.
  repeat (apply Forall_cons;
          [split; [simpl; tauto
                  | repeat (apply Forall_cons; [split; reflexivity|]);
                    apply Forall_nil]|]).
  apply Forall_nil.
Qed.

Lemma win_counts_and_rates_witness :
  exists a c,
    analyze_judgments Examples.ten_results None = Ok a
    /\ categorical_outcomes Examples.ten_results = Ok c
    /\ (raw_text_wins c + vibexml_wins c + ties c = 10)%Z
    /\ (vibexml_win_rate c + raw_text_win_rate c + tie_rate c == 1)%Q.
Proof.
  destruct (win_counts_and_rates Examples.ten_results None
              (fun x => x * (1 + unit_roundoff))%Q)
    as [a [c [tp [Ha [Hc [_ [_ [_ [_ [Hcount [Hrates _]]]]]]]]]]].
  - discriminate.
  - exact ten_results_well_formed.
  - intro x.
    setoid_replace (x * (1 + unit_roundoff) - x)%Q
      with (unit_roundoff * x)%Q by ring.
    rewrite Qabs_Qmult. apply Qmult_le_compat_r; [|apply Qabs_nonneg].
    discriminate.
  - exists a, c. split; [exact Ha|]. split; [exact Hc|].
    split; [exact Hcount | exact Hrates].
Defined.


(** *** Effect size *)

(** Membership in the two finite domains of the exhaustive checks. *)
(** *** Binary64 arithmetic *)

Lemma Prim2SF_zero : Prim2SF 0 = S754_zero false.
Proof. reflexivity. Qed.

Lemma div_by_zero (a : float) :
  (a / 0 = nan \/ a / 0 = infinity \/ a / 0 = neg_infinity)%float.
Proof.
  pose proof (FloatAxioms.div_spec a 0) as H.
  rewrite Prim2SF_zero in H.
  rewrite <- (FloatAxioms.SF2Prim_Prim2SF (a / 0)), H.
  destruct (Prim2SF a) as [s | s | | s m e]; cbn.
  - left. reflexivity.
  - destruct s; [right; right | right; left]; reflexivity.
  - left. reflexivity.
  - destruct s; [right; right | right; left]; reflexivity.
Qed.

Lemma div_by_nan (a : float) : (a / nan = nan)%float.
Proof.
  rewrite <- (FloatAxioms.SF2Prim_Prim2SF (a / nan)), FloatAxioms.div_spec.
  change (Prim2SF nan) with S754_nan.
  destruct (Prim2SF a); reflexivity.
Qed.



(** *** The summation of numpy *)

(** The fuel of [pairwise_sum] is enough: more fuel changes nothing. *)
Lemma pairwise_sum_fuel (fuel : nat) :
  forall (a : list float),
    (List.length a <= fuel)%nat ->
    pairwise_sum_rec fuel a = pairwise_sum a.
Proof.
  unfold pairwise_sum.
  assert (H : forall f1 f2 a, (List.length a <= f1)%nat ->
            (List.length a <= f2)%nat ->
            pairwise_sum_rec f1 a = pairwise_sum_rec f2 a).
  { induction f1 as [|f1 IH]; intros f2 a H1 H2.
    - destruct a; [|cbn [List.length] in H1; lia].
      destruct f2; reflexivity.
    - destruct f2 as [|f2].
      + destruct a; [reflexivity | cbn [List.length] in H2; lia].
      + cbn [pairwise_sum_rec].
        destruct (Nat.ltb_spec (List.length a) 8); [reflexivity|].
        destruct (Nat.leb_spec (List.length a) 128); [reflexivity|].
        assert (Hn2 : (0 < List.length a / 2 - (List.length a / 2) mod 8
                       < List.length a)%nat).
        { pose proof (Nat.mod_upper_bound (List.length a / 2) 8
                        ltac:(discriminate)).
          pose proof (Nat.div_lt (List.length a) 2 ltac:(lia) ltac:(lia)).
          assert (64 <= List.length a / 2)%nat
            by (apply Nat.div_le_lower_bound; lia).
          lia. }
        f_equal; apply IH; rewrite ?length_firstn, ?length_skipn; lia. }
  intros a Ha. apply H; [exact Ha | lia].
Qed.

(** *** Constant samples *)



Lemma forallb_In {A} (p : A -> bool) (l : list A) (x : A) :
  forallb p l = true -> In x l -> p x = true.
Proof. intros H Hin. rewrite forallb_forall in H. now apply H. Qed.






Lemma product_pow_conforms : C_pow Examples.product_pow.
Proof. repeat split. Qed.




(** *** Groups of one element *)

(** The standard deviation of a single element is a division by 0: it
    is a [nan] or an infinity. *)
Lemma np_std_single (x : float) :
  np_std [x] 1 = nan \/ np_std [x] 1 = infinity.
Proof.
  unfold np_std.
  change (of_int (Z.max (len [x] - 1) 0)) with 0%float.
  destruct (div_by_zero
              (np_sum
                 (map (fun d => (d * d)%float)
                    (map (fun a => (a - np_sum [x] / of_int (len [x]))%float)
                       [x])))) as [H | [H | H]];
    rewrite H; [left | right | left]; reflexivity.
Qed.

Lemma pow_of_single (pow : float -> float -> float) (x : float) :
  C_pow pow ->
  (of_int (len [x] - 1) * pow (np_std [x] 1) 2 = nan)%float.
Proof.
  intros [_ [_ [Hinf [_ Hnan]]]].
  change (of_int (len [x] - 1)) with 0%float.
  destruct (np_std_single x) as [H | H]; rewrite H, ?Hinf, ?Hnan; reflexivity.
Qed.

(** C10. The guard of [calculate_effect_size] tests the pooled standard
    deviation only. With one element in each group the divisor
    [len(group1) + len(group2) - 2] of the pooled variance is 0, and so
    is the divisor of each standard deviation: the divisions are made,
    and whatever the two elements are, the pooled standard deviation is
    a [nan], the test [== 0] is false and the returned d is a [nan],
    not 0. When each group has at least two elements every divisor is
    positive, and a group with fewer than two elements always has a
    standard deviation divided by 0. *)
Theorem single_element_groups_divide_by_zero :
  forall (pow : float -> float -> float) (x y : float)
         (group0 group1 group2 : list float),
    C_pow pow ->
    (List.length group0 < 2)%nat ->
    (2 <= List.length group1)%nat -> (2 <= List.length group2)%nat ->
    (pooled_divisor [x] [y] = 0
     /\ Z.max (len [x] - 1) 0 = 0
     /\ of_int (pooled_divisor [x] [y]) = 0%float
     /\ Z.max (len group0 - 1) 0 = 0)%Z
    /\ (let e := calculate_effect_size pow [x] [y] in
        pooled_std e = nan
        /\ PrimFloat.is_nan (pooled_std e) = true
        /\ (pooled_std e =? 0)%float = false
        /\ cohens_d e = nan
        /\ PrimFloat.is_nan (cohens_d e) = true
        /\ (cohens_d e =? 0)%float = false)
    /\ (0 < pooled_divisor group1 group2
        /\ 0 < Z.max (len group1 - 1) 0
        /\ 0 < Z.max (len group2 - 1) 0
        /\ 0 < len group1 /\ 0 < len group2)%Z.
Proof.
  intros pow x y group0 group1 group2 Hpow H0 H1 H2.
  split; [repeat split; unfold len; lia|]. split.
  - assert (Hp : pooled_std (calculate_effect_size pow [x] [y]) = nan).
    { unfold calculate_effect_size. cbn [pooled_std].
      rewrite (pow_of_single pow x Hpow), (pow_of_single pow y Hpow).
      reflexivity. }
    assert (Hd : cohens_d (calculate_effect_size pow [x] [y]) = nan).
    { unfold calculate_effect_size in *. cbn [pooled_std cohens_d] in *.
      rewrite Hp. change (nan =? 0)%float with false. cbv iota.
      apply div_by_nan. }
    cbv zeta. rewrite Hp, Hd. repeat split.
  - unfold pooled_divisor, len. lia.
Qed.

Lemma single_element_groups_divide_by_zero_witness :
  PrimFloat.is_nan
    (cohens_d (calculate_effect_size Examples.product_pow
                 [80]%float [85]%float)) = true
  /\ (0 < pooled_divisor [70; 72]%float [85; 88]%float)%Z.
Proof.
  destruct (single_element_groups_divide_by_zero Examples.product_pow
              80%float 85%float
              [80]%float [70; 72]%float [85; 88]%float product_pow_conforms)
    as [_ [[_ [_ [_ [_ [Hnan _]]]]] [Hpos _]]].
  - simpl. lia.
  - simpl. lia.
  - simpl. lia.
  - split; [exact Hnan | exact Hpos].
Defined.

(** *** The heuristic score in binary64 *)

(** For every word count up to 2000 the binary64 evaluation of
    [min(word_count / 10 * 5, 100)] is the exact rational score. *)
Lemma fallback_score_binary64_agrees (n : nat) :
  (n <= 2000)%nat ->
  fallback_score_binary64 (Z.of_nat n) =
  float_of_Q (Qred (py_min (inject_Z (Z.of_nat n) / 10 * 5) 100)).
Proof.
  intro Hn.
  assert (Hcheck :
    forallb (fun n =>
      PrimFloat.Leibniz.eqb
        (fallback_score_binary64 (Z.of_nat n))
        (float_of_Q (Qred (py_min (inject_Z (Z.of_nat n) / 10 * 5) 100))))
      (seq 0 2001) = true) by (vm_compute; reflexivity).
  apply FloatAxioms.Leibniz.eqb_spec.
  apply (forallb_In _ _ n Hcheck). apply in_seq. lia.
Qed.


(** For every two texts of up to 300 words the binary64 evaluation of
    the comparison picks the winner of the exact one. *)
Lemma fallback_winner_binary64_agrees (self : LLMJudge) (name raw vib : string) :
  (len (split raw) <= 300)%Z -> (len (split vib) <= 300)%Z ->
  fallback_winner_binary64 (len (split raw)) (len (split vib)) =
  winner (_fallback_judgment self name raw vib).
Proof.
  intros H1 H2.
  assert (Hcheck :
    forallb (fun n1 =>
      forallb (fun n2 =>
        String.eqb
          (fallback_winner_binary64 (Z.of_nat n1) (Z.of_nat n2))
          (let r := py_min (inject_Z (Z.of_nat n1) / 10 * 5)%Q 100%Q in
           let v := py_min (inject_Z (Z.of_nat n2) / 10 * 5)%Q 100%Q in
           if Qltb (Qabs (r - v)) 5%Q then "tie"
           else if Qltb v r then "raw_text" else "vibexml"))
        (seq 0 301))
      (seq 0 301) = true) by (vm_compute; reflexivity).
  unfold _fallback_judgment. cbn [winner]. unfold len in *.
  set (n1 := List.length (split raw)) in *.
  set (n2 := List.length (split vib)) in *.
  assert (Hi1 : In n1 (seq 0 301)) by (apply in_seq; lia).
  assert (Hi2 : In n2 (seq 0 301)) by (apply in_seq; lia).
  pose proof (forallb_In _ _ n1 Hcheck Hi1) as Ha. cbv beta in Ha.
  pose proof (forallb_In _ _ n2 Ha Hi2) as Hb. cbv beta zeta in Hb.
  now apply String.eqb_eq.
Qed.


End AcademicFacts.

(** ** More about the judge *)

Module JudgeMore.

Import Py PyFacts Judge JudgeFacts Views.
Local Open Scope string_scope.

(** *** The prompt and the exchange of the two formats *)

(** The mapping step under the other assignment returns the mirrored
    result. *)
Lemma map_judgment_mirror (name : string) (b : bool) (sj : StructuredJudgment)
  (r : JudgmentResult) :
  map_judgment name b sj = Ok r ->
  map_judgment name (negb b) sj = Ok (mirror r).
Proof.
  unfold map_judgment, dict_getitem.
  destruct b; cbn [negb winner_map dict_find];
    destruct (String.eqb "A" (sj_winner sj));
    [| destruct (String.eqb "B" (sj_winner sj));
       [| destruct (String.eqb "TIE" (sj_winner sj)) ] | |
       destruct (String.eqb "B" (sj_winner sj));
       [| destruct (String.eqb "TIE" (sj_winner sj)) ] ];
    cbn [rbind]; intro H; inversion H; subst r; reflexivity.
Qed.

Lemma Qltb_compat (a a' b b' : Q) :
  (a == a')%Q -> (b == b')%Q -> Qltb a b = Qltb a' b'.
Proof.
  intros Ha Hb.
  destruct (Qltb a b) eqn:E1; destruct (Qltb a' b') eqn:E2; try reflexivity.
  - apply Qltb_true_iff in E1. apply Qltb_false_iff in E2.
    rewrite Ha, Hb in E1. exfalso. now apply (Qlt_not_le a' b').
  - apply Qltb_false_iff in E1. apply Qltb_true_iff in E2.
    rewrite Ha, Hb in E1. exfalso. now apply (Qlt_not_le a' b').
Qed.

(** The fallback with the two responses exchanged returns the mirrored
    result. *)
Lemma fallback_mirror (self : LLMJudge) (name x y : string) :
  _fallback_judgment self name y x = mirror (_fallback_judgment self name x y).
Proof.
  unfold _fallback_judgment, mirror.
  cbn [test_case_name winner confidence raw_text_score vibexml_score
       reasoning criteria_scores map fst snd].
  set (sx := py_min (inject_Z (len (split x)) / 10 * 5) 100).
  set (sy := py_min (inject_Z (len (split y)) / 10 * 5) 100).
  assert (Habs : Qltb (Qabs (sy - sx)) 5 = Qltb (Qabs (sx - sy)) 5).
  { apply Qltb_compat; [|reflexivity].
    setoid_replace (sy - sx)%Q with (- (sx - sy))%Q by ring.
    apply Qabs_opp. }
  rewrite Habs.
  assert (Hw : (if Qltb (Qabs (sx - sy)) 5 then "tie"
                else if Qltb sx sy then "raw_text" else "vibexml")
               = swap_label (if Qltb (Qabs (sx - sy)) 5 then "tie"
                             else if Qltb sy sx then "raw_text" else "vibexml")).
  { destruct (Qltb (Qabs (sx - sy)) 5) eqn:Et; [reflexivity|].
    apply Qltb_false_iff in Et.
    destruct (Qltb sy sx) eqn:E1; destruct (Qltb sx sy) eqn:E2; try reflexivity.
    - apply Qltb_true_iff in E1. apply Qltb_true_iff in E2. lra.
    - apply Qltb_false_iff in E1. apply Qltb_false_iff in E2.
      assert (Heq : (sx - sy == 0)%Q) by lra.
      rewrite Heq in Et. vm_compute in Et. exfalso. apply Et. reflexivity. }
  rewrite Hw. reflexivity.
Qed.


(** *** The fallback by word counts *)

(** The heuristic score is half the number of words, up to 200 words. *)
Lemma fallback_score_capped (n : Z) :
  (0 <= n)%Z ->
  (py_min (inject_Z n / 10 * 5) 100 == inject_Z (Z.min n 200) / 2)%Q.
Proof.
  intro Hn. unfold py_min.
  destruct (Qle_bool (inject_Z n / 10 * 5) 100) eqn:E.
  - apply Qle_bool_iff in E.
    assert (Hle : (n <= 200)%Z).
    { unfold Qle, Qdiv, Qmult, Qinv, inject_Z in E. simpl in E. lia. }
    rewrite Z.min_l by exact Hle. field.
  - apply Qle_bool_false_lt in E.
    assert (Hgt : (200 < n)%Z).
    { unfold Qlt, Qdiv, Qmult, Qinv, inject_Z in E. simpl in E. lia. }
    rewrite Z.min_r by lia. reflexivity.
Qed.

(** Halves of integers compared: the bridge from the scores to the
    word counts. *)
Lemma half_difference (r v : Q) (c1 c2 : Z) :
  (r == inject_Z c1 / 2)%Q -> (v == inject_Z c2 / 2)%Q ->
  ((Qabs (r - v) < 5)%Q <-> (Z.abs (c1 - c2) < 10)%Z)
  /\ ((5 <= r - v)%Q <-> (c2 + 10 <= c1)%Z)
  /\ ((5 <= v - r)%Q <-> (c1 + 10 <= c2)%Z).
Proof.
  intros Hr Hv.
  assert (Hlt : forall a b : Z, (inject_Z a < inject_Z b)%Q <-> (a < b)%Z)
    by (intros a b; rewrite Zlt_Qlt; tauto).
  assert (Hle : forall a b : Z, (inject_Z a <= inject_Z b)%Q <-> (a <= b)%Z)
    by (intros a b; rewrite Zle_Qle; tauto).
  assert (Hp10 : forall c : Z, (inject_Z (c + 10) == inject_Z c + 10)%Q)
    by (intro c; rewrite inject_Z_plus; reflexivity).
  assert (Hm10 : forall c : Z, (inject_Z (c + -10) == inject_Z c - 10)%Q)
    by (intro c; rewrite inject_Z_plus; reflexivity).
  pose proof (Hlt (c2 + -10)%Z c1) as L1. pose proof (Hlt c1 (c2 + 10)%Z) as L2.
  pose proof (Hle (c2 + 10)%Z c1) as L3. pose proof (Hle (c1 + 10)%Z c2) as L4.
  rewrite Hm10 in L1. rewrite Hp10 in L2, L3, L4.
  assert (Hd : (2 * (r - v) == inject_Z c1 - inject_Z c2)%Q)
    by (rewrite Hr, Hv; field).
  clear Hlt Hle Hp10 Hm10 Hr Hv.
  remember (inject_Z c1) as x1. remember (inject_Z c2) as x2.
  clear Heqx1 Heqx2.
  split; [|split].
  - rewrite Qabs_Qlt_condition. split.
    + intros [H1 H2].
      assert (A : (x2 - 10 < x1)%Q) by lra.
      assert (B : (x1 < x2 + 10)%Q) by lra.
      apply L1 in A. apply L2 in B. lia.
    + intro H.
      assert (A : (c2 + -10 < c1)%Z) by lia.
      assert (B : (c1 < c2 + 10)%Z) by lia.
      apply L1 in A. apply L2 in B. split; lra.
  - rewrite <- L3. split; intro; lra.
  - rewrite <- L4. split; intro; lra.
Qed.

(** The three outcomes of the comparison of the fallback. *)
Lemma fallback_winner_cases (self : LLMJudge) (name raw vib : string) :
  let j := _fallback_judgment self name raw vib in
  (winner j = "tie" /\ (Qabs (raw_text_score j - vibexml_score j) < 5)%Q)
  \/ (winner j = "raw_text" /\ (5 <= raw_text_score j - vibexml_score j)%Q)
  \/ (winner j = "vibexml" /\ (5 <= vibexml_score j - raw_text_score j)%Q).
Proof.
  cbv zeta. unfold _fallback_judgment.
  cbn [winner raw_text_score vibexml_score].
  set (r := py_min (inject_Z (len (split raw)) / 10 * 5) 100).
  set (v := py_min (inject_Z (len (split vib)) / 10 * 5) 100).
  destruct (Qltb (Qabs (r - v)) 5) eqn:E1.
  - left. split; [reflexivity|]. now apply Qltb_true_iff.
  - apply Qltb_false_iff in E1. right.
    destruct (Qltb v r) eqn:E2.
    + left. split; [reflexivity|]. apply Qltb_true_iff in E2.
      rewrite Qabs_pos in E1; lra.
    + right. split; [reflexivity|]. apply Qltb_false_iff in E2.
      rewrite Qabs_neg in E1; lra.
Qed.

(** X2. The fallback decides on the numbers of words alone, counted up
    to 200: each score is half the capped count; the result is a tie
    exactly when the capped counts differ by less than 10, and otherwise
    the response with more words wins. Two responses of 200 words or
    more always tie at 100, and exchanging the responses mirrors the
    result. *)
Theorem fallback_by_word_count :
  forall (self : LLMJudge) (name raw vib : string),
    let j := _fallback_judgment self name raw vib in
    let c1 := capped_words raw in
    let c2 := capped_words vib in
    (raw_text_score j == inject_Z c1 / 2)%Q
    /\ (vibexml_score j == inject_Z c2 / 2)%Q
    /\ (winner j = "tie" <-> (Z.abs (c1 - c2) < 10)%Z)
    /\ (winner j = "raw_text" <-> (c2 + 10 <= c1)%Z)
    /\ (winner j = "vibexml" <-> (c1 + 10 <= c2)%Z)
    /\ ((200 <= len (split raw))%Z -> (200 <= len (split vib))%Z ->
        winner j = "tie" /\ (raw_text_score j == 100)%Q
        /\ (vibexml_score j == 100)%Q)
    /\ _fallback_judgment self name vib raw = mirror j.
Proof.
  intros self name raw vib j c1 c2.
  assert (Hr : (raw_text_score j == inject_Z c1 / 2)%Q)
    by (apply fallback_score_capped, len_nonneg).
  assert (Hv : (vibexml_score j == inject_Z c2 / 2)%Q)
    by (apply fallback_score_capped, len_nonneg).
  pose proof (fallback_winner_cases self name raw vib) as Hcases.
  cbv zeta in Hcases. fold j in Hcases.
  destruct (half_difference (raw_text_score j) (vibexml_score j) c1 c2 Hr Hv)
    as [Htie [Hraw Hvib]].
  assert (Hw_tie : winner j = "tie" <-> (Z.abs (c1 - c2) < 10)%Z).
  { rewrite <- Htie. split.
    - intro Hw. destruct Hcases as [[_ H] | [[H _] | [H _]]];
        [exact H | congruence | congruence].
    - intro H. destruct Hcases as [[Hw _] | [[_ H'] | [_ H']]];
        [exact Hw | | ]; apply Qabs_Qlt_condition in H; lra. }
  split; [exact Hr|]. split; [exact Hv|]. split; [exact Hw_tie|].
  split.
  { rewrite <- Hraw. split.
    - intro Hw. destruct Hcases as [[H _] | [[_ H] | [H _]]];
        [congruence | exact H | congruence].
    - intro H. destruct Hcases as [[_ H'] | [[Hw _] | [_ H']]];
        [apply Qabs_Qlt_condition in H'; lra | exact Hw | lra]. }
  split.
  { rewrite <- Hvib. split.
    - intro Hw. destruct Hcases as [[H _] | [[H _] | [_ H]]];
        [congruence | congruence | exact H].
    - intro H. destruct Hcases as [[_ H'] | [[_ H'] | [Hw _]]];
        [apply Qabs_Qlt_condition in H'; lra | lra | exact Hw]. }
  split.
  { intros H1 H2.
    assert (E1 : c1 = 200%Z) by (unfold c1, capped_words; lia).
    assert (E2 : c2 = 200%Z) by (unfold c2, capped_words; lia).
    split; [apply Hw_tie; rewrite E1, E2; reflexivity|].
    split; [rewrite Hr, E1 | rewrite Hv, E2]; reflexivity. }
  apply fallback_mirror.
Qed.


Section Exchange.

Context {RM : RandomModule}.

(** The prompt that [create_judgment_prompt] returns, spelled out. *)
Lemma create_judgment_prompt_text (self : LLMJudge) (name task : string)
  (adv : list string) (raw vib : string) (w : World) :
  let b := fst (choice_bool (random_state w)) in
  create_judgment_prompt self name task adv raw vib w =
  (Ok (prompt_text name task adv
         "Response A" (if b then raw else vib)
         "Response B" (if b then vib else raw), b),
   mkWorld (snd (choice_bool (random_state w))) (provider_calls w) (stdout w)).
Proof.
  cbv zeta. unfold create_judgment_prompt, bind, random_choice_bool, ret.
  destruct (choice_bool (random_state w)) as [b st].
  destruct b; reflexivity.
Qed.

(** X1. The prompt does not tell the formats apart: exchanging the two
    responses while the draw comes out the other way gives the very same
    prompt, and when the two responses are the same text the prompt is
    the same whatever the draw. *)
Theorem prompt_is_label_blind :
  forall (self1 self2 : LLMJudge) (name task : string) (adv : list string)
         (x y : string) (w1 w2 : World),
    fst (choice_bool (random_state w2)) =
    negb (fst (choice_bool (random_state w1))) ->
    exists prompt prompt_same b,
      fst (create_judgment_prompt self1 name task adv x y w1) = Ok (prompt, b)
      /\ fst (create_judgment_prompt self2 name task adv y x w2) =
         Ok (prompt, negb b)
      /\ fst (create_judgment_prompt self1 name task adv x x w1) =
         Ok (prompt_same, b)
      /\ fst (create_judgment_prompt self2 name task adv x x w2) =
         Ok (prompt_same, negb b).
Proof.
  intros self1 self2 name task adv x y w1 w2 Hdraw.
  rewrite (create_judgment_prompt_text self1 name task adv x y w1).
  rewrite (create_judgment_prompt_text self2 name task adv y x w2).
  rewrite (create_judgment_prompt_text self1 name task adv x x w1).
  rewrite (create_judgment_prompt_text self2 name task adv x x w2).
  cbn [fst]. rewrite Hdraw.
  destruct (fst (choice_bool (random_state w1))); cbn [negb];
    eexists; eexists; eexists; repeat split; reflexivity.
Qed.

(** X3. The whole judgment treats the two formats alike. When the two
    responses are exchanged and the draw comes out the other way, the
    judge model is sent the same prompt at the same requests, and
    whatever it does (a valid answer, at once or when asked again, an
    invalid one, an exception) the result is the mirrored one: the
    winner renamed and every pair of scores exchanged. *)
Theorem judge_responses_is_symmetric :
  forall (self : LLMJudge) (name task : string) (adv : list string)
         (x y : string) (w1 w2 : World),
    provider_calls w2 = provider_calls w1 ->
    fst (choice_bool (random_state w2)) =
    negb (fst (choice_bool (random_state w1))) ->
    exists r,
      fst (judge_responses self name task adv x y w1) = Ok r
      /\ fst (judge_responses self name task adv y x w2) = Ok (mirror r).
Proof.
  intros self name task adv x y w1 w2 Hcalls Hdraw.
  destruct (judge_responses_outcome self name task adv x y w1)
    as [p1 [r1 [w1' [Hp1 [Hj1 [_ [_ [_ Hc1]]]]]]]].
  destruct (judge_responses_outcome self name task adv y x w2)
    as [p2 [r2 [w2' [Hp2 [Hj2 [_ [_ [_ Hc2]]]]]]]].
  rewrite (create_judgment_prompt_text self name task adv x y w1) in Hp1.
  rewrite (create_judgment_prompt_text self name task adv y x w2) in Hp2.
  rewrite Hj1, Hj2. cbn [fst]. exists r1. split; [reflexivity|].
  rewrite Hcalls, Hdraw in Hc2.
  assert (Hp : p2 = p1).
  { inversion Hp1 as [H1]. inversion Hp2 as [H2]. rewrite Hdraw.
    destruct (fst (choice_bool (random_state w1))); reflexivity. }
  rewrite Hp in Hc2.
  destruct (fst (agent_requests (judge_provider self) (provider_calls w1) p1))
    as [data | e].
  - destruct Hc1 as [_ Hm1]. destruct Hc2 as [_ Hm2].
    apply map_judgment_mirror in Hm1. rewrite Hm1 in Hm2.
    inversion Hm2. reflexivity.
  - destruct Hc1 as [Hr1 _]. destruct Hc2 as [Hr2 _].
    rewrite Hr1, Hr2. f_equal. apply fallback_mirror.
Qed.


End Exchange.

Lemma prompt_is_label_blind_witness :
  exists prompt,
    fst (create_judgment_prompt (RM := Examples.lcg)
           (mkLLMJudge Examples.good_provider) "config" "Find the port" []
           "the port is 8080" "port 8080 is set" Examples.world0)
    = Ok (prompt, false)
    /\ fst (create_judgment_prompt (RM := Examples.lcg)
              (mkLLMJudge Examples.good_provider) "config" "Find the port" []
              "port 8080 is set" "the port is 8080" Samples.world1)
       = Ok (prompt, true).
Proof.
  destruct (@prompt_is_label_blind Examples.lcg
              (mkLLMJudge Examples.good_provider)
              (mkLLMJudge Examples.good_provider) "config" "Find the port" []
              "the port is 8080" "port 8080 is set"
              Examples.world0 Samples.world1 eq_refl)
    as [prompt [same [b [H1 [H2 _]]]]].
  exists prompt.
  assert (Hb : b = false).
  { vm_compute in H1. inversion H1. reflexivity. }
  rewrite Hb in H1, H2. split; [exact H1 | exact H2].
Defined.

Lemma judge_responses_is_symmetric_witness :
  exists r,
    fst (judge_responses (RM := Examples.lcg) (mkLLMJudge Samples.first_provider)
           "config" "Find the port" [] "the port is 8080" "port 8080 is set"
           Examples.world0) = Ok r
    /\ winner r = "vibexml"
    /\ fst (judge_responses (RM := Examples.lcg)
              (mkLLMJudge Samples.first_provider)
              "config" "Find the port" [] "port 8080 is set" "the port is 8080"
              Samples.world1) = Ok (mirror r)
    /\ winner (mirror r) = "raw_text".
Proof.
  destruct (@judge_responses_is_symmetric Examples.lcg
              (mkLLMJudge Samples.first_provider) "config" "Find the port" []
              "the port is 8080" "port 8080 is set"
              Examples.world0 Samples.world1 eq_refl eq_refl)
    as [r [H1 H2]].
  exists r.
  assert (Hr : Ok r = fst (judge_responses (RM := Examples.lcg)
                             (mkLLMJudge Samples.first_provider)
                             "config" "Find the port" []
                             "the port is 8080" "port 8080 is set"
                             Examples.world0))
    by (symmetry; exact H1).
  assert (Hw : winner r = "vibexml").
  { change (match Ok r with Ok j => winner j | Raise _ => "" end = "vibexml").
    rewrite Hr. reflexivity. }
  split; [exact H1|]. split; [exact Hw|]. split; [exact H2|].
  unfold mirror. cbn [winner]. rewrite Hw. reflexivity.
Defined.


(** *** One call, in detail *)

Section Trace.

Context {RM : RandomModule}.

(** What a call of [judge_responses] returns and the world it leaves,
    by the behaviour of the judge model at the requests of this call:
    the first, and the second when the first answer fails validation. *)
Lemma judge_responses_run (self : LLMJudge) (name task : string)
  (adv : list string) (raw vib : string) (w : World) :
  let b := fst (choice_bool (random_state w)) in
  let prompt := prompt_text name task adv
                  "Response A" (if b then raw else vib)
                  "Response B" (if b then vib else raw) in
  let judging := "    Judging responses for " ++ name ++ "..." in
  let after := fun (requests : nat) out =>
    mkWorld (snd (choice_bool (random_state w)))
      (requests + provider_calls w)
      (stdout w ++ judging :: out)%list in
  let failed := fun (requests : nat) msg =>
    (Ok (_fallback_judgment self name raw vib),
     after requests
       ["    Warning: Structured judgment failed for " ++ name ++ ": "
          ++ "Structured response generation failed: " ++ msg;
        "    Falling back to simple heuristic..."]) in
  match agent_run (judge_provider self) (provider_calls w) prompt with
  | ModelAnswer data =>
      if StructuredJudgment_valid data
      then exists r, map_judgment name b data = Ok r
                     /\ judge_responses self name task adv raw vib w =
                        (Ok r, after 1%nat [])
      else
        match agent_run (judge_provider self) (S (provider_calls w)) prompt with
        | ModelAnswer retried =>
            if StructuredJudgment_valid retried
            then exists r, map_judgment name b retried = Ok r
                           /\ judge_responses self name task adv raw vib w =
                              (Ok r, after 2%nat [])
            else judge_responses self name task adv raw vib w =
                 failed 2%nat
                   "Exceeded maximum retries (1) for result validation"
        | AgentRaises e =>
            judge_responses self name task adv raw vib w =
            failed 2%nat (exc_str e)
        end
  | AgentRaises e =>
      judge_responses self name task adv raw vib w = failed 1%nat (exc_str e)
  end.
Proof.
  cbv zeta.
  pose proof (create_judgment_prompt_text self name task adv raw vib w) as Hp.
  cbv zeta in Hp.
  unfold judge_responses, bind, print, try_except,
    generate_structured_response, try_except, structured_agent_run, raise,
    lift, ret, agent_requests.
  rewrite Hp. cbn [provider_calls random_state stdout exc_str].
  destruct (agent_run (judge_provider self) (provider_calls w) _) as [data | e].
  - destruct (StructuredJudgment_valid data) eqn:Hv.
    + destruct (map_judgment_ok name (fst (choice_bool (random_state w)))
                  data (valid_winner data Hv)) as [r [Hr _]].
      exists r. split; [exact Hr|]. rewrite Hr. reflexivity.
    + destruct (agent_run (judge_provider self) (S (provider_calls w)) _)
        as [retried | e].
      * destruct (StructuredJudgment_valid retried) eqn:Hv2.
        -- destruct (map_judgment_ok name (fst (choice_bool (random_state w)))
                       retried (valid_winner retried Hv2)) as [r [Hr _]].
           exists r. split; [exact Hr|]. rewrite Hr. reflexivity.
        -- cbn [provider_calls random_state stdout exc_str].
           rewrite <- !app_assoc. reflexivity.
      * cbn [provider_calls random_state stdout exc_str].
        rewrite <- !app_assoc. reflexivity.
  - cbn [provider_calls random_state stdout exc_str].
    rewrite <- !app_assoc. reflexivity.
Qed.

End Trace.


(** *** The two shapes of a result *)

Lemma inject_Z_between (lo hi z : Z) :
  (lo <= z <= hi)%Z -> (inject_Z lo <= inject_Z z <= inject_Z hi)%Q.
Proof. intros [H1 H2]. split; rewrite <- Zle_Qle; assumption. Qed.

Lemma in_range_spec (lo hi x : Z) :
  in_range lo hi x = true -> (lo <= x <= hi)%Z.
Proof.
  unfold in_range. intro H. apply andb_prop in H. destruct H as [H1 H2].
  apply Z.leb_le in H1. apply Z.leb_le in H2. lia.
Qed.

Lemma CriteriaScores_valid_spec (c : CriteriaScores) :
  CriteriaScores_valid c = true ->
  Forall (fun kf => (60 <= snd kf c <= 95)%Z) criteria_fields.
Proof.
  unfold CriteriaScores_valid. intro H.
  repeat match goal with
         | H : _ && _ = true |- _ => apply andb_prop in H; destruct H
         end.
  unfold criteria_fields.
  repeat (apply Forall_cons; [cbn [snd]; apply in_range_spec; assumption|]).
  apply Forall_nil.
Qed.

(** The result mapped from a valid judgment. *)
Lemma map_judgment_valid_shape (name : string) (b : bool)
  (data : StructuredJudgment) (r : JudgmentResult) :
  StructuredJudgment_valid data = true ->
  map_judgment name b data = Ok r ->
  test_case_name r = name
  /\ (60 <= raw_text_score r <= 95)%Q
  /\ (60 <= vibexml_score r <= 95)%Q
  /\ (50 <= confidence r <= 100)%Q
  /\ (50 <= String.length (reasoning r))%nat
  /\ dict_keys (criteria_scores r) = map fst criteria_fields
  /\ Forall (fun kv => Forall (fun side => (60 <= snd side <= 95)%Q) (snd kv))
       (criteria_scores r).
Proof.
  intros Hv Hmap.
  destruct (map_judgment_ok name b data (valid_winner data Hv)) as [r0 [Hr0 _]].
  unfold StructuredJudgment_valid in Hv.
  repeat match goal with
         | H : _ && _ = true |- _ => apply andb_prop in H; destruct H
         end.
  repeat match goal with
         | H : in_range _ _ _ = true |- _ => apply in_range_spec in H
         | H : CriteriaScores_valid _ = true |- _ =>
             apply CriteriaScores_valid_spec in H
         end.
  repeat match goal with
         | H : Forall _ criteria_fields |- _ =>
             unfold criteria_fields in H
         | H : Forall _ (_ :: _) |- _ => inversion H; clear H; subst
         end.
  cbn [snd] in *.
  match goal with
  | H : (50 <=? Z.of_nat _)%Z = true |- _ => apply Z.leb_le in H
  end.
  unfold map_judgment in Hmap, Hr0.
  destruct (dict_getitem (winner_map b) (sj_winner data)) as [label|e];
    [|destruct b; discriminate].
  destruct b; cbn [rbind] in Hmap; inversion Hmap; subst r;
    cbn [test_case_name raw_text_score vibexml_score confidence reasoning
         criteria_scores dict_keys map fst];
    (split; [reflexivity|]);
    (split; [apply (inject_Z_between 60 95); assumption|]);
    (split; [apply (inject_Z_between 60 95); assumption|]);
    (split; [apply (inject_Z_between 50 100); assumption|]);
    (split; [lia|]);
    (split; [reflexivity|]);
    repeat (apply Forall_cons;
            [cbn [snd];
             repeat (apply Forall_cons;
                     [cbn [snd]; apply (inject_Z_between 60 95); assumption|]);
             apply Forall_nil|]);
    apply Forall_nil.
Qed.

Section Shapes.

Context {RM : RandomModule}.

(** X4. Every result of [judge_responses] has one of two shapes, told
    apart by its reasoning. Either it is the fallback judgment: the
    fixed note of 38 characters, the single criterion "fallback". Or it
    is mapped from a validated judgment: a reasoning of at least 50
    characters, the five criteria, and every score, overall or by
    criterion, between 60 and 95. In both, the name is that of the
    call, the winner is one of the three labels, the two overall scores
    lie between 0 and 100 and the confidence between 50 and 100. *)
Theorem judge_result_shapes :
  forall (self : LLMJudge) (name task : string) (adv : list string)
         (raw vib : string) (w w' : World) (r : JudgmentResult),
    judge_responses self name task adv raw vib w = (Ok r, w') ->
    test_case_name r = name
    /\ In (winner r) ["raw_text"; "vibexml"; "tie"]
    /\ (0 <= raw_text_score r <= 100)%Q
    /\ (0 <= vibexml_score r <= 100)%Q
    /\ (50 <= confidence r <= 100)%Q
    /\ ((reasoning r = fallback_note
         /\ r = _fallback_judgment self name raw vib
         /\ dict_keys (criteria_scores r) = ["fallback"])
        \/ (reasoning r <> fallback_note
            /\ (50 <= String.length (reasoning r))%nat
            /\ dict_keys (criteria_scores r) = map fst criteria_fields
            /\ (60 <= raw_text_score r <= 95)%Q
            /\ (60 <= vibexml_score r <= 95)%Q
            /\ Forall (fun kv =>
                 Forall (fun side => (60 <= snd side <= 95)%Q) (snd kv))
                 (criteria_scores r))).
Proof.
  intros self name task adv raw vib w w' r Hj.
  destruct (judge_responses_outcome self name task adv raw vib w)
    as [prompt [r0 [w0 [_ [Hj0 [_ [_ [[Hw _] Hcase]]]]]]]].
  rewrite Hj in Hj0. inversion Hj0. subst r0 w0. clear Hj0.
  assert (Hfb : r = _fallback_judgment self name raw vib ->
                test_case_name r = name
                /\ (0 <= raw_text_score r <= 100)%Q
                /\ (0 <= vibexml_score r <= 100)%Q
                /\ (50 <= confidence r <= 100)%Q
                /\ reasoning r = fallback_note
                /\ dict_keys (criteria_scores r) = ["fallback"]).
  { intro Hr. rewrite Hr. unfold _fallback_judgment.
    cbn [test_case_name raw_text_score vibexml_score confidence reasoning
         criteria_scores dict_keys map fst].
    split; [reflexivity|].
    split; [apply fallback_score_bounds, len_nonneg|].
    split; [apply fallback_score_bounds, len_nonneg|].
    split; [split; discriminate|]. split; reflexivity. }
  destruct (fst (agent_requests (judge_provider self) (provider_calls w)
                   prompt)) as [data | e].
  - destruct Hcase as [Hv Hmap].
    destruct (map_judgment_valid_shape name _ data r Hv Hmap)
      as [Hn [Hr [Hvb [Hc [Hlen [Hkeys Hcrit]]]]]].
    split; [exact Hn|]. split; [exact Hw|].
    split; [lra|]. split; [lra|]. split; [exact Hc|].
    right. split.
    + intro Heq. rewrite Heq in Hlen. vm_compute in Hlen. lia.
    + repeat (split; try assumption).
  - destruct Hcase as [Hr _]. destruct (Hfb Hr) as [H1 [H2 [H3 [H4 [H5 H6]]]]].
    repeat (split; try assumption). left. repeat (split; try assumption).
Qed.

End Shapes.

Lemma judge_result_shapes_witness :
  let r := _fallback_judgment (mkLLMJudge Examples.bad_provider) "workflow"
             (sc_raw_text_response Examples.scenario1) "build test" in
  fst (judge_scenario (RM := Examples.lcg) (mkLLMJudge Examples.bad_provider)
         Examples.scenario1 Examples.world0) = Ok r
  /\ test_case_name r = "workflow"
  /\ (raw_text_score r <= 100)%Q.
Proof.
  cbv zeta.
  assert (E : judge_responses (RM := Examples.lcg)
                (mkLLMJudge Examples.bad_provider) "workflow" "Order the steps"
                ["keeps the dependency order"]
                (sc_raw_text_response Examples.scenario1) "build test"
                Examples.world0
              = (Ok (_fallback_judgment (mkLLMJudge Examples.bad_provider)
                       "workflow" (sc_raw_text_response Examples.scenario1)
                       "build test"),
                 snd (judge_scenario (RM := Examples.lcg)
                        (mkLLMJudge Examples.bad_provider)
                        Examples.scenario1 Examples.world0)))
    by reflexivity.
  destruct (@judge_result_shapes Examples.lcg
              (mkLLMJudge Examples.bad_provider) _ _ _ _ _ _ _ _ E)
    as [Hname [_ [[_ Hle] _]]].
  split; [reflexivity | split; [exact Hname | exact Hle]].
Defined.

(** *** The effects of a run *)

Section Effects.

Context {RM : RandomModule}.

(** A result mapped from a valid judgment is not a fallback. *)
Lemma mapped_is_no_fallback (name : string) (b : bool)
  (data : StructuredJudgment) (r : JudgmentResult) :
  StructuredJudgment_valid data = true ->
  map_judgment name b data = Ok r ->
  test_case_name r = name /\ List.length (fallbacks [r]) = 0%nat.
Proof.
  intros Hv Hmap.
  destruct (map_judgment_valid_shape name _ data r Hv Hmap)
    as [Hn [_ [_ [_ [Hlen _]]]]].
  split; [exact Hn|].
  unfold fallbacks. cbn [filter].
  destruct (String.eqb (reasoning r) fallback_note) eqn:E; [|reflexivity].
  apply String.eqb_eq in E. rewrite E in Hlen. vm_compute in Hlen. lia.
Qed.

(** One call: one result under the name of the call, one draw, one
    request to the model or two, one when no answer fails validation,
    and one printed line, or three when it falls back. *)
Lemma judge_responses_step (self : LLMJudge) (name task : string)
  (adv : list string) (raw vib : string) (w : World) :
  exists r w1 out,
    judge_responses self name task adv raw vib w = (Ok r, w1)
    /\ test_case_name r = name
    /\ (S (provider_calls w) <= provider_calls w1
        <= S (S (provider_calls w)))%nat
    /\ (never_invalid (judge_provider self) ->
        provider_calls w1 = S (provider_calls w))
    /\ random_state w1 = snd (choice_bool (random_state w))
    /\ stdout w1 = (stdout w ++ out)%list
    /\ List.length out =
       (1 + 2 * List.length (fallbacks [r]))%nat.
Proof.
  pose proof (judge_responses_run self name task adv raw vib w) as Hrun.
  cbv zeta in Hrun.
  destruct (agent_run (judge_provider self) (provider_calls w) _) as [data | e]
    eqn:E1.
  - destruct (StructuredJudgment_valid data) eqn:Hv.
    + destruct Hrun as [r [Hmap Hj]].
      destruct (mapped_is_no_fallback name _ data r Hv Hmap) as [Hn Hf].
      exists r. eexists. eexists. split; [exact Hj|]. split; [exact Hn|].
      cbn [provider_calls random_state stdout].
      split; [lia|]. split; [reflexivity|].
      split; [reflexivity|]. split; [reflexivity|].
      rewrite Hf. reflexivity.
    + destruct (agent_run (judge_provider self) (S (provider_calls w)) _)
        as [retried | e].
      * destruct (StructuredJudgment_valid retried) eqn:Hv2.
        -- destruct Hrun as [r [Hmap Hj]].
           destruct (mapped_is_no_fallback name _ retried r Hv2 Hmap)
             as [Hn Hf].
           exists r. eexists. eexists. split; [exact Hj|]. split; [exact Hn|].
           cbn [provider_calls random_state stdout].
           split; [lia|].
           split; [intro Hnever; rewrite (Hnever _ _ _ E1) in Hv;
                   discriminate Hv|].
           split; [reflexivity|]. split; [reflexivity|].
           rewrite Hf. reflexivity.
        -- eexists. eexists. eexists. split; [exact Hrun|].
           cbn [provider_calls random_state stdout].
           split; [reflexivity|]. split; [lia|].
           split; [intro Hnever; rewrite (Hnever _ _ _ E1) in Hv;
                   discriminate Hv|].
           split; [reflexivity|]. split; reflexivity.
      * eexists. eexists. eexists. split; [exact Hrun|].
        cbn [provider_calls random_state stdout].
        split; [reflexivity|]. split; [lia|].
        split; [intro Hnever; rewrite (Hnever _ _ _ E1) in Hv;
                discriminate Hv|].
        split; [reflexivity|]. split; reflexivity.
  - eexists. eexists. eexists. split; [exact Hrun|].
    cbn [provider_calls random_state stdout].
    split; [reflexivity|]. split; [lia|]. split; [reflexivity|].
    split; [reflexivity|]. split; reflexivity.
Qed.

Lemma fallbacks_cons (r : JudgmentResult) (js : list JudgmentResult) :
  List.length (fallbacks (r :: js)) =
  (List.length (fallbacks [r]) + List.length (fallbacks js))%nat.
Proof.
  unfold fallbacks. cbn [filter].
  destruct (String.eqb (reasoning r) fallback_note); reflexivity.
Qed.

(** X5. A run of the judging loop over [n] scenarios returns [n]
    results, in the order of the scenarios and under their names; it
    makes exactly [n] draws; it sends the judge model at least [n]
    requests and at most [2 n], a scenario taking one request, or two
    after a first answer that fails validation, and exactly [n] when
    the model gives no answer that fails validation; and it prints one
    line per scenario plus two for each result that is a fallback,
    after what was printed before. *)
Theorem judge_all_effects :
  forall (self : LLMJudge) (scenarios : list Scenario) (w w' : World)
         (judgments : list JudgmentResult),
    judge_all self scenarios w = (Ok judgments, w') ->
    map test_case_name judgments = map sc_name scenarios
    /\ (provider_calls w + List.length scenarios <= provider_calls w'
        <= provider_calls w + 2 * List.length scenarios)%nat
    /\ (never_invalid (judge_provider self) ->
        provider_calls w' = (provider_calls w + List.length scenarios)%nat)
    /\ random_state w' = after_draws (List.length scenarios) (random_state w)
    /\ exists out,
         stdout w' = (stdout w ++ out)%list
         /\ List.length out =
            (List.length scenarios + 2 * List.length (fallbacks judgments))%nat.
Proof.
  intros self scenarios. induction scenarios as [|sc rest IH];
    intros w w' judgments Hrun.
  - cbn [judge_all] in Hrun. unfold ret in Hrun. inversion Hrun. subst.
    cbn [map List.length after_draws]. split; [reflexivity|].
    split; [lia|]. split; [intros _; lia|]. split; [reflexivity|].
    exists []. split; [now rewrite app_nil_r | reflexivity].
  - cbn [judge_all] in Hrun. unfold bind at 1, judge_scenario in Hrun.
    destruct (judge_responses_step self (sc_name sc) (sc_task sc)
                (sc_expected_advantages sc) (sc_raw_text_response sc)
                (sc_vibexml_response sc) w)
      as [r [w1 [out1 [Hj [Hn [Hc [Hc1 [Hs [Ho Hl]]]]]]]]].
    rewrite Hj in Hrun. unfold bind at 1 in Hrun.
    destruct (judge_all self rest w1) as [[js|e] w2] eqn:Hrest;
      [|discriminate].
    unfold ret in Hrun. inversion Hrun. subst judgments w'. clear Hrun.
    destruct (IH w1 w2 js Hrest)
      as [Hnames [Hcalls [Hexact [Hst [out2 [Hout Hlen]]]]]].
    cbn [map List.length after_draws].
    split; [now rewrite Hn, Hnames|].
    split; [lia|].
    split; [intro Hnever; rewrite (Hexact Hnever), (Hc1 Hnever); lia|].
    split; [now rewrite Hst, Hs|].
    exists (out1 ++ out2)%list. split.
    + rewrite Hout, Ho. now rewrite app_assoc.
    + rewrite length_app, Hl, Hlen, (fallbacks_cons r js). lia.
Qed.

End Effects.

Lemma judge_all_effects_witness :
  exists judgments w',
    judge_all (RM := Examples.lcg) (mkLLMJudge Examples.down_provider)
      [Examples.scenario1; Examples.scenario2] Examples.world0
    = (Ok judgments, w')
    /\ map test_case_name judgments = ["workflow"; "config"]
    /\ provider_calls w' = 2%nat.
Proof.
  eexists. eexists.
  assert (E : judge_all (RM := Examples.lcg) (mkLLMJudge Examples.down_provider)
                [Examples.scenario1; Examples.scenario2] Examples.world0
              = (Ok (match fst (judge_all (RM := Examples.lcg)
                                  (mkLLMJudge Examples.down_provider)
                                  [Examples.scenario1; Examples.scenario2]
                                  Examples.world0)
                     with Ok js => js | Raise _ => [] end),
                 snd (judge_all (RM := Examples.lcg)
                        (mkLLMJudge Examples.down_provider)
                        [Examples.scenario1; Examples.scenario2]
                        Examples.world0)))
    by reflexivity.
  split; [exact E|].
  destruct (@judge_all_effects Examples.lcg _ _ _ _ _ E) as [Hn [_ [Hc _]]].
  split; [exact Hn | apply Hc].
  intros n prompt data H. discriminate H.
Defined.

(** *** One generator for every judge *)

Section SharedGenerator.

Context {RM : RandomModule}.

(** X6. The judges of a process share one generator. Constructing any
    judge with a seed restarts the sequence of every judge: the next
    assignments of a judge constructed earlier, with or without a seed
    of its own, are the draws from the new seed. Constructing a judge
    without a seed leaves the sequence where it was. *)
Theorem seeding_restarts_every_judge :
  forall (earlier : LLMJudge) (provider : PydanticAIProvider) (seed : Z)
         (scenarios : list Scenario) (w : World),
    assignments_of_run earlier scenarios
      (snd (LLMJudge_init provider (Some seed) w))
    = draws (List.length scenarios) (seed_state seed)
    /\ assignments_of_run earlier scenarios
         (snd (LLMJudge_init provider None w))
       = assignments_of_run earlier scenarios w
    /\ fst (LLMJudge_init provider (Some seed) w) = Ok (mkLLMJudge provider)
    /\ fst (LLMJudge_init provider None w) = Ok (mkLLMJudge provider).
Proof.
  intros earlier provider seed scenarios w.
  rewrite !assignments_of_run_draws.
  unfold LLMJudge_init, bind, Py.random_seed, ret. cbn [snd fst random_state].
  repeat split.
Qed.

End SharedGenerator.


End JudgeMore.

(** ** More about the analysis *)

Module AnalysisMore.

Import Py PyFacts Judge JudgeFacts Academic AcademicFacts Views.
Local Open Scope string_scope.

(** *** Dictionaries *)

Lemma dict_mem_keys {V} (d : dict V) (k : string) :
  dict_mem d k = true <-> In k (dict_keys d).
Proof.
  unfold dict_mem, dict_keys.
  induction d as [|[k' v'] d IH]; cbn [dict_find map fst].
  - split; [discriminate | intros []].
  - destruct (String.eqb k' k) eqn:E.
    + apply String.eqb_eq in E. split; [intro; now left | reflexivity].
    + apply String.eqb_neq in E. rewrite IH. cbn [In]. tauto.
Qed.

Lemma dict_find_None_keys {V} (d : dict V) (k : string) :
  dict_find d k = None <-> ~ In k (dict_keys d).
Proof.
  rewrite <- dict_mem_keys. unfold dict_mem.
  destruct (dict_find d k); split; intro H; try discriminate;
    try reflexivity; try congruence; exfalso; now apply H.
Qed.

(** A value stored under a key is found under it. *)
Lemma dict_find_setitem_same {V} (d : dict V) (k : string) (v : V) :
  dict_find (dict_setitem d k v) k = Some v.
Proof.
  induction d as [|[k' v'] d IH]; cbn [dict_setitem dict_find].
  - now rewrite String.eqb_refl.
  - destruct (String.eqb k' k) eqn:E; cbn [dict_find]; rewrite E;
      [reflexivity | exact IH].
Qed.

(** Storing under a key leaves the other keys as they were. *)
Lemma dict_find_setitem_other {V} (d : dict V) (k k2 : string) (v : V) :
  k <> k2 -> dict_find (dict_setitem d k v) k2 = dict_find d k2.
Proof.
  intro Hne. induction d as [|[k' v'] d IH]; cbn [dict_setitem dict_find].
  - destruct (String.eqb k k2) eqn:E; [|reflexivity].
    apply String.eqb_eq in E. contradiction.
  - destruct (String.eqb k' k) eqn:E; cbn [dict_find].
    + apply String.eqb_eq in E. subst k'.
      destruct (String.eqb k k2) eqn:E2; [|reflexivity].
      apply String.eqb_eq in E2. contradiction.
    + destruct (String.eqb k' k2); [reflexivity | exact IH].
Qed.

(** A new key goes last. *)
Lemma dict_setitem_new {V} (d : dict V) (k : string) (v : V) :
  ~ In k (dict_keys d) -> dict_setitem d k v = (d ++ [(k, v)])%list.
Proof.
  induction d as [|[k' v'] d IH]; cbn [dict_setitem dict_keys map fst In app];
    intro Hnot.
  - reflexivity.
  - destruct (String.eqb k' k) eqn:E.
    + apply String.eqb_eq in E. exfalso. apply Hnot. now left.
    + f_equal. apply IH. intro Hin. apply Hnot. now right.
Qed.

(** A key that is there keeps its place. *)
Lemma dict_keys_setitem_old {V} (d : dict V) (k : string) (v : V) :
  In k (dict_keys d) -> dict_keys (dict_setitem d k v) = dict_keys d.
Proof.
  induction d as [|[k' v'] d IH]; cbn [dict_setitem dict_keys map fst In].
  - intros [].
  - intro Hin. destruct (String.eqb k' k) eqn:E; cbn [map fst].
    + reflexivity.
    + f_equal. apply IH. destruct Hin as [Heq | Hin]; [|exact Hin].
      apply String.eqb_neq in E. contradiction.
Qed.

(** *** Sums *)

Lemma fold_left_Qplus (xs : list Q) (a : Q) :
  (fold_left Qplus xs a == a + fold_left Qplus xs 0)%Q.
Proof.
  revert a. induction xs as [|x xs IH]; intro a; cbn [fold_left].
  - ring.
  - rewrite (IH (a + x)%Q), (IH (0 + x)%Q). ring.
Qed.

Lemma qsum_cons (x : Q) (xs : list Q) : (qsum (x :: xs) == x + qsum xs)%Q.
Proof.
  unfold qsum. cbn [fold_left]. rewrite fold_left_Qplus. ring.
Qed.

Lemma qsum_difference {A} (f g : A -> Q) (xs : list A) :
  (qsum (map (fun x => f x - g x) xs) == qsum (map f xs) - qsum (map g xs))%Q.
Proof.
  induction xs as [|x xs IH]; cbn [map].
  - reflexivity.
  - rewrite !qsum_cons, IH. ring.
Qed.

Lemma qsum_bounds {A} (f : A -> Q) (lo hi : Q) (xs : list A) :
  Forall (fun x => lo <= f x <= hi)%Q xs ->
  (inject_Z (len xs) * lo <= qsum (map f xs) <= inject_Z (len xs) * hi)%Q.
Proof.
  induction 1 as [|x xs [H1 H2] _ IH]; cbn [map].
  - unfold len, qsum. cbn [List.length fold_left Z.of_nat].
    change (inject_Z 0) with 0%Q. split; lra.
  - rewrite qsum_cons.
    assert (Hlen : (inject_Z (len (x :: xs)) == inject_Z (len xs) + 1)%Q).
    { unfold len. cbn [List.length]. rewrite Nat2Z.inj_succ, <- Z.add_1_r.
      rewrite inject_Z_plus. reflexivity. }
    rewrite Hlen. destruct IH as [I1 I2]. split; lra.
Qed.

(** The mean of values within two bounds lies within them. *)
Lemma mean_bounds {A} (f : A -> Q) (lo hi : Q) (xs : list A) :
  xs <> [] ->
  Forall (fun x => lo <= f x <= hi)%Q xs ->
  (lo <= qsum (map f xs) / inject_Z (len xs) <= hi)%Q.
Proof.
  intros Hne Hall. destruct (qsum_bounds f lo hi xs Hall) as [H1 H2].
  assert (Hpos : (0 < inject_Z (len xs))%Q).
  { destruct xs; [congruence|]. change 0%Q with (inject_Z 0).
    rewrite <- Zlt_Qlt. apply len_cons_pos. }
  split.
  - apply Qle_shift_div_l; [exact Hpos|]. lra.
  - apply Qle_shift_div_r; [exact Hpos|]. lra.
Qed.

(** *** What the analysis refuses *)

Lemma traverse_raises {A B} (f : A -> result B) (xs : list A) (e : PyExc) :
  traverse f xs = Raise e -> exists x, In x xs /\ f x = Raise e.
Proof.
  induction xs as [|x xs IH]; cbn [traverse]; [discriminate|].
  destruct (f x) as [b|e'] eqn:Hx.
  - destruct (traverse f xs) as [bs|e'']; [discriminate|].
    intro H. injection H as ->. destruct (IH eq_refl) as [y [Hy Hfy]].
    exists y. split; [now right | exact Hfy].
  - intro H. injection H as ->. exists x. split; [now left | exact Hx].
Qed.

Lemma fold_left_raises {A S} (step : result S -> A -> result S)
  (xs : list A) (e : PyExc) :
  (forall e' x, step (Raise e') x = Raise e') ->
  forall acc,
    fold_left step xs (Ok acc) = Raise e ->
    exists x acc', In x xs /\ step (Ok acc') x = Raise e.
Proof.
  intro Hkeep.
  assert (Hstuck : forall ys e', fold_left step ys (Raise e') = Raise e').
  { induction ys as [|y ys IHy]; intro e'; cbn [fold_left];
      [reflexivity | now rewrite Hkeep]. }
  induction xs as [|x xs IH]; intro acc; cbn [fold_left]; [discriminate|].
  destruct (step (Ok acc) x) as [acc1|e1] eqn:Hs.
  - intro H. destruct (IH acc1 H) as [y [acc' [Hy Hsy]]].
    exists y, acc'. split; [now right | exact Hsy].
  - rewrite Hstuck. intro H. injection H as ->.
    exists x, acc. split; [now left | exact Hs].
Qed.

(** The scores of a criterion fail on a result that holds the criterion
    without the side that is asked for, and on nothing else. *)
Lemma criterion_scores_raises (criterion side : string)
  (judgments : list JudgmentResult) (e : PyExc) :
  criterion_scores criterion side judgments = Raise e ->
  e = KeyError side
  /\ exists j d, In j judgments
       /\ dict_find (criteria_scores j) criterion = Some d
       /\ dict_find d side = None.
Proof.
  unfold criterion_scores. intro H.
  apply traverse_raises in H. destruct H as [j [Hj Hf]].
  apply filter_In in Hj. destruct Hj as [Hin Hmem].
  unfold dict_mem, dict_getitem in *.
  destruct (dict_find (criteria_scores j) criterion) as [d|] eqn:Hd;
    [|discriminate].
  cbn [rbind] in Hf.
  destruct (dict_find d side) eqn:Hside; [discriminate|].
  injection Hf as <-. split; [reflexivity|].
  exists j, d. split; [exact Hin|]. split; [exact Hd | exact Hside].
Qed.

Lemma analyze_criterion_raises (judgments : list JudgmentResult)
  (acc : dict CriterionAnalysis) (criterion : string) (e : PyExc) :
  analyze_criterion judgments (Ok acc) criterion = Raise e ->
  exists side, In side ["raw_text"; "vibexml"]
    /\ criterion_scores criterion side judgments = Raise e.
Proof.
  unfold analyze_criterion. cbn [rbind].
  destruct (criterion_scores criterion "raw_text" judgments) as [rs|e1] eqn:Hr.
  - cbn [rbind].
    destruct (criterion_scores criterion "vibexml" judgments) as [vs|e2] eqn:Hv.
    + cbn [rbind]. destruct rs as [|r rs]; [discriminate|].
      destruct vs as [|v vs]; [discriminate|].
      rewrite !truediv_pos by apply len_cons_pos. discriminate.
    + cbn [rbind]. intro H. injection H as ->.
      exists "vibexml". split; [simpl; tauto | exact Hv].
  - cbn [rbind]. intro H. injection H as ->.
    exists "raw_text". split; [simpl; tauto | exact Hr].
Qed.

Lemma analyze_criteria_raises (judgments : list JudgmentResult) (e : PyExc) :
  analyze_criteria judgments = Raise e ->
  exists first rest criterion side j d,
    judgments = first :: rest
    /\ In criterion (dict_keys (criteria_scores first))
    /\ In side ["raw_text"; "vibexml"]
    /\ e = KeyError side
    /\ In j judgments
    /\ dict_find (criteria_scores j) criterion = Some d
    /\ dict_find d side = None.
Proof.
  unfold analyze_criteria. destruct judgments as [|first rest]; [discriminate|].
  intro H. apply fold_left_raises in H; [|reflexivity].
  destruct H as [criterion [acc [Hc Hs]]].
  apply analyze_criterion_raises in Hs. destruct Hs as [side [Hside Hs]].
  apply criterion_scores_raises in Hs. destruct Hs as [He [j [d [Hj [Hd Hn]]]]].
  exists first, rest, criterion, side, j, d.
  split; [reflexivity|]. split; [exact Hc|]. split; [exact Hside|].
  split; [exact He|]. split; [exact Hj|]. split; [exact Hd | exact Hn].
Qed.

(** X7. [analyze_judgments] fails in two ways only.  On an empty list it
    raises ZeroDivisionError, and on no other list.  On a list that is
    not empty it raises KeyError("raw_text") or KeyError("vibexml") when
    some result holds one of the criteria of the first result without a
    score for that side; otherwise it returns.  The test cases never make
    it fail. *)
Theorem analysis_failures (judgments : list JudgmentResult)
  (test_cases : option (list StructuredTestCase)) :
  match analyze_judgments judgments test_cases with
  | Ok _ => judgments <> []
  | Raise (ZeroDivisionError m) =>
      judgments = [] /\ m = "division by zero"
  | Raise (KeyError side) =>
      In side ["raw_text"; "vibexml"]
      /\ exists first rest criterion j d,
           judgments = first :: rest
           /\ In criterion (dict_keys (criteria_scores first))
           /\ In j judgments
           /\ dict_find (criteria_scores j) criterion = Some d
           /\ dict_find d side = None
  | Raise _ => False
  end.
Proof.
  destruct judgments as [|first rest].
  - rewrite analyze_judgments_empty. split; reflexivity.
  - unfold analyze_judgments.
    rewrite !truediv_pos by apply len_cons_pos. cbn [rbind].
    destruct (analyze_criteria (first :: rest)) as [criteria|e] eqn:Hc.
    + cbn [rbind].
      destruct (analyze_categories_returns (first :: rest) test_cases)
        as [cats Hk].
      rewrite Hk. cbn [rbind]. discriminate.
    + cbn [rbind]. apply analyze_criteria_raises in Hc.
      destruct Hc as [f [r [criterion [side [j [d H]]]]]].
      destruct H as [Hj [Hc [Hside [He [Hin [Hd Hn]]]]]]. subst e.
      split; [exact Hside|].
      exists f, r, criterion, j, d.
      split; [exact Hj|]. split; [exact Hc|]. split; [exact Hin|].
      split; [exact Hd | exact Hn].
Qed.


(** *** The averages *)

Lemma len_map {A B} (f : A -> B) (xs : list A) : len (map f xs) = len xs.
Proof. unfold len. now rewrite length_map. Qed.

(** What [analyze_judgments] returns, field by field. *)
Lemma analyze_judgments_fields (judgments : list JudgmentResult)
  (test_cases : option (list StructuredTestCase)) (a : Analysis) :
  analyze_judgments judgments test_cases = Ok a ->
  judgments <> []
  /\ average_scores a =
     mkAverageScores
       (mean (map raw_text_score judgments))
       (mean (map vibexml_score judgments))
       (mean (map vibexml_score judgments) - mean (map raw_text_score judgments))%Q
       (mean (map confidence judgments))
  /\ analyze_criteria judgments = Ok (criteria_analysis a)
  /\ analyze_categories judgments test_cases = Ok (category_analysis a)
  /\ detailed_results a =
     map (fun j => mkDetailedResult (test_case_name j) (winner j)
                     (confidence j) (vibexml_score j - raw_text_score j)%Q
                     (reasoning j))
       judgments.
Proof.
  destruct judgments as [|first rest].
  - rewrite analyze_judgments_empty. discriminate.
  - unfold analyze_judgments, mean.
    rewrite !len_map.
    rewrite !truediv_pos by apply len_cons_pos. cbn [rbind].
    destruct (analyze_criteria (first :: rest)) as [criteria|e];
      [|discriminate].
    cbn [rbind].
    destruct (analyze_categories (first :: rest) test_cases) as [cats|e];
      [|discriminate].
    cbn [rbind]. intro H. injection H as <-.
    cbn [average_scores criteria_analysis category_analysis detailed_results].
    split; [discriminate|]. repeat (split; [reflexivity|]). reflexivity.
Qed.

(** Sums of multiples of 0.5. *)
Lemma qsum_of_halves {A} (f : A -> Q) (xs : list A) :
  Forall (fun x => exists z : Z,
            (f x == inject_Z z / 2)%Q /\ (Z.abs z <= 200)%Z) xs ->
  exists z : Z,
    (qsum (map f xs) == inject_Z z / 2)%Q /\ (Z.abs z <= 200 * len xs)%Z.
Proof.
  induction 1 as [|x xs [zx [Hx Hzx]] _ [zs [Hs Hzs]]]; cbn [map].
  - exists 0%Z. split; [reflexivity | unfold len; cbn [List.length]; lia].
  - exists (zx + zs)%Z. split.
    + rewrite qsum_cons, Hx, Hs, inject_Z_plus. field.
    + unfold len in *. cbn [List.length]. lia.
Qed.

Lemma Forall_prefix {A} (P : A -> Prop) (k : nat) (xs : list A) :
  Forall P xs -> Forall P (firstn k xs).
Proof.
  intro H. revert k. induction H as [|x xs Hx _ IH]; intros [|k];
    cbn [firstn]; try constructor; [exact Hx | apply IH].
Qed.

Lemma half_between_abs (lo hi : Z) (x : Q) :
  (0 <= lo)%Z -> (hi <= 100)%Z -> half_between lo hi x ->
  exists z : Z, (x == inject_Z z / 2)%Q /\ (Z.abs z <= 200)%Z.
Proof.
  intros Hlo Hhi [z [Hx Hz]]. exists z. split; [exact Hx | lia].
Qed.

(** Added in binary64 from the left, multiples of 0.5 of at most 100
    are added without error: every partial sum is returned unchanged by
    the rounding. *)
Lemma prefix_sums_exact {A} (fl : Q -> Q) (f : A -> Q) (lo hi : Z)
  (xs : list A) :
  binary64_rounding fl ->
  (0 <= lo)%Z -> (hi <= 100)%Z -> (len xs <= 2 ^ 40)%Z ->
  Forall (fun x => half_between lo hi (f x)) xs ->
  forall k : nat,
    (fl (qsum (firstn k (map f xs))) == qsum (firstn k (map f xs)))%Q.
Proof.
  intros [_ [Hfix _]] Hlo Hhi Hlen Hall k.
  rewrite firstn_map.
  assert (Hk : Forall (fun x => exists z : Z,
                         (f x == inject_Z z / 2)%Q /\ (Z.abs z <= 200)%Z)
                 (firstn k xs)).
  { apply Forall_prefix. eapply Forall_impl; [|exact Hall].
    intros x Hx. exact (half_between_abs lo hi _ Hlo Hhi Hx). }
  destruct (qsum_of_halves f _ Hk) as [z [Hz Hb]].
  apply (Hfix _ z Hz).
  assert (Hle : (len (firstn k xs) <= len xs)%Z).
  { unfold len. rewrite length_firstn. lia. }
  assert (H53 : (200 * 2 ^ 40 <= 2 ^ 53)%Z) by (vm_compute; discriminate).
  lia.
Qed.

(** An integer of at most 100 is returned unchanged by the rounding. *)
Lemma rounding_of_integer (fl : Q -> Q) (m : Z) :
  binary64_rounding fl -> (Z.abs m <= 100)%Z ->
  (fl (inject_Z m) == inject_Z m)%Q.
Proof.
  intros [_ [Hfix _]] Hm. apply (Hfix _ (2 * m)%Z).
  - rewrite inject_Z_mult. change (inject_Z 2) with 2%Q. field.
  - assert (H53 : (200 <= 2 ^ 53)%Z) by (vm_compute; discriminate). lia.
Qed.

(** The rounding of a value between two integers of at most 100 lies
    between them. *)
Lemma rounding_between (fl : Q -> Q) (lo hi : Z) (x : Q) :
  binary64_rounding fl ->
  (Z.abs lo <= 100)%Z -> (Z.abs hi <= 100)%Z ->
  (inject_Z lo <= x <= inject_Z hi)%Q ->
  (inject_Z lo <= fl x <= inject_Z hi)%Q.
Proof.
  intros Hfl Hlo Hhi [H1 H2].
  pose proof (rounding_of_integer fl lo Hfl Hlo) as Flo.
  pose proof (rounding_of_integer fl hi Hfl Hhi) as Fhi.
  destruct Hfl as [Hmono _].
  split.
  - rewrite <- Flo. apply Hmono. exact H1.
  - rewrite <- Fhi. apply Hmono. exact H2.
Qed.

Lemma half_between_bounds (lo hi : Z) (x : Q) :
  half_between lo hi x -> (inject_Z lo <= x <= inject_Z hi)%Q.
Proof.
  intros [z [Hx [H1 H2]]]. rewrite Hx.
  rewrite Zle_Qle in H1. rewrite Zle_Qle in H2.
  rewrite inject_Z_mult in H1, H2. change (inject_Z 2) with 2%Q in H1, H2.
  split.
  - apply Qle_shift_div_l; [reflexivity | lra].
  - apply Qle_shift_div_r; [reflexivity | lra].
Qed.

(** The rounded difference of two rounded values between 0 and 100 is
    within 301 units of roundoff of their exact difference. *)
Lemma rounded_difference (fl : Q -> Q) (a b : Q) :
  binary64_rounding fl ->
  (0 <= a <= 100)%Q -> (0 <= b <= 100)%Q ->
  (Qabs (fl (fl a - fl b) - (a - b)) <= 301 * unit_roundoff)%Q.
Proof.
  intros [_ [_ Herr]] Ha Hb.
  pose proof (Herr a) as Ea. pose proof (Herr b) as Eb.
  pose proof (Herr (fl a - fl b)%Q) as Ex.
  rewrite (Qabs_pos a) in Ea by tauto. rewrite (Qabs_pos b) in Eb by tauto.
  apply Qabs_Qle_condition in Ea. apply Qabs_Qle_condition in Eb.
  unfold unit_roundoff in *.
  remember (fl a) as fa. remember (fl b) as fb.
  remember (fl (fa - fb)%Q) as fx.
  clear Heqfa Heqfb Heqfx Herr.
  apply Qabs_Qle_condition.
  destruct (Qlt_le_dec (fa - fb) 0) as [Hneg | Hpos].
  - rewrite (Qabs_neg (fa - fb)) in Ex by lra.
    apply Qabs_Qle_condition in Ex. split; lra.
  - rewrite (Qabs_pos (fa - fb)) in Ex by lra.
    apply Qabs_Qle_condition in Ex. split; lra.
Qed.

Lemma integer_is_half (lo hi z : Z) :
  (lo <= z <= hi)%Z -> half_between lo hi (inject_Z z).
Proof.
  intro Hz. exists (2 * z)%Z. split; [|lia].
  rewrite inject_Z_mult. change (inject_Z 2) with 2%Q. field.
Qed.

Lemma half_between_wider (lo hi lo' hi' : Z) (x : Q) :
  (lo' <= lo)%Z -> (hi <= hi')%Z ->
  half_between lo hi x -> half_between lo' hi' x.
Proof. intros H1 H2 [z [Hx Hz]]. exists z. split; [exact Hx | lia]. Qed.

(** The scores of a result mapped from a valid judgment are integers
    from 60 to 95, its confidence an integer from 50 to 100. *)
Lemma mapped_scores_are_integers (name : string) (b : bool)
  (data : StructuredJudgment) (r : JudgmentResult) :
  StructuredJudgment_valid data = true ->
  map_judgment name b data = Ok r ->
  half_between 60 95 (raw_text_score r)
  /\ half_between 60 95 (vibexml_score r)
  /\ half_between 50 100 (confidence r).
Proof.
  intros Hv Hmap. unfold StructuredJudgment_valid in Hv.
  repeat match goal with
         | H : _ && _ = true |- _ => apply andb_prop in H; destruct H
         end.
  repeat match goal with
         | H : in_range _ _ _ = true |- _ =>
             apply JudgeMore.in_range_spec in H
         end.
  unfold map_judgment in Hmap.
  destruct (dict_getitem (winner_map b) (sj_winner data)) as [label|e];
    [|destruct b; discriminate].
  destruct b; cbn [rbind] in Hmap; inversion Hmap; subst r;
    cbn [raw_text_score vibexml_score confidence];
    (split; [apply integer_is_half; assumption|]);
    (split; apply integer_is_half; assumption).
Qed.

(** The scores of the fallback judgment are multiples of 0.5 from 0 to
    100, its confidence is 50. *)
Lemma fallback_scores_are_halves (self : LLMJudge) (name raw vib : string) :
  let j := _fallback_judgment self name raw vib in
  half_between 0 100 (raw_text_score j)
  /\ half_between 0 100 (vibexml_score j)
  /\ half_between 50 100 (confidence j).
Proof.
  cbv zeta. unfold _fallback_judgment.
  cbn [raw_text_score vibexml_score confidence].
  split; [|split].
  - exists (capped_words raw). split.
    + apply JudgeMore.fallback_score_capped, len_nonneg.
    + pose proof (len_nonneg (split raw)). unfold capped_words. lia.
  - exists (capped_words vib). split.
    + apply JudgeMore.fallback_score_capped, len_nonneg.
    + pose proof (len_nonneg (split vib)). unfold capped_words. lia.
  - exists 100%Z. split; [reflexivity | lia].
Qed.

(** Every result of [judge_responses] has scores that are multiples of
    0.5 from 0 to 100 and a confidence that is one from 50 to 100. *)
Lemma judge_results_are_halves {RM : RandomModule} (self : LLMJudge)
  (name task : string) (adv : list string) (raw vib : string) (w w' : World)
  (r : JudgmentResult) :
  judge_responses self name task adv raw vib w = (Ok r, w') ->
  half_between 0 100 (raw_text_score r)
  /\ half_between 0 100 (vibexml_score r)
  /\ half_between 50 100 (confidence r).
Proof.
  intro Hj.
  destruct (judge_responses_outcome self name task adv raw vib w)
    as [prompt [r0 [w0 [_ [Hj0 [_ [_ [_ Hcase]]]]]]]].
  rewrite Hj in Hj0. inversion Hj0. subst r0 w0. clear Hj0.
  destruct (fst (agent_requests (judge_provider self) (provider_calls w)
                   prompt)) as [data | e].
  - destruct Hcase as [Hv Hmap].
    destruct (mapped_scores_are_integers name _ data r Hv Hmap)
      as [H1 [H2 H3]].
    split; [|split; [|exact H3]];
      eapply half_between_wider; try eassumption; lia.
  - destruct Hcase as [Hr _]. rewrite Hr.
    exact (fallback_scores_are_halves self name raw vib).
Qed.

(** X8. The averages of the analysis, as binary64 computes them.  The
    scores and the confidence of the results being multiples of 0.5
    between two integers from 0 to 100, as the judge returns them
    ([judge_results_are_halves]), and the results being at most [2^40], every partial sum is exact, so
    that each average is the rounding of the exact quotient of the sum
    by the number of results, and it lies between the two integers that
    bound the values.  The advantage of the structured format is the
    rounded difference of the two rounded averages: it lies between the
    bounds of a difference, and it is within 301 units of roundoff of
    the exact mean of the score differences listed in the detailed
    results, which list the results in their order. *)
Theorem averages_of_the_analysis (judgments : list JudgmentResult)
  (test_cases : option (list StructuredTestCase)) (a : Analysis)
  (lo hi clo chi : Z) (fl : Q -> Q) :
  analyze_judgments judgments test_cases = Ok a ->
  binary64_rounding fl ->
  (0 <= lo)%Z -> (hi <= 100)%Z -> (0 <= clo)%Z -> (chi <= 100)%Z ->
  (len judgments <= 2 ^ 40)%Z ->
  Forall (fun j => half_between lo hi (raw_text_score j)
                   /\ half_between lo hi (vibexml_score j)
                   /\ half_between clo chi (confidence j)) judgments ->
  let avg := average_scores a in
  (forall k : nat,
     (fl (qsum (firstn k (map raw_text_score judgments)))
      == qsum (firstn k (map raw_text_score judgments)))%Q
     /\ (fl (qsum (firstn k (map vibexml_score judgments)))
         == qsum (firstn k (map vibexml_score judgments)))%Q
     /\ (fl (qsum (firstn k (map confidence judgments)))
         == qsum (firstn k (map confidence judgments)))%Q)
  /\ avg_raw_text avg = mean (map raw_text_score judgments)
  /\ avg_vibexml avg = mean (map vibexml_score judgments)
  /\ average_confidence avg = mean (map confidence judgments)
  /\ (inject_Z lo <= fl (avg_raw_text avg) <= inject_Z hi)%Q
  /\ (inject_Z lo <= fl (avg_vibexml avg) <= inject_Z hi)%Q
  /\ (inject_Z clo <= fl (average_confidence avg) <= inject_Z chi)%Q
  /\ avg_vibexml_advantage avg = (avg_vibexml avg - avg_raw_text avg)%Q
  /\ (inject_Z (lo - hi)
      <= fl (fl (avg_vibexml avg) - fl (avg_raw_text avg))
      <= inject_Z (hi - lo))%Q
  /\ (Qabs (fl (fl (avg_vibexml avg) - fl (avg_raw_text avg))
            - mean (map score_difference (detailed_results a)))
      <= 301 * unit_roundoff)%Q
  /\ map dr_test_case (detailed_results a) = map test_case_name judgments
  /\ map dr_winner (detailed_results a) = map winner judgments.
Proof.
  intros Ha Hfl Hlo Hhi Hclo Hchi Hlen Hall avg.
  destruct (analyze_judgments_fields _ _ _ Ha) as [Hne [Havg [_ [_ Hd]]]].
  assert (Hr : Forall (fun j => half_between lo hi (raw_text_score j))
                 judgments)
    by (eapply Forall_impl; [|exact Hall]; intros j [H _]; exact H).
  assert (Hv : Forall (fun j => half_between lo hi (vibexml_score j))
                 judgments)
    by (eapply Forall_impl; [|exact Hall]; intros j [_ [H _]]; exact H).
  assert (Hc : Forall (fun j => half_between clo chi (confidence j))
                 judgments)
    by (eapply Forall_impl; [|exact Hall]; intros j [_ [_ H]]; exact H).
  assert (Hbounds : forall (f : JudgmentResult -> Q) (l h : Z),
            Forall (fun j => half_between l h (f j)) judgments ->
            (inject_Z l <= mean (map f judgments) <= inject_Z h)%Q).
  { intros f l h Hf. unfold mean. rewrite len_map.
    apply mean_bounds; [exact Hne|].
    eapply Forall_impl; [|exact Hf].
    intros j Hj. exact (half_between_bounds _ _ _ Hj). }
  assert (Hlohi : (lo <= hi)%Z).
  { destruct judgments as [|j js]; [congruence|].
    inversion Hr as [|? ? [z [_ Hz]] _]. lia. }
  assert (Hclohi : (clo <= chi)%Z).
  { destruct judgments as [|j js]; [congruence|].
    inversion Hc as [|? ? [z [_ Hz]] _]. lia. }
  pose proof (Hbounds raw_text_score lo hi Hr) as Br.
  pose proof (Hbounds vibexml_score lo hi Hv) as Bv.
  pose proof (Hbounds confidence clo chi Hc) as Bc.
  unfold avg. rewrite Havg, Hd.
  cbn [avg_raw_text avg_vibexml average_confidence avg_vibexml_advantage].
  rewrite !map_map. cbn [score_difference dr_test_case dr_winner].
  split.
  { intro k. split; [|split].
    - exact (prefix_sums_exact fl raw_text_score lo hi judgments Hfl Hlo Hhi
               Hlen Hr k).
    - exact (prefix_sums_exact fl vibexml_score lo hi judgments Hfl Hlo Hhi
               Hlen Hv k).
    - exact (prefix_sums_exact fl confidence clo chi judgments Hfl Hclo Hchi
               Hlen Hc k). }
  split; [reflexivity|]. split; [reflexivity|]. split; [reflexivity|].
  pose proof (rounding_between fl lo hi _ Hfl ltac:(lia) ltac:(lia) Br) as Fr.
  pose proof (rounding_between fl lo hi _ Hfl ltac:(lia) ltac:(lia) Bv) as Fv.
  split; [exact Fr|]. split; [exact Fv|].
  split.
  { exact (rounding_between fl clo chi _ Hfl ltac:(lia) ltac:(lia) Bc). }
  split; [reflexivity|].
  assert (Hzero : (inject_Z 0 <= inject_Z lo)%Q /\ (inject_Z hi <= inject_Z 100)%Q)
    by (split; rewrite <- Zle_Qle; assumption).
  change (inject_Z 0) with 0%Q in Hzero. change (inject_Z 100) with 100%Q in Hzero.
  split.
  { apply (rounding_between fl (lo - hi) (hi - lo) _ Hfl); [lia | lia |].
    unfold Z.sub. rewrite !inject_Z_plus, !inject_Z_opp. split; lra. }
  assert (Hmean :
    (mean (map (fun j => vibexml_score j - raw_text_score j) judgments)
     == mean (map vibexml_score judgments)
        - mean (map raw_text_score judgments))%Q).
  { unfold mean. rewrite !len_map.
    rewrite (qsum_difference vibexml_score raw_text_score judgments).
    assert (Hpos : (0 < inject_Z (len judgments))%Q).
    { destruct judgments; [congruence|]. change 0%Q with (inject_Z 0).
      rewrite <- Zlt_Qlt. apply len_cons_pos. }
    field. intro H0. rewrite H0 in Hpos. exact (Qlt_irrefl _ Hpos). }
  split; [|split; reflexivity].
  rewrite Hmean.
  apply rounded_difference; [exact Hfl | split; lra | split; lra].
Qed.


Lemma exact_is_binary64_rounding : binary64_rounding (fun x : Q => x).
Proof.
  split; [intros x y H; exact H|]. split; [intros x z _ _; reflexivity|].
  intro x. setoid_replace (x - x)%Q with 0%Q by ring.
  change (Qabs 0) with 0%Q.
  apply Qmult_le_0_compat; [discriminate | apply Qabs_nonneg].
Qed.

Lemma averages_of_the_analysis_witness :
  exists a,
    analyze_judgments Examples.four_results None = Ok a
    /\ (70 <= avg_raw_text (average_scores a) <= 90)%Q
    /\ (70 <= avg_vibexml (average_scores a) <= 90)%Q
    /\ avg_vibexml_advantage (average_scores a)
       = (avg_vibexml (average_scores a) - avg_raw_text (average_scores a))%Q.
Proof.
  destruct (analyze_judgments Examples.four_results None) as [a|e] eqn:Ha;
    [|vm_compute in Ha; discriminate Ha].
  exists a. split; [reflexivity|].
  assert (Hhalf : forall m : Z, (70 <= m <= 90)%Z ->
                    half_between 70 90 (inject_Z m)).
  { intros m Hm. exists (2 * m)%Z. split; [|lia].
    rewrite inject_Z_mult. change (inject_Z 2) with 2%Q. field. }
  assert (Hall : Forall (fun j => half_between 70 90 (raw_text_score j)
                   /\ half_between 70 90 (vibexml_score j)
                   /\ half_between 80 80 (confidence j)) Examples.four_results).
  { repeat (apply Forall_cons;
      [cbn [Examples.result_of raw_text_score vibexml_score confidence];
       split; [apply Hhalf; lia|];
       split; [apply Hhalf; lia | exists 160%Z; split; [reflexivity | lia]]|]).
    apply Forall_nil. }
  destruct (averages_of_the_analysis _ None a 70 90 80 80 (fun x => x) Ha
              exact_is_binary64_rounding ltac:(lia) ltac:(lia) ltac:(lia)
              ltac:(lia) ltac:(vm_compute; discriminate) Hall)
    as [_ [_ [_ [_ [H1 [H2 [_ [H4 _]]]]]]]].
  split; [exact H1|]. split; [exact H2 | exact H4].
Defined.


(** *** The criteria *)

Lemma traverse_map {A B} (f : A -> result B) (g : A -> B) (xs : list A)
  (bs : list B) :
  (forall x b, f x = Ok b -> b = g x) ->
  traverse f xs = Ok bs -> bs = map g xs.
Proof.
  intro Hfg. revert bs. induction xs as [|x xs IH]; intros bs; cbn [traverse map].
  - intro H. now injection H as <-.
  - destruct (f x) as [b|e] eqn:Hx; [|discriminate].
    destruct (traverse f xs) as [bs'|e]; [|discriminate].
    intro H. injection H as <-. f_equal; [now apply Hfg | now apply IH].
Qed.

(** The scores that the analysis collects for a criterion are those of
    the results that hold it. *)
Lemma criterion_scores_value (criterion side : string)
  (judgments : list JudgmentResult) (scores : list Q) :
  criterion_scores criterion side judgments = Ok scores ->
  scores = scores_for criterion side judgments.
Proof.
  unfold criterion_scores, scores_for. apply traverse_map.
  intros j b. unfold dict_getitem, dict_get.
  destruct (dict_find (criteria_scores j) criterion) as [d|]; [|discriminate].
  cbn [rbind]. destruct (dict_find d side); [|discriminate].
  intro H. now injection H.
Qed.

Lemma scores_for_first (criterion side : string)
  (first : JudgmentResult) (rest : list JudgmentResult) :
  In criterion (dict_keys (criteria_scores first)) ->
  scores_for criterion side (first :: rest) <> [].
Proof.
  intro Hin. apply dict_mem_keys in Hin.
  unfold scores_for. cbn [filter]. rewrite Hin. discriminate.
Qed.

(** One turn of the loop over the criteria, for a criterion of the first
    result. *)
Lemma analyze_criterion_value (first : JudgmentResult)
  (rest : list JudgmentResult) (acc r : dict CriterionAnalysis)
  (criterion : string) :
  In criterion (dict_keys (criteria_scores first)) ->
  analyze_criterion (first :: rest) (Ok acc) criterion = Ok r ->
  r = dict_setitem acc criterion (criterion_entry criterion (first :: rest)).
Proof.
  intros Hin. unfold analyze_criterion. cbn [rbind].
  destruct (criterion_scores criterion "raw_text" (first :: rest))
    as [rs|e] eqn:Hr; [|discriminate].
  destruct (criterion_scores criterion "vibexml" (first :: rest))
    as [vs|e] eqn:Hv; [|discriminate].
  cbn [rbind].
  apply criterion_scores_value in Hr, Hv.
  pose proof (scores_for_first criterion "raw_text" first rest Hin) as Hrn.
  pose proof (scores_for_first criterion "vibexml" first rest Hin) as Hvn.
  unfold criterion_entry, mean. rewrite <- Hr, <- Hv in *.
  destruct rs as [|x rs]; [congruence|].
  destruct vs as [|y vs]; [congruence|].
  rewrite !truediv_pos by apply len_cons_pos. cbn [rbind].
  intro H. now injection H.
Qed.

Lemma analyze_criteria_fold (first : JudgmentResult)
  (rest : list JudgmentResult) (ks : list string) :
  forall acc r : dict CriterionAnalysis,
    (forall k, In k ks -> In k (dict_keys (criteria_scores first))) ->
    NoDup ks ->
    (forall k, In k ks -> ~ In k (dict_keys acc)) ->
    fold_left (analyze_criterion (first :: rest)) ks (Ok acc) = Ok r ->
    r = (acc ++ map (fun k => (k, criterion_entry k (first :: rest))) ks)%list.
Proof.
  induction ks as [|k ks IH]; intros acc r Hsub Hnd Hfresh; cbn [fold_left map].
  - intro H. injection H as <-. now rewrite app_nil_r.
  - destruct (analyze_criterion (first :: rest) (Ok acc) k) as [acc1|e] eqn:Hs.
    + apply analyze_criterion_value in Hs; [|apply Hsub; now left].
      rewrite dict_setitem_new in Hs by (apply Hfresh; now left).
      subst acc1. intro H. inversion Hnd as [|? ? Hk Hnd']; subst.
      apply IH in H.
      * rewrite H, <- app_assoc. reflexivity.
      * intros k' Hk'. apply Hsub. now right.
      * exact Hnd'.
      * intros k' Hk'. unfold dict_keys. rewrite map_app, in_app_iff.
        cbn [map fst In]. intros [Hin | [Heq | []]].
        -- apply (Hfresh k'); [now right | exact Hin].
        -- subst k'. contradiction.
    + assert (Hstuck : forall ys e', fold_left (analyze_criterion (first :: rest))
                 ys (Raise e') = Raise e').
      { induction ys as [|y ys IHy]; intro e'; cbn [fold_left];
          [reflexivity | apply IHy]. }
      rewrite Hstuck. discriminate.
Qed.

(** X9. When [analyze_judgments] returns, its criteria analysis has one
    entry for each criterion of the first result, in the order of that
    result.  The two averages of an entry are the means of the scores of
    the results that hold the criterion: a result without the criterion
    is left out of both and a criterion that the first result lacks is
    not analysed. *)
Theorem criteria_of_the_analysis (first : JudgmentResult)
  (rest : list JudgmentResult)
  (test_cases : option (list StructuredTestCase)) (a : Analysis) :
  NoDup (dict_keys (criteria_scores first)) ->
  analyze_judgments (first :: rest) test_cases = Ok a ->
  criteria_analysis a =
  map (fun k => (k, criterion_entry k (first :: rest)))
    (dict_keys (criteria_scores first)).
Proof.
  intros Hnd Ha.
  destruct (analyze_judgments_fields _ _ _ Ha) as [_ [_ [Hc _]]].
  unfold analyze_criteria in Hc.
  apply analyze_criteria_fold in Hc.
  - exact Hc.
  - intros k Hk. exact Hk.
  - exact Hnd.
  - intros k _ [].
Qed.


Lemma criteria_of_the_analysis_witness :
  exists a,
    analyze_judgments Samples.three_results (Some Samples.three_cases) = Ok a
    /\ criteria_analysis a =
       map (fun k => (k, criterion_entry k Samples.three_results))
         ["accuracy_completeness"; "precision_specificity"].
Proof.
  destruct (analyze_judgments Samples.three_results (Some Samples.three_cases))
    as [a|e] eqn:Ha; [|vm_compute in Ha; discriminate Ha].
  exists a. split; [reflexivity|].
  apply (criteria_of_the_analysis
           (Samples.graded "invoice" "vibexml" 70 86)
           [Examples.result_of "memo" "tie" 80 80;
            Samples.graded "ledger" "raw_text" 84 72]
           (Some Samples.three_cases) a); [|exact Ha].
  apply NoDup_cons; [intros [H | []]; discriminate H|].
  apply NoDup_cons; [intros [] | apply NoDup_nil].
Defined.


(** *** The categories *)

Lemma dict_setitem_twice {V} (d : dict V) (k : string) (u v : V) :
  dict_setitem (dict_setitem d k u) k v = dict_setitem d k v.
Proof.
  induction d as [|[k' v'] d IH]; cbn [dict_setitem].
  - now rewrite String.eqb_refl.
  - destruct (String.eqb k' k) eqn:E; cbn [dict_setitem]; rewrite E;
      [reflexivity | now rewrite IH].
Qed.

Lemma dict_find_setitem {V} (d : dict V) (k k2 : string) (v : V) :
  dict_find (dict_setitem d k v) k2 =
  if String.eqb k k2 then Some v else dict_find d k2.
Proof.
  destruct (String.eqb k k2) eqn:E.
  - apply String.eqb_eq in E. subst k2. apply dict_find_setitem_same.
  - apply String.eqb_neq in E. now apply dict_find_setitem_other.
Qed.

Lemma dict_keys_setitem {V} (d : dict V) (k : string) (v : V) :
  dict_keys (dict_setitem d k v) =
  if in_dec string_dec k (dict_keys d) then dict_keys d
  else (dict_keys d ++ [k])%list.
Proof.
  destruct (in_dec string_dec k (dict_keys d)) as [Hin | Hnot].
  - now apply dict_keys_setitem_old.
  - rewrite dict_setitem_new by exact Hnot.
    unfold dict_keys. now rewrite map_app.
Qed.

(** The name-to-category dictionary of the test cases gives each name
    the category of the last test case that bears it. *)
Lemma case_categories_find (tcs : list StructuredTestCase) (n : string) :
  dict_find (fold_left (fun d tc => dict_setitem d (name tc) (category tc)) tcs [])
    n =
  option_map category (find (fun tc => String.eqb (name tc) n) (rev tcs)).
Proof.
  induction tcs as [|tc tcs IH] using rev_ind.
  - reflexivity.
  - rewrite fold_left_app, rev_app_distr. cbn [fold_left rev app find].
    rewrite dict_find_setitem.
    destruct (String.eqb (name tc) n); [reflexivity | exact IH].
Qed.

Lemma case_categories_get (tcs : list StructuredTestCase) (j : JudgmentResult) :
  dict_get (fold_left (fun d tc => dict_setitem d (name tc) (category tc)) tcs [])
    (test_case_name j) "unknown" =
  category_of tcs j.
Proof.
  unfold dict_get, category_of. rewrite case_categories_find.
  destruct (find _ (rev tcs)); reflexivity.
Qed.

(** One turn of the grouping loop stores the result at the end of the
    list of its category. *)
Lemma group_step (categories : dict (list JudgmentResult)) (c : string)
  (j : JudgmentResult) :
  (let categories' :=
     if dict_mem categories c then categories
     else dict_setitem categories c [] in
   dict_setitem categories' c (dict_get categories' c [] ++ [j])%list) =
  dict_setitem categories c (dict_get categories c [] ++ [j])%list.
Proof.
  cbv zeta. unfold dict_mem, dict_get.
  destruct (dict_find categories c) eqn:E; cbv beta iota.
  - now rewrite E.
  - rewrite dict_find_setitem_same, dict_setitem_twice. reflexivity.
Qed.

Lemma group_by_category_snoc (cc : dict string) (js : list JudgmentResult)
  (j : JudgmentResult) :
  group_by_category cc (js ++ [j]) =
  let c := dict_get cc (test_case_name j) "unknown" in
  dict_setitem (group_by_category cc js) c
    (dict_get (group_by_category cc js) c [] ++ [j])%list.
Proof.
  unfold group_by_category. rewrite fold_left_app. cbn [fold_left].
  apply group_step.
Qed.

Lemma first_seen_snoc (l : list string) (x : string) :
  first_seen (l ++ [x]) =
  if in_dec string_dec x (first_seen l) then first_seen l
  else (first_seen l ++ [x])%list.
Proof.
  unfold first_seen. rewrite rev_app_distr. cbn [rev app nodup].
  destruct (in_dec string_dec x (rev l)) as [Hin | Hnot];
    destruct (in_dec string_dec x (rev (nodup string_dec (rev l))))
      as [Hin' | Hnot']; try reflexivity.
  - exfalso. apply Hnot'. rewrite <- in_rev. now apply nodup_In.
  - exfalso. apply Hnot. rewrite <- in_rev in Hin'.
    now apply nodup_In in Hin'.
Qed.

Lemma In_first_seen (l : list string) (x : string) :
  In x (first_seen l) <-> In x l.
Proof.
  unfold first_seen. rewrite <- in_rev, nodup_In, <- in_rev. tauto.
Qed.

Lemma NoDup_first_seen (l : list string) : NoDup (first_seen l).
Proof. unfold first_seen. apply NoDup_rev, NoDup_nodup. Qed.

Lemma filter_none {A} (p : A -> bool) (l : list A) :
  (forall x, In x l -> p x = false) -> filter p l = [].
Proof.
  induction l as [|x l IH]; intro H; cbn [filter]; [reflexivity|].
  rewrite (H x (or_introl eq_refl)). apply IH. intros y Hy. apply H. now right.
Qed.

(** The grouping: the categories in the order in which they first
    appear, each with its results in their order. *)
Lemma group_by_category_spec (cc : dict string) (js : list JudgmentResult) :
  let cat := fun j => dict_get cc (test_case_name j) "unknown" in
  dict_keys (group_by_category cc js) = first_seen (map cat js)
  /\ forall c,
       dict_find (group_by_category cc js) c =
       if in_dec string_dec c (map cat js)
       then Some (filter (fun j => String.eqb (cat j) c) js)
       else None.
Proof.
  intro cat. induction js as [|j js [IHk IHf]] using rev_ind.
  - split; [reflexivity|]. intro c. reflexivity.
  - rewrite group_by_category_snoc. cbv zeta. fold (cat j).
    split.
    + rewrite dict_keys_setitem, map_app. cbn [map].
      rewrite first_seen_snoc, IHk. reflexivity.
    + intro c. rewrite dict_find_setitem, filter_app, map_app.
      cbn [filter map]. unfold dict_get. rewrite (IHf (cat j)), (IHf c).
      destruct (String.eqb (cat j) c) eqn:E.
      * apply String.eqb_eq in E. subst c.
        destruct (in_dec string_dec (cat j) (map cat js ++ [cat j])) as [_ | Hn];
          [|exfalso; apply Hn; apply in_or_app; right; now left].
        destruct (in_dec string_dec (cat j) (map cat js)) as [Hin | Hnot];
          [reflexivity|].
        rewrite filter_none; [reflexivity|].
        intros x Hx. apply String.eqb_neq. intro Heq. apply Hnot.
        rewrite <- Heq. now apply in_map.
      * rewrite app_nil_r.
        destruct (in_dec string_dec c (map cat js)) as [Hin | Hnot];
          destruct (in_dec string_dec c (map cat js ++ [cat j])) as [Hin' | Hnot'];
          try reflexivity.
        -- exfalso. apply Hnot'. apply in_or_app. now left.
        -- exfalso. apply in_app_or in Hin'. destruct Hin' as [H | [H | []]].
           ++ contradiction.
           ++ apply String.eqb_neq in E. congruence.
Qed.


Lemma dict_find_NoDup {V} (d : dict V) (k : string) (v : V) :
  NoDup (dict_keys d) -> In (k, v) d -> dict_find d k = Some v.
Proof.
  induction d as [|[k' v'] d IH]; cbn [dict_keys map fst dict_find In];
    intros Hnd Hin; [contradiction|].
  inversion Hnd as [|? ? Hk Hnd']; subst.
  destruct Hin as [Heq | Hin].
  - injection Heq as -> ->. now rewrite String.eqb_refl.
  - destruct (String.eqb k' k) eqn:E.
    + apply String.eqb_eq in E. subst k'. exfalso. apply Hk.
      change k with (fst (k, v)). now apply in_map.
    + now apply IH.
Qed.

Lemma zsum_app (xs ys : list Z) : zsum (xs ++ ys) = (zsum xs + zsum ys)%Z.
Proof.
  unfold zsum. induction xs as [|x xs IH]; cbn [app fold_right]; [reflexivity|].
  rewrite IH. lia.
Qed.

Lemma group_sizes_setitem (d : dict (list JudgmentResult)) (k : string)
  (v : list JudgmentResult) :
  zsum (map (fun kv => len (snd kv)) (dict_setitem d k v)) =
  (zsum (map (fun kv => len (snd kv)) d) - len (dict_get d k []) + len v)%Z.
Proof.
  unfold dict_get.
  induction d as [|[k' v'] d IH]; cbn [dict_setitem dict_find map zsum fold_right snd].
  - unfold len. cbn [List.length]. lia.
  - destruct (String.eqb k' k) eqn:E; cbn [map zsum fold_right snd].
    + lia.
    + fold (zsum (map (fun kv => len (snd kv)) (dict_setitem d k v))).
      rewrite IH. fold (zsum (map (fun kv => len (snd kv)) d)). lia.
Qed.

(** Every result is in one group. *)
Lemma group_sizes (cc : dict string) (js : list JudgmentResult) :
  zsum (map (fun kv => len (snd kv)) (group_by_category cc js)) = len js.
Proof.
  induction js as [|j js IH] using rev_ind; [reflexivity|].
  rewrite group_by_category_snoc. cbv zeta.
  rewrite group_sizes_setitem, IH. unfold len. rewrite !length_app.
  cbn [List.length]. lia.
Qed.

Lemma analyze_category_value (acc : dict CategoryAnalysis) (c : string)
  (g : list JudgmentResult) :
  g <> [] ->
  analyze_category (Ok acc) (c, g) = Ok (dict_setitem acc c (category_entry g)).
Proof.
  intro Hne. unfold analyze_category. cbn [rbind].
  destruct g as [|j g]; [congruence|].
  rewrite !truediv_pos by apply len_cons_pos. cbn [rbind]. reflexivity.
Qed.

Lemma analyze_categories_fold (groups : dict (list JudgmentResult)) :
  forall acc : dict CategoryAnalysis,
    NoDup (dict_keys groups) ->
    (forall k, In k (dict_keys groups) -> ~ In k (dict_keys acc)) ->
    Forall (fun kv => snd kv <> []) groups ->
    fold_left analyze_category groups (Ok acc) =
    Ok (acc ++ map (fun kv => (fst kv, category_entry (snd kv))) groups)%list.
Proof.
  induction groups as [|[c g] groups IH]; intros acc Hnd Hfresh Hne;
    cbn [fold_left map fst snd].
  - now rewrite app_nil_r.
  - inversion Hne as [|? ? Hg Hne']; subst. cbn [snd] in Hg.
    cbn [dict_keys map fst] in Hnd.
    inversion Hnd as [|? ? Hc Hnd']; subst.
    rewrite analyze_category_value by exact Hg.
    rewrite dict_setitem_new by (apply Hfresh; now left).
    rewrite IH.
    + now rewrite <- app_assoc.
    + exact Hnd'.
    + intros k Hk. unfold dict_keys. rewrite map_app, in_app_iff.
      cbn [map fst In]. intros [Hin | [Heq | []]].
      * apply (Hfresh k); [now right | exact Hin].
      * subst k. contradiction.
    + exact Hne'.
Qed.

(** The category analysis, from the groups. *)
Lemma analyze_categories_value (js : list JudgmentResult)
  (tc : StructuredTestCase) (tcs : list StructuredTestCase) :
  exists groups,
    analyze_categories js (Some (tc :: tcs)) =
    Ok (map (fun kv => (fst kv, category_entry (snd kv))) groups)
    /\ dict_keys groups = first_seen (map (category_of (tc :: tcs)) js)
    /\ (forall c, In c (dict_keys groups) ->
          dict_find groups c = Some (in_category (tc :: tcs) c js)
          /\ in_category (tc :: tcs) c js <> [])
    /\ zsum (map (fun kv => len (snd kv)) groups) = len js.
Proof.
  unfold analyze_categories.
  set (cc := fold_left (fun d t => dict_setitem d (name t) (category t))
               (tc :: tcs) []).
  exists (group_by_category cc js).
  destruct (group_by_category_spec cc js) as [Hk Hf].
  assert (Hcat : map (fun j => dict_get cc (test_case_name j) "unknown") js
                 = map (category_of (tc :: tcs)) js).
  { apply map_ext. intro j. apply case_categories_get. }
  assert (Hfil : forall c,
            filter (fun j => String.eqb
                      (dict_get cc (test_case_name j) "unknown") c) js
            = in_category (tc :: tcs) c js).
  { intro c. unfold in_category. apply filter_ext. intro j.
    unfold cc. now rewrite case_categories_get. }
  rewrite Hcat in Hk.
  assert (Hgroups : forall c, In c (dict_keys (group_by_category cc js)) ->
            dict_find (group_by_category cc js) c
            = Some (in_category (tc :: tcs) c js)
            /\ in_category (tc :: tcs) c js <> []).
  { intros c Hc. rewrite Hk in Hc. apply (proj1 (In_first_seen _ _)) in Hc.
    rewrite Hf, Hcat, Hfil.
    destruct (in_dec string_dec c (map (category_of (tc :: tcs)) js));
      [|contradiction].
    split; [reflexivity|].
    apply in_map_iff in Hc. destruct Hc as [j [Hj Hin]].
    intro Hempty.
    assert (Hjin : In j (in_category (tc :: tcs) c js)).
    { unfold in_category. apply filter_In. split; [exact Hin|].
      now apply String.eqb_eq. }
    rewrite Hempty in Hjin. exact Hjin. }
  split; [|split; [exact Hk | split; [exact Hgroups | apply group_sizes]]].
  change (fold_left analyze_category (group_by_category cc js) (Ok [])
          = Ok ([] ++ map (fun kv => (fst kv, category_entry (snd kv)))
                        (group_by_category cc js))%list).
  apply analyze_categories_fold.
  - rewrite Hk. apply NoDup_first_seen.
  - intros k _ [].
  - apply Forall_forall. intros [c g] Hin. cbn [snd].
    assert (Hc : In c (dict_keys (group_by_category cc js))).
    { change c with (fst (c, g)). now apply in_map. }
    destruct (Hgroups c Hc) as [Hfind Hne].
    rewrite (dict_find_NoDup _ c g) in Hfind.
    + injection Hfind as ->. exact Hne.
    + rewrite Hk. apply NoDup_first_seen.
    + exact Hin.
Qed.

Lemma dict_find_map_values {U V} (f : U -> V) (d : dict U) (k : string) :
  dict_find (map (fun kv => (fst kv, f (snd kv))) d) k =
  option_map f (dict_find d k).
Proof.
  induction d as [|[k' v'] d IH]; cbn [map dict_find fst snd]; [reflexivity|].
  destruct (String.eqb k' k); [reflexivity | exact IH].
Qed.

(** X10. The category analysis of [analyze_judgments].  Without test
    cases, or with an empty list of them, it is empty.  Otherwise each
    result goes under the category of the last test case that bears its
    name, or under "unknown" when none does; the categories come in the
    order in which they first appear among the results, none of them is
    empty, each entry is computed from the results of its category
    alone, and the totals of the entries add up to the number of
    results. *)
Theorem categories_of_the_analysis (judgments : list JudgmentResult)
  (test_cases : option (list StructuredTestCase)) (a : Analysis) :
  analyze_judgments judgments test_cases = Ok a ->
  (given_cases test_cases = [] -> category_analysis a = [])
  /\ (given_cases test_cases <> [] ->
      dict_keys (category_analysis a) =
      first_seen (map (category_of (given_cases test_cases)) judgments)
      /\ (forall c, In c (dict_keys (category_analysis a)) ->
            dict_find (category_analysis a) c =
            Some (category_entry
                    (in_category (given_cases test_cases) c judgments))
            /\ in_category (given_cases test_cases) c judgments <> [])
      /\ zsum (map (fun kv => cat_total_tests (snd kv)) (category_analysis a))
         = len judgments).
Proof.
  intro Ha.
  destruct (analyze_judgments_fields _ _ _ Ha) as [_ [_ [_ [Hc _]]]].
  split.
  - intro Hnone. destruct test_cases as [[|tc tcs]|]; cbn [given_cases] in Hnone;
      try discriminate Hnone; cbn [analyze_categories] in Hc;
      now injection Hc as <-.
  - intro Hsome. destruct test_cases as [[|tc tcs]|]; cbn [given_cases] in *;
      try congruence.
    destruct (analyze_categories_value judgments tc tcs)
      as [groups [Hv [Hk [Hg Hs]]]].
    rewrite Hv in Hc. injection Hc as <-.
    assert (Hkeys : dict_keys (map (fun kv => (fst kv, category_entry (snd kv)))
                      groups) = dict_keys groups).
    { unfold dict_keys. rewrite map_map. reflexivity. }
    rewrite Hkeys. split; [exact Hk|]. split.
    + intros c Hin. destruct (Hg c Hin) as [Hf Hne].
      rewrite dict_find_map_values, Hf. split; [reflexivity | exact Hne].
    + rewrite map_map. cbn [snd category_entry cat_total_tests]. exact Hs.
Qed.

Lemma categories_of_the_analysis_witness :
  exists a,
    analyze_judgments Samples.three_results (Some Samples.three_cases) = Ok a
    /\ dict_keys (category_analysis a) = ["finance"; "unknown"]
    /\ zsum (map (fun kv => cat_total_tests (snd kv)) (category_analysis a))
       = 3%Z.
Proof.
  destruct (analyze_judgments Samples.three_results (Some Samples.three_cases))
    as [a|e] eqn:Ha; [|vm_compute in Ha; discriminate Ha].
  exists a. split; [reflexivity|].
  destruct (categories_of_the_analysis _ _ a Ha) as [_ H].
  destruct H as [Hk [_ Hs]]; [discriminate|].
  split; [exact Hk | exact Hs].
Defined.


End AnalysisMore.

(** ** More about the statistics *)

Module AcademicMore.

Import Py PyFacts Judge JudgeFacts Academic Views.
Local Open Scope string_scope.

(** *** The pairs of judges *)

Lemma judge_pairs_In (n i j : nat) :
  In (i, j) (judge_pairs n) <-> (i < j < n)%nat.
Proof.
  unfold judge_pairs. rewrite in_flat_map. split.
  - intros [i' [Hi Hj]]. apply in_seq in Hi. apply in_map_iff in Hj.
    destruct Hj as [j' [Heq Hj]]. injection Heq as -> ->.
    apply in_seq in Hj. lia.
  - intros [Hij Hjn]. exists i. split; [apply in_seq; lia|].
    apply in_map_iff. exists j. split; [reflexivity | apply in_seq; lia].
Qed.

Lemma judge_pairs_count_from (n k i : nat) :
  (i + k = n)%nat ->
  (2 * List.length
         (flat_map (fun i => map (fun j => (i, j)) (seq (S i) (n - S i)))
            (seq i k))
   = k * (k - 1))%nat.
Proof.
  revert i. induction k as [|k IH]; intros i Hik; [reflexivity|].
  cbn [seq flat_map]. rewrite length_app, length_map, length_seq.
  specialize (IH (S i) ltac:(lia)).
  replace (n - S i)%nat with k by lia. nia.
Qed.

(** There are [n (n - 1) / 2] pairs of [n] judges. *)
Lemma judge_pairs_count (n : nat) :
  (2 * List.length (judge_pairs n) = n * (n - 1))%nat.
Proof. apply (judge_pairs_count_from n n 0). lia. Qed.

(** *** The correlations *)

Section Correlations.

Variable pearsonr : list float -> list float -> result float.

Lemma correlations_fold (m : ndarray2) (pairs : list (nat * nat)) :
  forall acc : list float,
    fold_left
      (fun acc ij =>
         rbind acc (fun correlations =>
         rbind (pearsonr (column m (fst ij)) (column m (snd ij))) (fun corr =>
         Ok (if negb (np_isnan corr) then (correlations ++ [corr])%list
             else correlations))))
      pairs (Ok acc) =
    rbind (traverse (pair_correlation pearsonr m) pairs)
      (fun coeffs => Ok (acc ++ filter kept coeffs)%list).
Proof.
  induction pairs as [|ij pairs IH]; intro acc; cbn [fold_left traverse rbind].
  - now rewrite app_nil_r.
  - unfold pair_correlation at 1.
    destruct (pearsonr (column m (fst ij)) (column m (snd ij))) as [c|e].
    + cbn [rbind]. rewrite IH.
      destruct (traverse (pair_correlation pearsonr m) pairs) as [cs|e]; cbn [rbind filter].
      * unfold kept at 2. destruct (negb (np_isnan c)).
        -- now rewrite <- app_assoc.
        -- reflexivity.
      * reflexivity.
    + cbn [rbind].
      assert (Hstuck : forall ps e',
        fold_left
          (fun acc ij =>
             rbind acc (fun correlations =>
             rbind (pearsonr (column m (fst ij)) (column m (snd ij))) (fun corr =>
             Ok (if negb (np_isnan corr) then (correlations ++ [corr])%list
                 else correlations))))
          ps (Raise e') = Raise e').
      { induction ps as [|p ps IHp]; intro e'; cbn [fold_left rbind];
          [reflexivity | apply IHp]. }
      apply Hstuck.
Qed.

(** The call, as a pass over the pairs followed by the removal of the
    [nan] coefficients. *)
Lemma reliability_by_pairs (m : ndarray2) :
  calculate_inter_rater_reliability pearsonr m =
  rbind (traverse (pair_correlation pearsonr m) (judge_pairs (shape1 m)))
    (fun coeffs =>
       let correlations := filter kept coeffs in
       let avg := match correlations with
                  | [] => 0%float
                  | _ => np_mean correlations
                  end in
       Ok (mkReliability avg (_interpret_reliability avg) correlations
             (shape1 m) (shape0 m))).
Proof.
  unfold calculate_inter_rater_reliability. rewrite correlations_fold.
  destruct (traverse (pair_correlation pearsonr m) (judge_pairs (shape1 m)));
    reflexivity.
Qed.

Lemma traverse_raises_at {A B} (f : A -> result B) (xs : list A) (x : A)
  (e : PyExc) :
  In x xs -> f x = Raise e -> exists e', traverse f xs = Raise e'.
Proof.
  induction xs as [|y xs IH]; intros Hin Hx; [contradiction|].
  cbn [traverse]. destruct (f y) as [b|e1] eqn:Hy; [|now exists e1].
  destruct Hin as [-> | Hin]; [congruence|].
  destruct (IH Hin Hx) as [e' He']. rewrite He'. now exists e'.
Qed.

Lemma traverse_Ok_map {A B} (f : A -> result B) (g : A -> B) (xs : list A) :
  (forall x, In x xs -> f x = Ok (g x)) -> traverse f xs = Ok (map g xs).
Proof.
  induction xs as [|x xs IH]; intro H; cbn [traverse map]; [reflexivity|].
  rewrite (H x (or_introl eq_refl)), IH; [reflexivity|].
  intros y Hy. apply H. now right.
Qed.

(** X11. When [pearsonr] returns for every pair of judges,
    [calculate_inter_rater_reliability] returns.  Its list of
    correlations holds the coefficients of the pairs [i < j] in the
    order of the two loops, without those that are [nan]: it holds no
    [nan] and at most [n (n - 1) / 2] numbers for [n] judges.  The
    average is the mean of that list, or 0 with the interpretation
    "poor" when nothing is left in it. *)
Theorem reliability_of_the_pairs (m : ndarray2) (coeff : nat -> nat -> float) :
  (forall i j, (i < j < shape1 m)%nat ->
     pearsonr (column m i) (column m j) = Ok (coeff i j)) ->
  exists r,
    calculate_inter_rater_reliability pearsonr m = Ok r
    /\ individual_correlations r =
       filter kept (map (fun ij => coeff (fst ij) (snd ij))
                      (judge_pairs (shape1 m)))
    /\ Forall (fun c => np_isnan c = false) (individual_correlations r)
    /\ (2 * List.length (individual_correlations r)
        <= shape1 m * (shape1 m - 1))%nat
    /\ n_judges r = shape1 m /\ n_cases r = shape0 m
    /\ (individual_correlations r = [] ->
        average_pairwise_correlation r = 0%float
        /\ reliability_interpretation r = "poor")
    /\ (individual_correlations r <> [] ->
        average_pairwise_correlation r = np_mean (individual_correlations r))
    /\ reliability_interpretation r =
       _interpret_reliability (average_pairwise_correlation r).
Proof.
  intro Hret. rewrite reliability_by_pairs.
  rewrite (traverse_Ok_map (pair_correlation pearsonr m)
             (fun ij => coeff (fst ij) (snd ij))).
  2:{ intros [i j] Hin. apply judge_pairs_In in Hin.
      unfold pair_correlation. cbn [fst snd]. now apply Hret. }
  cbn [rbind]. cbv zeta. eexists. split; [reflexivity|].
  cbn [individual_correlations n_judges n_cases
       average_pairwise_correlation reliability_interpretation].
  split; [reflexivity|]. split.
  { apply Forall_forall. intros c Hc. apply filter_In in Hc.
    destruct Hc as [_ Hk]. unfold kept in Hk.
    now apply negb_true_iff in Hk. }
  split.
  { rewrite <- judge_pairs_count.
    pose proof (filter_length_le kept
      (map (fun ij => coeff (fst ij) (snd ij)) (judge_pairs (shape1 m)))) as Hle.
    rewrite length_map in Hle. lia. }
  split; [reflexivity|]. split; [reflexivity|]. split.
  { intro Hnil. rewrite Hnil. split; reflexivity. }
  split; [|reflexivity].
  destruct (filter kept _); [congruence | reflexivity].
Qed.

(** X12. [calculate_inter_rater_reliability] raises exactly when
    [pearsonr] raises for some pair of judges [i < j], and what it
    raises is the exception of such a pair, as [pearsonr] raised it:
    nothing in the call catches or wraps it. *)
Theorem reliability_failures (m : ndarray2) :
  ((exists i j e, (i < j < shape1 m)%nat
      /\ pearsonr (column m i) (column m j) = Raise e)
   <-> exists e, calculate_inter_rater_reliability pearsonr m = Raise e)
  /\ forall e,
       calculate_inter_rater_reliability pearsonr m = Raise e ->
       exists i j, (i < j < shape1 m)%nat
         /\ pearsonr (column m i) (column m j) = Raise e.
Proof.
  rewrite reliability_by_pairs.
  assert (Hdown : forall e,
    rbind (traverse (pair_correlation pearsonr m) (judge_pairs (shape1 m)))
      (fun coeffs =>
         let correlations := filter kept coeffs in
         let avg := match correlations with
                    | [] => 0%float
                    | _ => np_mean correlations
                    end in
         Ok (mkReliability avg (_interpret_reliability avg) correlations
               (shape1 m) (shape0 m))) = Raise e ->
    exists i j, (i < j < shape1 m)%nat
      /\ pearsonr (column m i) (column m j) = Raise e).
  { intros e H.
    destruct (traverse (pair_correlation pearsonr m) (judge_pairs (shape1 m)))
      as [cs|e'] eqn:Ht; [discriminate|].
    cbn [rbind] in H. injection H as ->.
    apply AnalysisMore.traverse_raises in Ht.
    destruct Ht as [[i j] [Hin Hr]]. apply judge_pairs_In in Hin.
    exists i, j. split; [exact Hin | exact Hr]. }
  split; [|exact Hdown]. split.
  - intros [i [j [e [Hij Hr]]]].
    destruct (traverse_raises_at (pair_correlation pearsonr m) (judge_pairs (shape1 m))
                (i, j) e) as [e' He'].
    + now apply judge_pairs_In.
    + exact Hr.
    + exists e'. now rewrite He'.
  - intros [e He]. destruct (Hdown e He) as [i [j H]]. now exists i, j, e.
Qed.

End Correlations.

Lemma reliability_of_the_pairs_witness :
  exists r,
    calculate_inter_rater_reliability (fun _ _ => Ok nan)
      (mkNdarray2 2 3 [[80; 80; 70]; [80; 80; 90]]%float) = Ok r
    /\ individual_correlations r = []
    /\ average_pairwise_correlation r = 0%float
    /\ reliability_interpretation r = "poor".
Proof.
  destruct (reliability_of_the_pairs (fun _ _ => Ok nan)
              (mkNdarray2 2 3 [[80; 80; 70]; [80; 80; 90]]%float)
              (fun _ _ => nan))
    as [r [Hr [Hc [_ [_ [_ [_ [Hnil _]]]]]]]].
  - intros i j _. reflexivity.
  - exists r. split; [exact Hr|].
    assert (He : individual_correlations r = []) by (rewrite Hc; reflexivity).
    split; [exact He|]. exact (Hnil He).
Defined.

End AcademicMore.

(** ** The orchestrator *)

Module EvaluatorFacts.

Import Py PyFacts Judge JudgeFacts Evaluator Views.
Local Open Scope string_scope.

(** *** The name of the results file *)

Lemma mentions_append (c : ascii) (s t : string) :
  mentions c (s ++ t) = mentions c s || mentions c t.
Proof.
  unfold mentions. induction s as [|a s IH]; cbn [append list_ascii_of_string existsb].
  - reflexivity.
  - rewrite IH. now rewrite orb_assoc.
Qed.

Lemma replace_length (s : string) (old new : ascii) :
  String.length (replace s old new) = String.length s.
Proof.
  induction s as [|a s IH]; cbn [replace String.length]; [reflexivity|].
  now rewrite IH.
Qed.

(** A character that is replaced by another one is gone. *)
Lemma replace_removes (s : string) (old new : ascii) :
  old <> new -> mentions old (replace s old new) = false.
Proof.
  intro Hne. unfold mentions.
  induction s as [|a s IH]; cbn [replace list_ascii_of_string existsb];
    [reflexivity|].
  rewrite IH, orb_false_r.
  destruct (Ascii.eqb a old) eqn:E.
  - apply Ascii.eqb_neq. exact Hne.
  - rewrite Ascii.eqb_sym. exact E.
Qed.

(** A replacement brings in no character but the new one. *)
Lemma replace_keeps_out (s : string) (old new c : ascii) :
  c <> new -> mentions c s = false -> mentions c (replace s old new) = false.
Proof.
  intro Hne. unfold mentions.
  induction s as [|a s IH]; cbn [replace list_ascii_of_string existsb];
    [reflexivity|].
  intro H. apply orb_false_elim in H. destruct H as [Ha Hs].
  rewrite (IH Hs), orb_false_r.
  destruct (Ascii.eqb a old); [now apply Ascii.eqb_neq | exact Ha].
Qed.

Lemma safe_name_clean (model : string) :
  mentions "/" (safe_name model) = false
  /\ mentions "-" (safe_name model) = false
  /\ mentions ":" (safe_name model) = false.
Proof.
  unfold safe_name.
  assert (H1 : mentions "/" (replace model "/" "_") = false)
    by (apply replace_removes; discriminate).
  assert (H2 : mentions "-" (replace (replace model "/" "_") "-" "_") = false)
    by (apply replace_removes; discriminate).
  split; [|split].
  - apply replace_keeps_out; [discriminate|].
    apply replace_keeps_out; [discriminate | exact H1].
  - apply replace_keeps_out; [discriminate | exact H2].
  - apply replace_removes. discriminate.
Qed.

(** X13. The file of the results.  A file name that is given is used as
    it is.  The default one starts with "llml_evaluation_", ends with
    the timestamp and ".json", and names the judge model only when the
    two model names still differ once "/", "-" and ":" are replaced by
    "_".  Whatever the model names, it holds none of these three
    characters when the timestamp holds none: the file is written to
    the current directory. *)
Theorem results_file_name (results : EvaluationResults) (timestamp : string) :
  mentions "/" timestamp = false ->
  mentions "-" timestamp = false ->
  mentions ":" timestamp = false ->
  let response_model := md_response_model (metadata results) in
  let judge_model := md_judge_model (metadata results) in
  let filename := save_results_filename results None timestamp in
  (forall given, save_results_filename results (Some given) timestamp = given)
  /\ mentions "/" filename = false
  /\ mentions "-" filename = false
  /\ mentions ":" filename = false
  /\ (safe_name response_model = safe_name judge_model ->
      filename = "llml_evaluation_" ++ safe_name response_model ++ "_"
                 ++ timestamp ++ ".json")
  /\ (safe_name response_model <> safe_name judge_model ->
      filename = "llml_evaluation_" ++ safe_name response_model ++ "_judge_"
                 ++ safe_name judge_model ++ "_" ++ timestamp ++ ".json")
  /\ String.length (safe_name response_model) = String.length response_model.
Proof.
  intros Hs Hd Hc response_model judge_model filename.
  split; [reflexivity|].
  destruct (safe_name_clean response_model) as [R1 [R2 R3]].
  destruct (safe_name_clean judge_model) as [J1 [J2 J3]].
  assert (Hname : filename =
    if String.eqb (safe_name response_model) (safe_name judge_model)
    then "llml_evaluation_" ++ safe_name response_model ++ "_"
         ++ timestamp ++ ".json"
    else "llml_evaluation_" ++ safe_name response_model ++ "_judge_"
         ++ safe_name judge_model ++ "_" ++ timestamp ++ ".json")
    by reflexivity.
  assert (Hclean : forall c,
    mentions c "llml_evaluation_" = false -> mentions c "_judge_" = false ->
    mentions c "_" = false -> mentions c ".json" = false ->
    mentions c timestamp = false ->
    mentions c (safe_name response_model) = false ->
    mentions c (safe_name judge_model) = false ->
    mentions c filename = false).
  { intros c H1 H2 H3 H4 H5 H6 H7. rewrite Hname.
    destruct (String.eqb (safe_name response_model) (safe_name judge_model));
      rewrite !mentions_append, ?H1, ?H2, ?H3, ?H4, ?H5, ?H6, ?H7; reflexivity. }
  split; [apply Hclean; try reflexivity; assumption|].
  split; [apply Hclean; try reflexivity; assumption|].
  split; [apply Hclean; try reflexivity; assumption|].
  split.
  { intro Heq. rewrite Hname. apply String.eqb_eq in Heq. now rewrite Heq. }
  split.
  { intro Hne. rewrite Hname. apply String.eqb_neq in Hne. now rewrite Hne. }
  unfold safe_name. now rewrite !replace_length.
Qed.

(** *** The final verdict *)

Lemma halves (x : Q) : exists h : Q, (x / 2 == h)%Q /\ (x == 2 * h)%Q.
Proof. exists (x / 2)%Q. split; [reflexivity | field]. Qed.

Lemma half_lt (n v : Z) : (inject_Z n / 2 < inject_Z v)%Q <-> (n < 2 * v)%Z.
Proof.
  rewrite (Zlt_Qlt n (2 * v)), inject_Z_mult.
  change (inject_Z 2) with 2%Q.
  destruct (halves (inject_Z n)) as [h [Hh Hn]]. rewrite Hh, Hn.
  generalize (inject_Z v). intro y. split; intro H; lra.
Qed.

Lemma lt_half (n v : Z) : (inject_Z v < inject_Z n / 2)%Q <-> (2 * v < n)%Z.
Proof.
  rewrite (Zlt_Qlt (2 * v) n), inject_Z_mult.
  change (inject_Z 2) with 2%Q.
  destruct (halves (inject_Z n)) as [h [Hh Hn]]. rewrite Hh, Hn.
  generalize (inject_Z v). intro y. split; intro H; lra.
Qed.

(** The branch of the verdict, by the counts of the summary. *)
Lemma final_verdict_cases (a : Analysis) :
  let v := vibexml_wins (summary a) in
  let n := total_tests (summary a) in
  (final_verdict a = VibexmlWins <-> (n < 2 * v)%Z)
  /\ (final_verdict a = RawTextWins <-> (2 * v < n)%Z)
  /\ (final_verdict a = NoWinner <-> (2 * v = n)%Z).
Proof.
  intros v n. unfold final_verdict. fold v. fold n.
  destruct (Qltb (inject_Z n / 2) (inject_Z v)) eqn:E1.
  - apply Qltb_true_iff, half_lt in E1.
    split; [tauto|]. split; (split; [discriminate | lia]).
  - apply Qltb_false_iff in E1.
    assert (H1 : ~ (n < 2 * v)%Z).
    { intro H. apply half_lt in H. now apply (Qle_not_lt _ _ E1). }
    destruct (Qltb (inject_Z v) (inject_Z n / 2)) eqn:E2.
    + apply Qltb_true_iff, lt_half in E2.
      split; [split; [discriminate | lia]|].
      split; [tauto|]. split; [discriminate | lia].
    + apply Qltb_false_iff in E2.
      assert (H2 : ~ (2 * v < n)%Z).
      { intro H. apply lt_half in H. now apply (Qle_not_lt _ _ E2). }
      split; [split; [discriminate | lia]|].
      split; [split; [discriminate | lia]|].
      split; [lia | reflexivity].
Qed.

(** X14. The final verdict of [print_summary] compares the wins of the
    structured format with half of the tests, so that a tie counts
    against it: for results of the documented shape, "VibeXML wins" is
    announced exactly when its wins exceed the wins of raw text and the
    ties taken together, "Raw text wins" exactly when they fall short of
    that sum, whatever the number of wins of raw text, and "Tie"
    exactly when the two are equal. *)
Theorem verdict_counts_ties_against (judgments : list JudgmentResult)
  (test_cases : option (list StructuredTestCase)) (a : Analysis) :
  Forall well_formed judgments ->
  analyze_judgments judgments test_cases = Ok a ->
  let v := wins_of "vibexml" judgments in
  let r := wins_of "raw_text" judgments in
  let t := wins_of "tie" judgments in
  vibexml_wins (summary a) = v
  /\ raw_text_wins (summary a) = r
  /\ ties (summary a) = t
  /\ (final_verdict a = VibexmlWins <-> (r + t < v)%Z)
  /\ (final_verdict a = RawTextWins <-> (v < r + t)%Z)
  /\ (final_verdict a = NoWinner <-> (v = r + t)%Z).
Proof.
  intros Hwf Ha v r t.
  assert (Hne : judgments <> []).
  { intro H. subst judgments. rewrite analyze_judgments_empty in Ha.
    discriminate Ha. }
  destruct (analyze_judgments_returns judgments test_cases Hne Hwf)
    as [a' [Ha' Hs]].
  rewrite Ha in Ha'. injection Ha' as <-.
  pose proof (wins_partition judgments Hwf) as Hp. fold v r t in Hp.
  destruct (final_verdict_cases a) as [C1 [C2 C3]].
  rewrite Hs in C1, C2, C3. rewrite Hs.
  cbn [vibexml_wins raw_text_wins ties total_tests] in *. fold v in C1, C2, C3.
  split; [reflexivity|]. split; [reflexivity|]. split; [reflexivity|].
  rewrite C1, C2, C3. lia.
Qed.

Lemma one_win_two_ties_well_formed : Forall well_formed Samples.one_win_two_ties.
Proof.
  repeat (apply Forall_cons;
    [split;
     [cbn; tauto
     | apply Forall_cons; [split; reflexivity | apply Forall_nil]]|]).
  apply Forall_nil.
Qed.

Lemma verdict_counts_ties_against_witness :
  exists a,
    analyze_judgments Samples.one_win_two_ties None = Ok a
    /\ raw_text_wins (summary a) = 0%Z
    /\ vibexml_wins (summary a) = 1%Z
    /\ final_verdict a = RawTextWins.
Proof.
  destruct (analyze_judgments Samples.one_win_two_ties None) as [a|e] eqn:Ha;
    [|vm_compute in Ha; discriminate Ha].
  exists a. split; [reflexivity|].
  destruct (verdict_counts_ties_against Samples.one_win_two_ties None a
              one_win_two_ties_well_formed Ha)
    as [Hv [Hr [_ [_ [Hraw _]]]]].
  split; [exact Hr|]. split; [exact Hv|].
  apply Hraw. vm_compute. reflexivity.
Defined.


(** *** The test cases of a run *)

Lemma slice_to_nil {A} (l : list A) (n : Z) :
  slice_to l n = [] <->
  l = [] \/ n = 0%Z \/ (n < 0 /\ len l + n <= 0)%Z.
Proof.
  unfold slice_to, len. destruct (Z.ltb_spec n 0) as [Hneg | Hpos].
  - destruct l as [|x l]; [rewrite firstn_nil; tauto|].
    cbn [List.length]. split.
    + intro H. right. right.
      destruct (Z.to_nat (Z.max 0 (Z.of_nat (S (List.length l)) + n))) eqn:E;
        [lia | discriminate H].
    + intros [H | [H | [_ H]]]; [discriminate H | lia |].
      replace (Z.to_nat (Z.max 0 (Z.of_nat (S (List.length l)) + n)))
        with 0%nat by lia.
      reflexivity.
  - destruct l as [|x l]; [rewrite firstn_nil; tauto|].
    cbn [List.length]. split.
    + intro H. right. left.
      destruct (Z.to_nat n) eqn:E; [lia | discriminate H].
    + intros [H | [H | [H1 H2]]]; [discriminate H | subst n; reflexivity | lia].
Qed.

(** *** The generation of the responses *)

Section Pipeline.

Context {RM : RandomModule}.

Variable to_raw_text : StructuredTestCase -> string.
Variable to_vibexml : StructuredTestCase -> string.
Variable now_isoformat : string.

Lemma printed_nil (w : World) : printed w [] = w.
Proof. destruct w. unfold printed. cbn. now rewrite app_nil_r. Qed.

Lemma printed_printed (w : World) (l1 l2 : list string) :
  printed (printed w l1) l2 = printed w (l1 ++ l2).
Proof. unfold printed. cbn. now rewrite app_assoc. Qed.

Lemma eprint_run (line : string) (w : EvalWorld) :
  eprint line w =
  (Ok tt, mkEvalWorld (printed (judge_world w) [line]) (response_calls w)).
Proof. reflexivity. Qed.

Lemma ebind_eprint {A} (line : string) (k : unit -> E A) (w : EvalWorld) :
  ebind (eprint line) k w =
  k tt (mkEvalWorld (printed (judge_world w) [line]) (response_calls w)).
Proof. reflexivity. Qed.

(** One call to the response model: the answer, or the exception under
    the message of [generate_response]. *)
Lemma generate_response_run (self : Provider) (prompt : string)
  (w : EvalWorld) :
  generate_response self prompt w =
  (match text_run self (response_calls w) prompt with
   | TextAnswer data => Ok data
   | TextRaises e =>
       Raise (Exception ("Response generation failed: " ++ exc_str e))
   end,
   mkEvalWorld (judge_world w) (S (response_calls w))).
Proof.
  unfold generate_response, etry, text_agent_run, eraise.
  destruct (text_run self (response_calls w) prompt); reflexivity.
Qed.

Lemma run_single_test_spec (self : ABTestRunner) (tc : StructuredTestCase)
  (w : EvalWorld) :
  exists lines,
    match run_single_test to_raw_text to_vibexml self tc w with
    | (Ok ab, w') =>
        w' = mkEvalWorld (printed (judge_world w) lines) (2 + response_calls w)
        /\ ab_test_case_name ab = name tc
        /\ raw_text_prompt ab = to_raw_text tc
        /\ vibexml_prompt ab = to_vibexml tc
        /\ text_run (ai_provider self) (response_calls w) (to_raw_text tc)
           = TextAnswer (raw_text_response ab)
        /\ text_run (ai_provider self) (S (response_calls w)) (to_vibexml tc)
           = TextAnswer (vibexml_response ab)
    | (Raise e, w') =>
        judge_world w' = printed (judge_world w) lines
        /\ failure_of (ai_provider self) (response_calls w)
             (response_calls w') e
        /\ (response_calls w' <= 2 + response_calls w)%nat
    end.
Proof.
  unfold run_single_test. rewrite !ebind_eprint.
  unfold ebind at 1. rewrite generate_response_run.
  cbn [judge_world response_calls].
  destruct (text_run (ai_provider self) (response_calls w) (to_raw_text tc))
    as [a1|e1] eqn:H1.
  - rewrite ebind_eprint. unfold ebind at 1. rewrite generate_response_run.
    cbn [judge_world response_calls].
    destruct (text_run (ai_provider self) (S (response_calls w)) (to_vibexml tc))
      as [a2|e2] eqn:H2.
    + eexists. unfold eret. rewrite !printed_printed.
      split; [reflexivity|].
      cbn [ab_test_case_name raw_text_prompt vibexml_prompt raw_text_response
           vibexml_response].
      split; [reflexivity|]. split; [reflexivity|]. split; [reflexivity|].
      split; reflexivity.
    + eexists. rewrite !printed_printed. cbn [judge_world response_calls].
      split; [reflexivity|]. split; [|lia].
      exists (S (response_calls w)), (to_vibexml tc), e2.
      split; [lia|]. split; [reflexivity|]. split; [exact H2 | reflexivity].
  - eexists. rewrite !printed_printed. cbn [judge_world response_calls].
    split; [reflexivity|]. split; [|lia].
    exists (response_calls w), (to_raw_text tc), e1.
    split; [lia|]. split; [reflexivity|]. split; [exact H1 | reflexivity].
Qed.

Lemma failure_of_within (self : Provider) (a a' b : nat) (e : PyExc) :
  failure_of self a b e -> (a' <= a)%nat -> failure_of self a' b e.
Proof.
  intros [k [prompt [e0 [Hk [Hb [Hr He]]]]]] Ha.
  exists k, prompt, e0. split; [lia|]. split; [exact Hb|].
  split; [exact Hr | exact He].
Qed.

Lemma run_tests_loop_spec (self : ABTestRunner)
  (tcs : list StructuredTestCase) :
  forall w : EvalWorld,
  exists lines,
    match run_tests_loop to_raw_text to_vibexml self tcs w with
    | (Ok abs, w') =>
        w' = mkEvalWorld (printed (judge_world w) lines)
               (2 * List.length tcs + response_calls w)
        /\ Forall2 (made_from to_raw_text to_vibexml) tcs abs
    | (Raise e, w') =>
        judge_world w' = printed (judge_world w) lines
        /\ failure_of (ai_provider self) (response_calls w)
             (response_calls w') e
        /\ (response_calls w' <= 2 * List.length tcs + response_calls w)%nat
    end.
Proof.
  induction tcs as [|tc rest IH]; intro w.
  - exists []. cbn [run_tests_loop]. unfold eret. rewrite printed_nil.
    split; [now destruct w | constructor].
  - cbn [run_tests_loop]. unfold ebind at 1.
    destruct (run_single_test_spec self tc w) as [l1 H1].
    destruct (run_single_test to_raw_text to_vibexml self tc w)
      as [[ab|e] w1] eqn:Hrun.
    + destruct H1 as [Hw1 Hab]. subst w1.
      rewrite ebind_eprint. cbn [judge_world response_calls].
      rewrite printed_printed. unfold ebind at 1.
      match goal with
      | |- context [run_tests_loop _ _ self rest ?w2] =>
          destruct (IH w2) as [l2 H2];
          destruct (run_tests_loop to_raw_text to_vibexml self rest w2)
            as [[abs|e] w3]
      end.
      * destruct H2 as [Hw3 Hall]. subst w3.
        cbn [judge_world response_calls]. rewrite printed_printed.
        eexists. unfold eret. split.
        -- f_equal. cbn [List.length]. lia.
        -- constructor; [|exact Hall].
           unfold run_single_test in Hrun. rewrite !ebind_eprint in Hrun.
           unfold ebind at 1 in Hrun. rewrite generate_response_run in Hrun.
           destruct (text_run _ _ (to_raw_text tc)); [|discriminate Hrun].
           rewrite ebind_eprint in Hrun. unfold ebind at 1 in Hrun.
           rewrite generate_response_run in Hrun.
           destruct (text_run _ _ (to_vibexml tc)); [|discriminate Hrun].
           unfold eret in Hrun. injection Hrun as <- _.
           repeat split.
      * destruct H2 as [Hj [Hf Hle]].
        cbn [judge_world response_calls] in Hj, Hf, Hle.
        rewrite printed_printed in Hj.
        eexists. split; [exact Hj|]. split.
        -- apply (failure_of_within _ _ _ _ _ Hf); lia.
        -- cbn [List.length]. lia.
    + destruct H1 as [Hj [Hf Hle]].
      exists l1. split; [exact Hj|]. split; [exact Hf|].
      cbn [List.length]. lia.
Qed.

Lemma run_all_tests_spec (self : ABTestRunner)
  (tcs : list StructuredTestCase) (w : EvalWorld) :
  exists lines,
    match run_all_tests to_raw_text to_vibexml self tcs w with
    | (Ok abs, w') =>
        w' = mkEvalWorld (printed (judge_world w) lines)
               (2 * List.length tcs + response_calls w)
        /\ Forall2 (made_from to_raw_text to_vibexml) tcs abs
    | (Raise e, w') =>
        judge_world w' = printed (judge_world w) lines
        /\ failure_of (ai_provider self) (response_calls w)
             (response_calls w') e
        /\ (response_calls w' <= 2 * List.length tcs + response_calls w)%nat
    end.
Proof.
  unfold run_all_tests. rewrite !ebind_eprint.
  cbn [judge_world response_calls]. rewrite !printed_printed.
  match goal with
  | |- context [run_tests_loop _ _ self tcs ?w2] =>
      destruct (run_tests_loop_spec self tcs w2) as [l2 H2];
      destruct (run_tests_loop to_raw_text to_vibexml self tcs w2)
        as [[abs|e] w3]
  end; cbn [judge_world response_calls] in H2;
    rewrite printed_printed in H2; eexists; exact H2.
Qed.


(** *** The judging of the responses *)

Lemma find_by_name (tcs : list StructuredTestCase) (n : string) :
  (exists tc, In tc tcs /\ name tc = n) ->
  exists tc', find (fun tc => String.eqb (name tc) n) tcs = Some tc'.
Proof.
  intros [tc [Hin Hn]].
  destruct (find (fun t => String.eqb (name t) n) tcs) as [tc'|] eqn:Hf;
    [now exists tc'|].
  exfalso. apply (find_none _ _ Hf) in Hin. cbv beta in Hin.
  apply String.eqb_neq in Hin. contradiction.
Qed.

Lemma judge_scenario_of (self : LLMJudge) (tcs : list StructuredTestCase)
  (ab : ABTestResult) (tc : StructuredTestCase) :
  find (fun t => String.eqb (name t) (ab_test_case_name ab)) tcs = Some tc ->
  judge_scenario self (scenario_of tcs ab) =
  judge_responses self (ab_test_case_name ab) (task tc)
    (expected_advantages tc) (raw_text_response ab) (vibexml_response ab).
Proof.
  intro Hfind. unfold judge_scenario, scenario_of. rewrite Hfind. reflexivity.
Qed.

(** The judging loop of [run_evaluation] judges the scenarios of the
    pairs of responses, one after the other. *)
Lemma judge_loop_spec (self : LLMLEvaluator) (tcs : list StructuredTestCase)
  (abs : list ABTestResult) :
  Forall (fun ab => exists tc, In tc tcs /\ name tc = ab_test_case_name ab)
    abs ->
  forall w : EvalWorld,
    judge_loop self tcs abs w =
    of_judge (judge_all (judge self) (map (scenario_of tcs) abs)) w.
Proof.
  induction 1 as [|ab rest Hab _ IH]; intro w.
  - destruct w. reflexivity.
  - cbn [judge_loop map judge_all].
    destruct (find_by_name tcs _ Hab) as [tc' Hfind].
    unfold ebind at 1, elift, next_such. rewrite Hfind.
    rewrite (judge_scenario_of (judge self) tcs ab tc' Hfind).
    unfold ebind at 1, of_judge at 1 2, bind at 1.
    destruct (judge_responses (judge self) (ab_test_case_name ab) (task tc')
                (expected_advantages tc') (raw_text_response ab)
                (vibexml_response ab) (judge_world w)) as [[j|e] w1];
      [|reflexivity].
    unfold ebind at 1. rewrite IH. unfold of_judge, bind.
    cbn [judge_world response_calls].
    destruct (judge_all (judge self) (map (scenario_of tcs) rest) w1)
      as [[js|e] w2]; reflexivity.
Qed.

Lemma made_from_names (tcs : list StructuredTestCase)
  (abs : list ABTestResult) :
  Forall2 (made_from to_raw_text to_vibexml) tcs abs ->
  map ab_test_case_name abs = map name tcs
  /\ Forall (fun ab => exists tc, In tc tcs /\ name tc = ab_test_case_name ab)
       abs.
Proof.
  induction 1 as [|tc ab tcs abs [Hn _] _ [IHn IHf]].
  - split; [reflexivity | constructor].
  - split; [cbn [map]; now rewrite Hn, IHn|].
    constructor.
    + exists tc. split; [now left | now symmetry].
    + eapply Forall_impl; [|exact IHf].
      intros ab' [tc' [Hin Hn']]. exists tc'. split; [now right | exact Hn'].
Qed.

(** The judging loop, with its effects: one draw per scenario, one
    request to the judge model or two. *)
Lemma judge_all_counts (self : LLMJudge) (scenarios : list Scenario) :
  forall w : World,
    exists judgments w',
      judge_all self scenarios w = (Ok judgments, w')
      /\ random_state w' =
         after_draws (List.length scenarios) (random_state w)
      /\ (List.length scenarios + provider_calls w <= provider_calls w'
          <= 2 * List.length scenarios + provider_calls w)%nat
      /\ (never_invalid (judge_provider self) ->
          provider_calls w' = (List.length scenarios + provider_calls w)%nat)
      /\ (exists out, stdout w' = (stdout w ++ out)%list)
      /\ map test_case_name judgments = map sc_name scenarios
      /\ Forall well_formed judgments.
Proof.
  induction scenarios as [|sc rest IH]; intro w.
  - exists [], w. cbn [judge_all List.length after_draws]. unfold ret.
    split; [reflexivity|]. split; [reflexivity|]. split; [lia|].
    split; [intros _; reflexivity|].
    split; [exists []; now rewrite app_nil_r|].
    split; [reflexivity | constructor].
  - cbn [judge_all]. unfold bind at 1, judge_scenario.
    destruct (judge_responses_outcome self (sc_name sc) (sc_task sc)
                (sc_expected_advantages sc) (sc_raw_text_response sc)
                (sc_vibexml_response sc) w)
      as [prompt [r [w1 [_ [Hj [_ [_ [Hwf _]]]]]]]].
    destruct (JudgeMore.judge_responses_step self (sc_name sc) (sc_task sc)
                (sc_expected_advantages sc) (sc_raw_text_response sc)
                (sc_vibexml_response sc) w)
      as [r' [w1' [out1 [Hj' [Hn [Hc [Hc1 [Hs [Ho _]]]]]]]]].
    rewrite Hj in Hj'. injection Hj' as <- <-.
    rewrite Hj. unfold bind at 1.
    destruct (IH w1)
      as [js [w2 [Hjs [Hst [Hcalls [Hexact [[out2 Hout] [Hnames Hall]]]]]]]].
    rewrite Hjs. unfold ret.
    exists (r :: js), w2. cbn [List.length after_draws].
    split; [reflexivity|].
    split; [now rewrite Hst, Hs|].
    split; [lia|].
    split; [intro Hnever; rewrite (Hexact Hnever), (Hc1 Hnever); lia|].
    split; [exists (out1 ++ out2)%list; now rewrite Hout, Ho, app_assoc|].
    split; [cbn [map]; now rewrite Hn, Hnames | now constructor].
Qed.


(** *** The whole run *)

(** A run of [run_evaluation], step by step. *)
Lemma run_evaluation_spec (self : LLMLEvaluator)
  (tcs : list StructuredTestCase) (w : EvalWorld) :
  match run_evaluation to_raw_text to_vibexml now_isoformat self tcs w with
  | (Ok r, w') =>
      tcs <> []
      /\ Forall2 (made_from to_raw_text to_vibexml) tcs (ab_results r)
      /\ response_calls w' = (2 * List.length tcs + response_calls w)%nat
      /\ random_state (judge_world w') =
         after_draws (List.length tcs) (random_state (judge_world w))
      /\ (List.length tcs + provider_calls (judge_world w)
          <= provider_calls (judge_world w')
          <= 2 * List.length tcs + provider_calls (judge_world w))%nat
      /\ (never_invalid (judge_provider (judge self)) ->
          provider_calls (judge_world w') =
          (List.length tcs + provider_calls (judge_world w))%nat)
      /\ (exists out,
            stdout (judge_world w') = (stdout (judge_world w) ++ out)%list)
      /\ map test_case_name (judgments r) = map name tcs
      /\ Forall well_formed (judgments r)
      /\ (exists wj wj',
            judge_all (judge self) (map (scenario_of tcs) (ab_results r)) wj
            = (Ok (judgments r), wj'))
      /\ analyze_judgments (judgments r) (Some tcs) = Ok (analysis r)
      /\ metadata r =
         mkMetadata (model_name (structured (response_provider self)))
           (model_name (structured (ev_judge_provider self)))
           (map name tcs) now_isoformat
  | (Raise e, w') =>
      (exists out, judge_world w' = printed (judge_world w) out)
      /\ ((tcs = [] /\ e = ZeroDivisionError "division by zero"
           /\ response_calls w' = response_calls w)
          \/ (failure_of (ai_provider (ab_runner self)) (response_calls w)
                (response_calls w') e
              /\ (response_calls w'
                  <= 2 * List.length tcs + response_calls w)%nat))
  end.
Proof.
  unfold run_evaluation. rewrite !ebind_eprint.
  cbn [judge_world response_calls]. rewrite !printed_printed.
  unfold ebind at 1.
  match goal with
  | |- context [run_all_tests _ _ (ab_runner self) tcs ?w2] =>
      destruct (run_all_tests_spec (ab_runner self) tcs w2) as [l2 H2];
      destruct (run_all_tests to_raw_text to_vibexml (ab_runner self) tcs w2)
        as [[abs|e] w3]
  end; cbn [judge_world response_calls] in H2; rewrite printed_printed in H2.
  - destruct H2 as [Hw3 Hmade]. subst w3.
    destruct (made_from_names tcs abs Hmade) as [Hnames Hfound].
    rewrite !ebind_eprint. cbn [judge_world response_calls].
    rewrite !printed_printed. unfold ebind at 1.
    rewrite (judge_loop_spec self tcs abs Hfound). unfold of_judge at 1.
    cbn [judge_world response_calls].
    match goal with
    | |- context [judge_all (judge self) ?scs ?wj] =>
        destruct (judge_all_counts (judge self) scs wj)
          as [js [wj' [Hjs [Hst [Hcalls [Hexact [[out Hout] [Hjn Hwf]]]]]]]];
        pose proof Hjs as Hjs0; rewrite Hjs
    end.
    rewrite !ebind_eprint. cbn [judge_world response_calls].
    unfold ebind at 1, elift.
    rewrite length_map in *.
    unfold printed in Hst, Hcalls, Hexact, Hout.
    cbn [random_state provider_calls stdout] in Hst, Hcalls, Hexact, Hout.
    assert (Hlen : List.length abs = List.length tcs).
    { rewrite <- (length_map ab_test_case_name), Hnames. apply length_map. }
    rewrite Hlen in Hst, Hcalls, Hexact.
    assert (Hjnames : map test_case_name js = map name tcs).
    { rewrite Hjn, map_map. cbn [scenario_of sc_name]. exact Hnames. }
    destruct tcs as [|tc tcs'].
    + assert (Hjs_nil : js = []).
      { destruct js; [reflexivity | discriminate Hjnames]. }
      subst js. rewrite analyze_judgments_empty.
      assert (Habs : abs = []) by (destruct abs; [reflexivity | discriminate Hlen]).
      subst abs. cbn [map judge_all] in Hjs0. unfold ret in Hjs0.
      injection Hjs0 as <-.
      split.
      * eexists. unfold printed. cbn [random_state provider_calls stdout].
        rewrite <- !app_assoc. reflexivity.
      * left. split; [reflexivity|]. split; [reflexivity|].
        cbn [response_calls List.length]. lia.
    + assert (Hjs_ne : js <> []).
      { intro Hnil. subst js. discriminate Hjnames. }
      destruct (analyze_judgments_returns js (Some (tc :: tcs')) Hjs_ne Hwf)
        as [a [Ha _]].
      rewrite Ha. rewrite ebind_eprint. unfold eret.
      cbn [ab_results judgments analysis metadata judge_world response_calls].
      unfold printed. cbn [random_state provider_calls stdout].
      split; [discriminate|]. split; [exact Hmade|].
      split; [reflexivity|]. split; [exact Hst|].
      split; [exact Hcalls|]. split; [exact Hexact|]. split.
      { eexists. rewrite Hout. rewrite <- !app_assoc. reflexivity. }
      split; [exact Hjnames|]. split; [exact Hwf|]. split.
      { eexists. eexists. exact Hjs0. }
      split; [exact Ha | reflexivity].
  - destruct H2 as [Hj [Hf Hle]].
    split; [eexists; exact Hj|]. right. split; [exact Hf | exact Hle].
Qed.


(** X15. [run_evaluation] fails in two ways only, and in both before
    the judge is called or a draw is made.  With no test case it raises
    ZeroDivisionError, from the analysis, without a call to the response
    model.  With test cases it raises when a call to the response model
    fails: the run stops at that call, the exception is that of the
    call under the message "Response generation failed: ", and the
    responses obtained before it are lost.  A failure of the judge
    never ends the run. *)
Theorem run_evaluation_failures (self : LLMLEvaluator)
  (test_cases : list StructuredTestCase) (w : EvalWorld) :
  match
    run_evaluation to_raw_text to_vibexml now_isoformat self test_cases w
  with
  | (Ok _, _) => test_cases <> []
  | (Raise e, w') =>
      provider_calls (judge_world w') = provider_calls (judge_world w)
      /\ random_state (judge_world w') = random_state (judge_world w)
      /\ ((test_cases = [] /\ e = ZeroDivisionError "division by zero"
           /\ response_calls w' = response_calls w)
          \/ (test_cases <> []
              /\ failure_of (ai_provider (ab_runner self)) (response_calls w)
                   (response_calls w') e
              /\ (response_calls w'
                  <= 2 * List.length test_cases + response_calls w)%nat))
  end.
Proof.
  pose proof (run_evaluation_spec self test_cases w) as H.
  destruct (run_evaluation to_raw_text to_vibexml now_isoformat self
              test_cases w) as [[r|e] w'].
  - exact (proj1 H).
  - destruct H as [[out Hout] Hcase]. rewrite Hout.
    split; [reflexivity|]. split; [reflexivity|].
    destruct Hcase as [Hempty | [Hf Hle]]; [left; exact Hempty|].
    right. split; [|split; [exact Hf | exact Hle]].
    intro Hnil. subst test_cases.
    destruct Hf as [k [prompt [e0 [Hk [Hlast _]]]]].
    cbn [List.length] in Hle. lia.
Qed.

(** X16. When [run_evaluation] returns, it has made two calls to the
    response model and one draw for each test case, and it has sent the
    judge model at least as many requests as test cases and at most
    twice as many, a test case taking one request, or two after a first
    answer that fails validation, and exactly as many when the model
    gives no answer that fails validation.  There are as many pairs of
    responses and as many judgments as test cases, in their order and
    under their names; the judgments are those of the judging loop on the pairs,
    each judged with the task and the expected advantages of the first
    test case that bears its name; they have the documented shape, and
    the analysis is that of [analyze_judgments] on them with the test
    cases. *)
Theorem run_evaluation_results (self : LLMLEvaluator)
  (test_cases : list StructuredTestCase) (w w' : EvalWorld)
  (results : EvaluationResults) :
  run_evaluation to_raw_text to_vibexml now_isoformat self test_cases w
  = (Ok results, w') ->
  Forall2 (made_from to_raw_text to_vibexml) test_cases (ab_results results)
  /\ List.length (ab_results results) = List.length test_cases
  /\ List.length (judgments results) = List.length test_cases
  /\ map test_case_name (judgments results) = map name test_cases
  /\ test_cases_evaluated (metadata results) = map name test_cases
  /\ response_calls w' = (2 * List.length test_cases + response_calls w)%nat
  /\ (List.length test_cases + provider_calls (judge_world w)
      <= provider_calls (judge_world w')
      <= 2 * List.length test_cases + provider_calls (judge_world w))%nat
  /\ (never_invalid (judge_provider (judge self)) ->
      provider_calls (judge_world w')
      = (List.length test_cases + provider_calls (judge_world w))%nat)
  /\ random_state (judge_world w')
     = after_draws (List.length test_cases) (random_state (judge_world w))
  /\ (exists wj wj',
        judge_all (judge self)
          (map (scenario_of test_cases) (ab_results results)) wj
        = (Ok (judgments results), wj'))
  /\ Forall well_formed (judgments results)
  /\ analyze_judgments (judgments results) (Some test_cases)
     = Ok (analysis results).
Proof.
  intro Hrun. pose proof (run_evaluation_spec self test_cases w) as H.
  rewrite Hrun in H.
  destruct H
    as [_ [Hmade [Hrc [Hst [Hcalls [Hexact [_ [Hn [Hwf [Hj [Ha Hm]]]]]]]]]]].
  split; [exact Hmade|].
  split; [symmetry; exact (Forall2_length Hmade)|].
  split; [rewrite <- (length_map test_case_name), Hn; apply length_map|].
  split; [exact Hn|].
  split; [now rewrite Hm|]. split; [exact Hrc|].
  split; [exact Hcalls|]. split; [exact Hexact|]. split; [exact Hst|].
  split; [exact Hj|]. split; [exact Hwf | exact Ha].
Qed.


(** X17. The test cases that [main] runs.  A non-empty [--single]
    selects the test cases of that name, whatever [--cases] says, and
    [main] stops when there is none.  Otherwise a positive [--cases n]
    selects the first [n] test cases, [--cases 0] selects all of them as
    does its absence, and a negative one drops that many from the end.
    The selection is empty only when there is no test case at all or
    when a negative [--cases] drops them all, and [run_evaluation] then
    raises ZeroDivisionError. *)
Theorem selection_of_test_cases (single : option string) (cases : option Z)
  (all_test_cases : list StructuredTestCase) :
  let selection := select_test_cases single cases all_test_cases in
  let unnamed := single = None \/ single = Some EmptyString in
  (forall s, single = Some s -> s <> EmptyString ->
     let found :=
       filter (fun tc => String.eqb (name tc) s) all_test_cases in
     (found = [] -> selection = None)
     /\ (found <> [] -> selection = Some found))
  /\ (unnamed ->
      match cases with
      | None => selection = Some all_test_cases
      | Some n =>
          ((0 < n)%Z ->
           selection = Some (firstn (Z.to_nat n) all_test_cases))
          /\ (n = 0%Z -> selection = Some all_test_cases)
          /\ ((n < 0)%Z ->
              selection =
              Some (firstn (Z.to_nat (len all_test_cases + n))
                      all_test_cases))
      end)
  /\ (selection = Some [] <->
      unnamed
      /\ (all_test_cases = []
          \/ exists n, cases = Some n /\ (n < 0)%Z
               /\ (len all_test_cases + n <= 0)%Z))
  /\ (selection = Some [] ->
      forall (self : LLMLEvaluator) (w : EvalWorld),
      exists w',
        run_evaluation to_raw_text to_vibexml now_isoformat self [] w
        = (Raise (ZeroDivisionError "division by zero"), w')).
Proof.
  intros selection unnamed.
  assert (Hnamed : forall s, single = Some s -> s <> EmptyString ->
    selection =
    match filter (fun tc => String.eqb (name tc) s) all_test_cases with
    | [] => None
    | found => Some found
    end).
  { intros s -> Hs. unfold selection, select_test_cases.
    apply String.eqb_neq in Hs. rewrite Hs. cbn [negb].
    destruct (filter _ all_test_cases); reflexivity. }
  assert (Hunnamed : unnamed ->
    selection =
    match cases with
    | None => Some all_test_cases
    | Some n => if (n =? 0)%Z then Some all_test_cases
                else Some (slice_to all_test_cases n)
    end).
  { intros [-> | ->]; unfold selection, select_test_cases; cbn [String.eqb negb];
      (destruct cases as [n|]; [|reflexivity]);
      destruct (n =? 0)%Z; reflexivity. }
  split; [|split; [|split]].
  - intros s Hsingle Hs found. rewrite (Hnamed s Hsingle Hs). fold found.
    split; intro H; [now rewrite H | destruct found; [congruence | reflexivity]].
  - intro Hu. rewrite (Hunnamed Hu). destruct cases as [n|]; [|reflexivity].
    split; [|split]; intro Hn.
    + destruct (Z.eqb_spec n 0) as [-> | _]; [lia|].
      unfold slice_to. destruct (Z.ltb_spec n 0); [lia | reflexivity].
    + subst n. reflexivity.
    + destruct (Z.eqb_spec n 0) as [-> | _]; [lia|].
      unfold slice_to. destruct (Z.ltb_spec n 0); [|lia].
      f_equal. destruct (Z.max_spec 0 (len all_test_cases + n))
        as [[Hlt ->] | [Hge ->]]; [reflexivity|].
      replace (Z.to_nat (len all_test_cases + n)) with 0%nat by lia.
      reflexivity.
  - split.
    + intro Hsel.
      assert (Hu : unnamed).
      { destruct single as [s|]; [|now left].
        destruct (string_dec s EmptyString) as [-> | Hs]; [now right|].
        exfalso. rewrite (Hnamed s eq_refl Hs) in Hsel.
        destruct (filter _ all_test_cases); discriminate Hsel. }
      split; [exact Hu|]. rewrite (Hunnamed Hu) in Hsel.
      destruct cases as [n|]; [|left; congruence].
      destruct (Z.eqb_spec n 0) as [-> | Hn0]; [left; congruence|].
      injection Hsel as Hsel. apply slice_to_nil in Hsel.
      destruct Hsel as [Hnil | [Hz | [Hneg Hlen]]]; [now left | contradiction|].
      right. exists n. split; [reflexivity|]. split; [exact Hneg | exact Hlen].
    + intros [Hu Hcase]. rewrite (Hunnamed Hu).
      destruct Hcase as [-> | [n [-> [Hneg Hlen]]]].
      * destruct cases as [n|]; [|reflexivity].
        destruct (n =? 0)%Z; [reflexivity|]. f_equal.
        apply slice_to_nil. now left.
      * destruct (Z.eqb_spec n 0) as [-> | _]; [lia|]. f_equal.
        apply slice_to_nil. right. right. lia.
  - intros _ self w.
    pose proof (run_evaluation_spec self [] w) as H.
    destruct (run_evaluation to_raw_text to_vibexml now_isoformat self [] w)
      as [[r|e] w'].
    + exfalso. now apply (proj1 H).
    + exists w'. destruct H as [_ [[_ [-> _]] | [Hf Hle]]]; [reflexivity|].
      exfalso. destruct Hf as [k [prompt [e0 [Hk [Hlast _]]]]].
      cbn [List.length] in Hle. lia.
Qed.


End Pipeline.


Lemma run_evaluation_results_witness :
  exists results w',
    run_evaluation Samples.plain_prompt Samples.tagged_prompt
      "2025-01-01T12:00:00" (Samples.evaluator_of Samples.answering)
      Samples.three_cases Samples.eval_world0
    = (Ok results, w')
    /\ map test_case_name (judgments results) = ["invoice"; "ledger"; "roster"]
    /\ response_calls w' = 6%nat
    /\ provider_calls (judge_world w') = 3%nat.
Proof.
  pose proof (run_evaluation_spec Samples.plain_prompt Samples.tagged_prompt
                "2025-01-01T12:00:00" (Samples.evaluator_of Samples.answering)
                Samples.three_cases Samples.eval_world0) as Hspec.
  destruct (run_evaluation Samples.plain_prompt Samples.tagged_prompt
              "2025-01-01T12:00:00" (Samples.evaluator_of Samples.answering)
              Samples.three_cases Samples.eval_world0) as [[r|e] w'] eqn:Hrun.
  - exists r, w'. split; [reflexivity|].
    destruct (run_evaluation_results Samples.plain_prompt Samples.tagged_prompt
                "2025-01-01T12:00:00" (Samples.evaluator_of Samples.answering)
                Samples.three_cases Samples.eval_world0 w' r Hrun)
      as [_ [_ [_ [Hn [_ [Hrc [_ [Hpc _]]]]]]]].
    split; [exact Hn|]. split; [exact Hrc | apply Hpc].
    intros n prompt data H. injection H as <-. reflexivity.
  - exfalso. destruct Hspec as [_ [[Hnil _] | [Hf _]]]; [discriminate Hnil|].
    destruct Hf as [k [prompt [e0 [_ [_ [Hr _]]]]]]. discriminate Hr.
Defined.


Lemma results_file_name_witness :
  exists results w',
    run_evaluation Samples.plain_prompt Samples.tagged_prompt
      "2025-01-01T12:00:00" (Samples.evaluator_of Samples.answering)
      Samples.three_cases Samples.eval_world0
    = (Ok results, w')
    /\ save_results_filename results None "20250101_120000"
       = "llml_evaluation_anthropic_claude_3.5_sonnet_20250101_120000.json"
    /\ mentions "/" (save_results_filename results None "20250101_120000")
       = false.
Proof.
  pose proof (run_evaluation_spec Samples.plain_prompt Samples.tagged_prompt
                "2025-01-01T12:00:00" (Samples.evaluator_of Samples.answering)
                Samples.three_cases Samples.eval_world0) as Hspec.
  destruct (run_evaluation Samples.plain_prompt Samples.tagged_prompt
              "2025-01-01T12:00:00" (Samples.evaluator_of Samples.answering)
              Samples.three_cases Samples.eval_world0) as [[r|e] w'].
  - exists r, w'. split; [reflexivity|].
    destruct Hspec as [_ [_ [_ [_ [_ [_ [_ [_ [_ [_ [_ Hm]]]]]]]]]]].
    destruct (results_file_name r "20250101_120000"
                eq_refl eq_refl eq_refl)
      as [_ [Hslash [_ [_ [Hsame _]]]]].
    split; [|exact Hslash].
    rewrite Hsame; rewrite Hm; reflexivity.
  - exfalso. destruct Hspec as [_ [[Hnil _] | [Hf _]]]; [discriminate Hnil|].
    destruct Hf as [k [prompt [e0 [_ [_ [Hr _]]]]]]. discriminate Hr.
Defined.


End EvaluatorFacts.

(** ** The raw text prompt *)

Module FormatterFacts.

Import Py Judge Evaluator Views.
Local Open Scope string_scope.

(** *** Texts that occur in texts *)

Lemma append_assoc (a b c : string) : (a ++ b) ++ c = a ++ (b ++ c).
Proof.
  induction a as [|x a IH]; cbn [append]; [reflexivity | now rewrite IH].
Qed.

Lemma append_nil_r (a : string) : a ++ EmptyString = a.
Proof.
  induction a as [|x a IH]; cbn [append]; [reflexivity | now rewrite IH].
Qed.

Lemma occurs_refl (s : string) : occurs s s.
Proof. exists EmptyString, EmptyString. now rewrite append_nil_r. Qed.

Lemma occurs_append_l (n a b : string) : occurs n a -> occurs n (a ++ b).
Proof.
  intros [pre [post ->]]. exists pre, (post ++ b).
  now rewrite !append_assoc.
Qed.

Lemma occurs_append_r (n a b : string) : occurs n b -> occurs n (a ++ b).
Proof.
  intros [pre [post ->]]. exists (a ++ pre), post.
  now rewrite !append_assoc.
Qed.

Lemma occurs_trans (a b c : string) : occurs a b -> occurs b c -> occurs a c.
Proof.
  intros [p1 [q1 ->]] [p2 [q2 ->]]. exists (p2 ++ p1), (q1 ++ q2).
  now rewrite !append_assoc.
Qed.

Lemma occurs_nonempty (n s : string) :
  occurs n s -> n <> EmptyString -> s <> EmptyString.
Proof.
  intros [pre [post ->]] Hn Hs. apply Hn.
  destruct pre; [|discriminate Hs]. cbn [append] in Hs.
  destruct n; [reflexivity | discriminate Hs].
Qed.

Lemma occurs_join (n sep s : string) (parts : list string) :
  In s parts -> occurs n s -> occurs n (join sep parts).
Proof.
  induction parts as [|p rest IH]; intros Hin Hocc; [contradiction|].
  cbn [join]. destruct rest as [|q rest'].
  - destruct Hin as [-> | []]. exact Hocc.
  - destruct Hin as [-> | Hin].
    + now apply occurs_append_l.
    + apply occurs_append_r, occurs_append_r. now apply IH.
Qed.

Lemma In_filter_None (s : string) (result : list string) :
  In s result -> s <> EmptyString -> In s (filter_None result).
Proof.
  intros Hin Hne. unfold filter_None. apply filter_In. split; [exact Hin|].
  apply negb_true_iff. now apply String.eqb_neq.
Qed.

(** A text that occurs in a line of the result occurs in the joined
    lines, unless it is empty. *)
Lemma occurs_in_lines (n line : string) (result : list string) :
  n <> EmptyString -> In line result -> occurs n line ->
  occurs n (join nl (filter_None result)).
Proof.
  intros Hn Hin Hocc. apply (occurs_join n nl line); [|exact Hocc].
  apply In_filter_None; [exact Hin|]. now apply (occurs_nonempty n).
Qed.

(** *** Induction on the data *)

Lemma Value_induction (P : Value -> Prop) :
  (forall text, P (Other text)) ->
  (forall items, Forall (fun kv => P (snd kv)) items -> P (Dict items)) ->
  (forall text items, Forall P items -> P (PyList text items)) ->
  forall v, P v.
Proof.
  intros HO HD HL.
  refine (fix IH (v : Value) : P v :=
            match v with
            | Other text => HO text
            | Dict items =>
                HD items
                  ((fix go (l : list (string * Value))
                      : Forall (fun kv => P (snd kv)) l :=
                      match l with
                      | [] => Forall_nil _
                      | kv :: rest =>
                          Forall_cons kv
                            (match kv as p return P (snd p) with
                             | (_, x) => IH x
                             end)
                            (go rest)
                      end) items)
            | PyList text items =>
                HL text items
                  ((fix go (l : list Value) : Forall P l :=
                      match l with
                      | [] => Forall_nil _
                      | x :: rest => Forall_cons x (IH x) (go rest)
                      end) items)
            end).
Qed.

(** *** What the raw text shows *)

(** The lines of an item of a list. *)
Lemma each_lines (fmt : Value -> string) (spaces : string)
  (l : list Value) :
  forall (i : nat) (item : Value),
    In item l ->
    exists j,
      incl
        match item with
        | Dict _ =>
            [spaces ++ "  " ++ str_of_int (Z.of_nat j + 1) ++ "."; fmt item]
        | _ => [spaces ++ "  - " ++ str_of_item item]
        end
        ((fix each (i : nat) (l : list Value) : list string :=
            match l with
            | [] => []
            | item :: rest =>
                List.app
                  match item with
                  | Dict _ =>
                      [spaces ++ "  " ++ str_of_int (Z.of_nat i + 1) ++ ".";
                       fmt item]
                  | _ => [spaces ++ "  - " ++ str_of_item item]
                  end
                  (each (S i) rest)
            end) i l).
Proof.
  induction l as [|x rest IH]; intros i item Hin; [contradiction|].
  destruct Hin as [-> | Hin].
  - exists i. intros line Hline. apply in_or_app. now left.
  - destruct (IH (S i) item Hin) as [j Hj].
    exists j. intros line Hline. apply in_or_app. right. now apply Hj.
Qed.

Lemma occurs_empty (s : string) : occurs EmptyString s.
Proof. exists EmptyString, s. reflexivity. Qed.

Lemma key_colon_nonempty (k : string) : k ++ ":" <> EmptyString.
Proof. destruct k; discriminate. Qed.

(** A text that occurs in a line of an item occurs in the text of the
    [dict]. *)
Lemma occurs_in_dict (n line key : string) (value : Value)
  (items : list (string * Value)) (indent : nat)
  (F : string * Value -> list string) :
  n <> EmptyString ->
  In (key, value) items -> In line (F (key, value)) -> occurs n line ->
  occurs n (join nl (filter_None (flat_map F items))).
Proof.
  intros Hn Hkv Hline Hocc. apply (occurs_in_lines n line); try assumption.
  apply in_flat_map. exists (key, value). now split.
Qed.

Lemma format_shows (v : Value) :
  shown v
  /\ match v with
     | PyList _ l => Forall shown l
     | _ => True
     end.
Proof.
  induction v as [text | items IH | text l IH] using Value_induction.
  - split; [|exact I]. intro indent. split; intros x [].
  - split; [|exact I]. intro indent.
    cbn [format_dict_as_text keys_of texts_of].
    match goal with
    | |- context [join nl (filter_None (flat_map ?F0 items))] =>
        set (F := F0)
    end.
    rewrite Forall_forall in IH.
    split.
    + intros k Hk. apply in_flat_map in Hk.
      destruct Hk as [[key value] [Hkv Hin]].
      pose proof (IH _ Hkv) as [Hshown Hlist]. cbn [snd] in Hshown, Hlist.
      destruct Hin as [<- | Hin].
      * destruct value as [t | d | t l].
        -- apply (occurs_in_dict _ (str_mul "  " indent ++ key ++ ": " ++ t)
                    key (Other t) items indent F);
             [apply key_colon_nonempty | exact Hkv | now left |].
           apply occurs_append_r.
           exists EmptyString, (" " ++ t).
           cbn [append]. now rewrite append_assoc.
        -- apply (occurs_in_dict _ (str_mul "  " indent ++ key ++ ":")
                    key (Dict d) items indent F);
             [apply key_colon_nonempty | exact Hkv | now left |].
           apply occurs_append_r, occurs_refl.
        -- apply (occurs_in_dict _ (str_mul "  " indent ++ key ++ ":")
                    key (PyList t l) items indent F);
             [apply key_colon_nonempty | exact Hkv | now left |].
           apply occurs_append_r, occurs_refl.
      * destruct value as [t | d | t l]; [contradiction | |].
        -- apply (occurs_in_dict _ (format_dict_as_text (Dict d) (indent + 1))
                    key (Dict d) items indent F);
             [apply key_colon_nonempty | exact Hkv | right; now left |].
           now apply (proj1 (Hshown (indent + 1)%nat)).
        -- apply in_flat_map in Hin. destruct Hin as [item [Hitem Hk]].
           rewrite Forall_forall in Hlist. pose proof (Hlist _ Hitem) as Hsh.
           destruct (each_lines
                       (fun item => format_dict_as_text item (indent + 2))
                       (str_mul "  " indent) l 0 item Hitem) as [j Hj].
           destruct item as [t' | d' | t' l']; [contradiction | | contradiction].
           apply (occurs_in_dict _ (format_dict_as_text (Dict d') (indent + 2))
                    key (PyList t l) items indent F);
             [apply key_colon_nonempty | exact Hkv | |].
           ++ right. apply Hj. right. now left.
           ++ now apply (proj1 (Hsh (indent + 2)%nat)).
    + intros x Hx.
      destruct (string_dec x EmptyString) as [-> | Hne];
        [apply occurs_empty|].
      apply in_flat_map in Hx.
      destruct Hx as [[key value] [Hkv Hin]].
      pose proof (IH _ Hkv) as [Hshown Hlist]. cbn [snd] in Hshown, Hlist.
      destruct value as [t | d | t l].
      * destruct Hin as [<- | []].
        apply (occurs_in_dict _ (str_mul "  " indent ++ key ++ ": " ++ t)
                 key (Other t) items indent F);
          [exact Hne | exact Hkv | now left |].
        apply occurs_append_r, occurs_append_r, occurs_append_r, occurs_refl.
      * apply (occurs_in_dict _ (format_dict_as_text (Dict d) (indent + 1))
                 key (Dict d) items indent F);
          [exact Hne | exact Hkv | right; now left |].
        now apply (proj2 (Hshown (indent + 1)%nat)).
      * apply in_flat_map in Hin. destruct Hin as [item [Hitem Hk]].
        rewrite Forall_forall in Hlist. pose proof (Hlist _ Hitem) as Hsh.
        destruct (each_lines
                    (fun item => format_dict_as_text item (indent + 2))
                    (str_mul "  " indent) l 0 item Hitem) as [j Hj].
        destruct item as [t' | d' | t' l'].
        -- destruct Hk as [<- | []].
           apply (occurs_in_dict _
                    (str_mul "  " indent ++ "  - " ++ t')
                    key (PyList t l) items indent F);
             [exact Hne | exact Hkv | |].
           ++ right. apply Hj. now left.
           ++ apply occurs_append_r, occurs_append_r, occurs_refl.
        -- apply (occurs_in_dict _ (format_dict_as_text (Dict d') (indent + 2))
                    key (PyList t l) items indent F);
             [exact Hne | exact Hkv | |].
           ++ right. apply Hj. right. now left.
           ++ now apply (proj2 (Hsh (indent + 2)%nat)).
        -- destruct Hk as [<- | []].
           apply (occurs_in_dict _
                    (str_mul "  " indent ++ "  - " ++ t')
                    key (PyList t l) items indent F);
             [exact Hne | exact Hkv | |].
           ++ right. apply Hj. now left.
           ++ apply occurs_append_r, occurs_append_r, occurs_refl.
  - split.
    + intro indent. split; intros x [].
    + eapply Forall_impl; [|exact IH]. intros item [H _]. exact H.
Qed.


(** X18. The raw text prompt leaves nothing of the data out.  Every
    key of the data, of the dictionaries under its keys and of the
    dictionaries listed under its keys, at any depth, occurs in the
    prompt followed by a colon, and so does the text of every value
    that is not a dictionary, under a key or as an item of a list.  The
    prompt opens with the task and closes with the instruction; of the
    test case it uses the task and the data only. *)
Theorem raw_text_shows_the_data (test_case : StructuredTestCase)
  (data : list (string * Value)) :
  let prompt := to_raw_text test_case data in
  (forall k, In k (keys_of (Dict data)) -> occurs (k ++ ":") prompt)
  /\ (forall t, In t (texts_of (Dict data)) -> occurs t prompt)
  /\ (exists rest, prompt = "Task: " ++ task test_case ++ nl ++ rest)
  /\ (exists rest,
        prompt =
        rest ++ nl
        ++ "Please analyze this information and provide a detailed response.")
  /\ (forall other : StructuredTestCase,
        task other = task test_case -> to_raw_text other data = prompt).
Proof.
  intro prompt. destruct (format_shows (Dict data)) as [Hshown _].
  destruct (Hshown 0%nat) as [Hkeys Htexts].
  assert (Hin : forall n,
            occurs n (format_dict_as_text (Dict data) 0) -> occurs n prompt).
  { intros n Hocc. unfold prompt, to_raw_text.
    apply (occurs_join n nl (format_dict_as_text (Dict data) 0));
      [|exact Hocc].
    right. right. right. now left. }
  split; [intros k Hk; apply Hin; now apply Hkeys|].
  split; [intros t Ht; apply Hin; now apply Htexts|].
  split.
  { eexists. unfold prompt, to_raw_text. cbn [join].
    rewrite append_assoc. reflexivity. }
  split.
  { eexists. unfold prompt, to_raw_text. cbn [join].
    rewrite <- !append_assoc. reflexivity. }
  intros other Htask. unfold prompt, to_raw_text. now rewrite Htask.
Qed.


End FormatterFacts.
